(** * Font Group System: the flat-file store and the font/group service

    A shallow embedding of [JsonDatabase] (the whole-document JSON store),
    [FontService] (uploads, fonts and font groups), the HTTP handlers and
    the state of the client, with the properties of the specification
    stated over it.

    Modelling conventions.
    - A [Date] is the instant it denotes, in milliseconds since the epoch;
      its ISO-8601 rendering in the JSON document denotes the same instant.
    - A text file is identified with what [JSON.parse] makes of it: either
      it throws, or it yields a value; [JSON.stringify] yields a text that
      parses back to the value it was given.  The store and the service are
      stated over database files that, when they parse, hold a document as
      the source types it ([FileText], [World]).  What [read], [write] and
      [restore] do with any other JSON is stated over [JsonValue] and
      [Folder], with which the typed store is shown to agree.
    - The files of [uploads/] are kept by file name: a stored file name is
      taken to be a single path segment, as [<uuid>.ttf] is, so that
      [path.join(process.cwd(), 'uploads', name)] is the file [name] of
      [uploads/].  A record whose file name leads elsewhere is outside the
      [World].
    - The file system fails only when a path is missing ([access], [readFile]
      and [unlink] of an absent file, [writeFile] into an absent directory);
      it has no spurious failures (full disk, permissions).
    - A string is the sequence of its UTF-16 code units, of which the
      embedding has those below 256.
    - A rejection carries the message of the error.  For the errors that
      the runtime raises ([ENOENT], [SyntaxError], [TypeError]) the name of
      the error stands for its message, whose text depends on the runtime.
    - [uuidv4()] and [new Date()] consult the environment: the n-th draw of
      the generator and the n-th reading of the clock.  An [async] function is
      a state-passing computation that resolves or rejects. *)

From Stdlib Require Import ZArith Ascii.
From stdpp Require Import gmap strings list pretty.

Local Open Scope string_scope.
Local Open Scope list_scope.
Local Open Scope nat_scope.

(** ** Shared types (the [shared] package) *)

Definition Date := Z.

Definition byte := Byte.byte.

Record Font := mkFont {
  font_id : string;
  font_name : string;
  filename : string;
  originalName : string;
  path : string;
  uploadedAt : Date
}.

Record FontGroup := mkFontGroup {
  group_id : string;
  group_name : string;
  group_fonts : list Font;
  createdAt : Date;
  updatedAt : Date
}.

Record CreateFontGroupRequest := mkCreateRequest {
  create_name : string;
  create_fontIds : list string
}.

Record UpdateFontGroupRequest := mkUpdateRequest {
  update_id : string;
  update_name : string;
  update_fontIds : list string
}.

(** [interface DatabaseData] of the store. *)
Record DatabaseData := mkData {
  fonts : list Font;
  fontGroups : list FontGroup
}.

#[global] Instance Font_eq_dec : EqDecision Font.
Proof. solve_decision. Defined.
#[global] Instance FontGroup_eq_dec : EqDecision FontGroup.
Proof. solve_decision. Defined.
#[global] Instance DatabaseData_eq_dec : EqDecision DatabaseData.
Proof. solve_decision. Defined.

(** ** The world: files, identifier generator and clock *)

(** The text of a database file that holds a document if it parses, up to
    [JSON.parse]. *)
Inductive FileText :=
  | Unparseable (raw : string)
  | JsonText (data : DatabaseData).

(** An uploaded [File]: it may offer [arrayBuffer()], or a [stream()] that
    delivers its content in chunks. *)
Record File := mkFile {
  arrayBuffer : option (list byte);
  stream : option (list (list byte))
}.

(** [dataDir]: [None] when the directory [data/] is missing, [Some None] when
    it exists without [database.json], [Some (Some t)] when the file holds
    [t].  [uploadsDir]: the files of [uploads/], by file name. *)
Record World := mkWorld {
  dataDir : option (option FileText);
  uploadsDir : option (gmap string (list byte));
  uuidsDrawn : nat;
  clockReads : nat
}.

Record Environment := mkEnv {
  uuid_of : nat → string;
  time_of : nat → Date
}.

Definition set_dataDir (d : option (option FileText)) (w : World) : World :=
  mkWorld d (uploadsDir w) (uuidsDrawn w) (clockReads w).

Definition set_uploadsDir (u : option (gmap string (list byte))) (w : World) : World :=
  mkWorld (dataDir w) u (uuidsDrawn w) (clockReads w).

(** A fresh installation: no directory yet, nothing drawn or read. *)
Definition fresh : World := mkWorld None None 0 0.

(** ** Promises *)

Inductive Result (A : Type) :=
  | Resolved (a : A)
  | Rejected (reason : string).
Arguments Resolved {A} a.
Arguments Rejected {A} reason.

Definition Promise (A : Type) := World → Result A * World.

Definition resolve {A} (a : A) : Promise A := λ w, (Resolved a, w).

Definition throw {A} (reason : string) : Promise A := λ w, (Rejected reason, w).

Definition await {A B} (p : Promise A) (k : A → Promise B) : Promise B :=
  λ w, match p w with
       | (Resolved a, w') => k a w'
       | (Rejected e, w') => (Rejected e, w')
       end.

Definition try_catch {A} (body handler : Promise A) : Promise A :=
  λ w, match body w with
       | (Resolved a, w') => (Resolved a, w')
       | (Rejected _, w') => handler w'
       end.

Notation "'let*' x := p 'in' k" := (await p (λ x, k))
  (at level 10, x name, p at level 100, k at level 200, only parsing).
Notation "'do' p 'then' k" := (await p (λ _, k))
  (at level 10, p at level 100, k at level 200, only parsing).

(** ** Array methods used by the source *)

Section arrays.
Context {A : Type} (P : A → Prop) `{!∀ x, Decision (P x)}.

(** [l.find(p)]: the first element satisfying [p], or [undefined]. *)
Definition find (l : list A) : option A := snd <$> list_find P l.

(** [l.findIndex(p)]: the index of that element, or [-1]. *)
Definition findIndex (l : list A) : Z :=
  match list_find P l with
  | Some (i, _) => Z.of_nat i
  | None => (-1)%Z
  end.
End arrays.

(** [l.splice(start, 1)] for [0 <= start]. *)
Definition splice1 {A} (start : Z) (l : list A) : list A :=
  delete (Z.to_nat start) l.

(** [l[index] = x] for an index within the array. *)
Definition assign {A} (index : Z) (x : A) (l : list A) : list A :=
  <[Z.to_nat index := x]> l.

(** [l.push(x)]. *)
Definition push {A} (x : A) (l : list A) : list A := l ++ [x].

(** ** The [fs] and [JSON] primitives *)

Module fs.

Definition access_dataDir : Promise unit :=
  λ w, match dataDir w with
       | Some _ => (Resolved (), w)
       | None => (Rejected "ENOENT", w)
       end.

(** [mkdir(dataDir, { recursive: true })]. *)
Definition mkdir_dataDir : Promise unit :=
  λ w, match dataDir w with
       | Some _ => (Resolved (), w)
       | None => (Resolved (), set_dataDir (Some None) w)
       end.

Definition access_dbPath : Promise unit :=
  λ w, match dataDir w with
       | Some (Some _) => (Resolved (), w)
       | _ => (Rejected "ENOENT", w)
       end.

Definition writeFile_dbPath (text : FileText) : Promise unit :=
  λ w, match dataDir w with
       | Some _ => (Resolved (), set_dataDir (Some (Some text)) w)
       | None => (Rejected "ENOENT", w)
       end.

Definition readFile_dbPath : Promise FileText :=
  λ w, match dataDir w with
       | Some (Some text) => (Resolved text, w)
       | _ => (Rejected "ENOENT", w)
       end.

Definition access_uploadsDir : Promise unit :=
  λ w, match uploadsDir w with
       | Some _ => (Resolved (), w)
       | None => (Rejected "ENOENT", w)
       end.

Definition mkdir_uploadsDir : Promise unit :=
  λ w, match uploadsDir w with
       | Some _ => (Resolved (), w)
       | None => (Resolved (), set_uploadsDir (Some ∅) w)
       end.

(** [writeFile(path.join(cwd, 'uploads', filename), content)], for a file
    name that is a single path segment. *)
Definition writeFile_upload (filename : string) (content : list byte) : Promise unit :=
  λ w, match uploadsDir w with
       | Some files => (Resolved (), set_uploadsDir (Some (<[filename := content]> files)) w)
       | None => (Rejected "ENOENT", w)
       end.

(** [unlink(path.join(cwd, 'uploads', filename))], for a file name that is a
    single path segment. *)
Definition unlink_upload (filename : string) : Promise unit :=
  λ w, match uploadsDir w with
       | Some files =>
           match files !! filename with
           | Some _ => (Resolved (), set_uploadsDir (Some (delete filename files)) w)
           | None => (Rejected "ENOENT", w)
           end
       | None => (Rejected "ENOENT", w)
       end.

End fs.

(** [JSON.stringify] and [JSON.parse] on the text of a database file that
    holds a document if it parses. *)
Module JSON.

Definition stringify (data : DatabaseData) : FileText := JsonText data.

Definition parse (text : FileText) : Promise DatabaseData :=
  match text with
  | JsonText data => resolve data
  | Unparseable _ => throw "SyntaxError"
  end.

End JSON.

(** [{ ...group, fonts }]. *)
Definition with_fonts (group : FontGroup) (fs : list Font) : FontGroup :=
  mkFontGroup (group_id group) (group_name group) fs (createdAt group) (updatedAt group).

(** ** [class JsonDatabase] *)

Module JsonDatabase.

Definition ensureDataDirectory : Promise unit :=
  try_catch fs.access_dataDir fs.mkdir_dataDir.

Definition initialData : DatabaseData := mkData [] [].

Definition ensureDatabase : Promise unit :=
  do ensureDataDirectory then
  try_catch fs.access_dbPath (fs.writeFile_dbPath (JSON.stringify initialData)).

Definition read : Promise DatabaseData :=
  do ensureDatabase then
  try_catch
    (let* data := fs.readFile_dbPath in
     let* parsed := JSON.parse data in
     resolve parsed)
    (resolve (mkData [] [])).

Definition write (data : DatabaseData) : Promise unit :=
  do ensureDatabase then
  try_catch
    (fs.writeFile_dbPath (JSON.stringify data))
    (throw "Failed to save data to database").

Definition getAllFonts : Promise (list Font) :=
  let* data := read in
  resolve (fonts data).

Definition addFont (font : Font) : Promise unit :=
  let* data := read in
  let data := mkData (push font (fonts data)) (fontGroups data) in
  write data.

Definition getFontById (id : string) : Promise (option Font) :=
  let* data := read in
  resolve (find (λ font, font_id font = id) (fonts data)).

(** The callback of [data.fontGroups.forEach] in [deleteFont]:
    [group.fonts = group.fonts.filter(font => font.id !== id)]. *)
Definition removeFrom (id : string) (group : FontGroup) : FontGroup :=
  with_fonts group (filter (λ font, font_id font ≠ id) (group_fonts group)).

Definition deleteFont (id : string) : Promise bool :=
  let* data := read in
  let fontIndex := findIndex (λ font, font_id font = id) (fonts data) in
  if decide (fontIndex = (-1)%Z) then resolve false else
  let data := mkData (splice1 fontIndex (fonts data)) (fontGroups data) in
  let data := mkData (fonts data) (removeFrom id <$> fontGroups data) in
  do write data then
  resolve true.

Definition getAllFontGroups : Promise (list FontGroup) :=
  let* data := read in
  resolve (fontGroups data).

Definition addFontGroup (fontGroup : FontGroup) : Promise unit :=
  let* data := read in
  let data := mkData (fonts data) (push fontGroup (fontGroups data)) in
  write data.

Definition getFontGroupById (id : string) : Promise (option FontGroup) :=
  let* data := read in
  resolve (find (λ group, group_id group = id) (fontGroups data)).

Definition updateFontGroup (updatedGroup : FontGroup) : Promise bool :=
  let* data := read in
  let groupIndex :=
    findIndex (λ group, group_id group = group_id updatedGroup) (fontGroups data) in
  if decide (groupIndex = (-1)%Z) then resolve false else
  let data := mkData (fonts data) (assign groupIndex updatedGroup (fontGroups data)) in
  do write data then
  resolve true.

Definition deleteFontGroup (id : string) : Promise bool :=
  let* data := read in
  let groupIndex := findIndex (λ group, group_id group = id) (fontGroups data) in
  if decide (groupIndex = (-1)%Z) then resolve false else
  let data := mkData (fonts data) (splice1 groupIndex (fontGroups data)) in
  do write data then
  resolve true.

End JsonDatabase.

(** ** Strings: the extension test of the upload handler and the name of a font *)

(** [c.toLowerCase()] on a character of the ASCII range. *)
Definition toLower (c : Ascii.ascii) : Ascii.ascii :=
  let n := Ascii.nat_of_ascii c in
  if ((65 <=? n)%nat && (n <=? 90)%nat)%bool then Ascii.ascii_of_nat (n + 32) else c.

Fixpoint toLowerCase (s : string) : string :=
  match s with
  | EmptyString => EmptyString
  | String c rest => String (toLower c) (toLowerCase rest)
  end.

(** [s.endsWith(suffix)]. *)
Fixpoint endsWith (suffix s : string) : bool :=
  if String.eqb s suffix then true
  else match s with
       | EmptyString => false
       | String _ rest => endsWith suffix rest
       end.

(** The check of the upload handler: [file.name.toLowerCase().endsWith('.ttf')]. *)
Definition is_ttf_name (name : string) : bool :=
  endsWith ".ttf" (toLowerCase name).

(** The rest of the input, from the current position on, matches [\.ttf$]
    under the flag [i]. *)
Definition matches_ttf_end (s : string) : bool :=
  match s with
  | String c0 (String c1 (String c2 (String c3 EmptyString))) =>
      Ascii.eqb c0 "."%char &&
      (Ascii.eqb c1 "t"%char || Ascii.eqb c1 "T"%char) &&
      (Ascii.eqb c2 "t"%char || Ascii.eqb c2 "T"%char) &&
      (Ascii.eqb c3 "f"%char || Ascii.eqb c3 "F"%char)
  | _ => false
  end.

(** [s.replace(/\.ttf$/i, '')]: the first position at which the pattern
    matches is replaced by the empty string. *)
Fixpoint replace_ttf (s : string) : string :=
  if matches_ttf_end s then EmptyString
  else match s with
       | EmptyString => EmptyString
       | String c rest => String c (replace_ttf rest)
       end.

(** ** [class FontService] *)

Module FontService.

(** [uuidv4()]: the next identifier of the generator. *)
Definition uuidv4 (env : Environment) : Promise string :=
  λ w, (Resolved (uuid_of env (uuidsDrawn w)),
        mkWorld (dataDir w) (uploadsDir w) (S (uuidsDrawn w)) (clockReads w)).

(** [new Date()]: the next reading of the clock. *)
Definition newDate (env : Environment) : Promise Date :=
  λ w, (Resolved (time_of env (clockReads w)),
        mkWorld (dataDir w) (uploadsDir w) (uuidsDrawn w) (S (clockReads w))).

(** [chunks.reduce((acc, chunk) => acc + chunk.length, 0)]. *)
Definition totalLength (chunks : list (list byte)) : nat :=
  foldl (λ acc chunk, acc + length chunk) 0 chunks.

(** The loop [for (const chunk of chunks) { result.set(chunk, offset);
    offset += chunk.length }] over [new Uint8Array(totalLength)]. *)
Definition assemble (chunks : list (list byte)) : list byte :=
  let result := replicate (totalLength chunks) Byte.x00 in
  fst (foldl (λ '(result, offset) chunk,
                (list_inserts offset chunk result, offset + length chunk))
             (result, 0) chunks).

Definition saveFont (env : Environment) (file : File) (originalName : string)
    : Promise Font :=
  let* id := uuidv4 env in
  let filename := id +:+ ".ttf" in
  do try_catch fs.access_uploadsDir fs.mkdir_uploadsDir then
  let* buffer :=
    match arrayBuffer file with
    | Some content => resolve content
    | None =>
        match stream file with
        | Some chunks => resolve (assemble chunks)
        | None => throw "Invalid file type"
        end
    end in
  do fs.writeFile_upload filename buffer then
  let* now := newDate env in
  let font :=
    mkFont id (replace_ttf originalName) filename originalName
      ("/uploads/" +:+ filename) now in
  do JsonDatabase.addFont font then
  resolve font.

Definition getAllFonts : Promise (list Font) := JsonDatabase.getAllFonts.

Definition getFontById (id : string) : Promise (option Font) :=
  JsonDatabase.getFontById id.

Definition deleteFont (id : string) : Promise bool :=
  let* font := JsonDatabase.getFontById id in
  match font with
  | None => resolve false
  | Some font =>
      do try_catch (fs.unlink_upload (filename font)) (resolve ()) then
      JsonDatabase.deleteFont id
  end.

Definition createFontGroup (env : Environment) (request : CreateFontGroupRequest)
    : Promise (option FontGroup) :=
  if decide (length (create_fontIds request) < 2)%nat then resolve None else
  let* allFonts := JsonDatabase.getAllFonts in
  let selectedFonts :=
    omap (λ id, find (λ font, font_id font = id) allFonts) (create_fontIds request) in
  if decide (length selectedFonts ≠ length (create_fontIds request)) then resolve None else
  let* id := uuidv4 env in
  let* created := newDate env in
  let* updated := newDate env in
  let fontGroup := mkFontGroup id (create_name request) selectedFonts created updated in
  do JsonDatabase.addFontGroup fontGroup then
  resolve (Some fontGroup).

Definition getAllFontGroups : Promise (list FontGroup) := JsonDatabase.getAllFontGroups.

Definition getFontGroupById (id : string) : Promise (option FontGroup) :=
  JsonDatabase.getFontGroupById id.

Definition updateFontGroup (env : Environment) (request : UpdateFontGroupRequest)
    : Promise (option FontGroup) :=
  let* existingGroup := JsonDatabase.getFontGroupById (update_id request) in
  match existingGroup with
  | None => resolve None
  | Some existingGroup =>
      if decide (length (update_fontIds request) < 2)%nat then resolve None else
      let* allFonts := JsonDatabase.getAllFonts in
      let selectedFonts :=
        omap (λ id, find (λ font, font_id font = id) allFonts) (update_fontIds request) in
      if decide (length selectedFonts ≠ length (update_fontIds request))
      then resolve None else
      let* now := newDate env in
      let updatedGroup :=
        mkFontGroup (group_id existingGroup) (update_name request) selectedFonts
          (createdAt existingGroup) now in
      let* success := JsonDatabase.updateFontGroup updatedGroup in
      resolve (if success : bool then Some updatedGroup else None)
  end.

Definition deleteFontGroup (id : string) : Promise bool :=
  JsonDatabase.deleteFontGroup id.

End FontService.

(** ** Observations, runs and invariants *)

(** The document [w] holds, as [JsonDatabase.read] sees it. *)
Definition document (w : World) : DatabaseData :=
  match dataDir w with
  | Some (Some (JsonText data)) => data
  | _ => JsonDatabase.initialData
  end.

(** The world once [ensureDatabase] has run. *)
Definition ensured (w : World) : World :=
  match dataDir w with
  | Some (Some _) => w
  | _ => set_dataDir (Some (Some (JsonText JsonDatabase.initialData))) w
  end.

(** The world whose database file holds [data]. *)
Definition holding (data : DatabaseData) (w : World) : World :=
  set_dataDir (Some (Some (JsonText data))) w.

Definition font_ids (data : DatabaseData) : list string := font_id <$> fonts data.

Definition group_ids (data : DatabaseData) : list string := group_id <$> fontGroups data.

(** The bytes an upload consists of: those of its [arrayBuffer()] or, without
    one, the chunks of its [stream()] one after the other. *)
Definition uploaded_content (file : File) : option (list byte) :=
  match arrayBuffer file with
  | Some content => Some content
  | None =>
      match stream file with
      | Some chunks => Some (concat chunks)
      | None => None
      end
  end.

(** The snapshots a request selects: for each identifier, in the order of the
    request, the first stored font that carries it. *)
Definition snapshots (ids : list string) (data : DatabaseData) : list Font :=
  omap (λ id, find (λ font, font_id font = id) (fonts data)) ids.

(** [w'] is [w], but for a missing database file, which may have been
    initialised to the empty document. *)
Definition same_store (w w' : World) : Prop :=
  w' = w ∨
  ((dataDir w = None ∨ dataDir w = Some None) ∧
   w' = set_dataDir (Some (Some (JsonText (mkData [] [])))) w).

(** [write(read())]. *)
Definition write_read : Promise unit :=
  let* data := JsonDatabase.read in
  JsonDatabase.write data.

(** The operations the HTTP handlers call, and damage to the database file
    from outside (the case [read] recovers from). *)
Inductive Call :=
  | SaveFont (file : File) (originalName : string)
  | GetAllFonts
  | DeleteFont (id : string)
  | CreateFontGroup (request : CreateFontGroupRequest)
  | GetAllFontGroups
  | UpdateFontGroup (request : UpdateFontGroupRequest)
  | DeleteFontGroup (id : string)
  | Corrupt (raw : string).

Definition exec (env : Environment) (call : Call) (w : World) : World :=
  match call with
  | SaveFont file originalName => snd (FontService.saveFont env file originalName w)
  | GetAllFonts => snd (FontService.getAllFonts w)
  | DeleteFont id => snd (FontService.deleteFont id w)
  | CreateFontGroup request => snd (FontService.createFontGroup env request w)
  | GetAllFontGroups => snd (FontService.getAllFontGroups w)
  | UpdateFontGroup request => snd (FontService.updateFontGroup env request w)
  | DeleteFontGroup id => snd (FontService.deleteFontGroup id w)
  | Corrupt raw =>
      match dataDir w with
      | Some (Some _) => set_dataDir (Some (Some (Unparseable raw))) w
      | _ => w
      end
  end.

Definition run (env : Environment) (calls : list Call) (w : World) : World :=
  foldl (λ w call, exec env call w) w calls.

(** The worlds a fresh installation can get into. *)
Definition reachable (env : Environment) (w : World) : Prop :=
  ∃ calls, w = run env calls fresh.

(** The generator never returns the same identifier twice. *)
Definition uuid_unique (env : Environment) : Prop :=
  ∀ m n, uuid_of env m = uuid_of env n → m = n.

(** The clock never goes back. *)
Definition clock_monotone (env : Environment) : Prop :=
  ∀ m n : nat, (m ≤ n)%nat → (time_of env m ≤ time_of env n)%Z.

(** Every stored font carries an identifier drawn earlier. *)
Definition ids_drawn (env : Environment) (w : World) : Prop :=
  ∀ font, font ∈ fonts (document w) →
    ∃ k : nat, (k < uuidsDrawn w)%nat ∧ font_id font = uuid_of env k.

(** Every stored group was last updated at an earlier reading of the clock. *)
Definition times_read (env : Environment) (w : World) : Prop :=
  ∀ group, group ∈ fontGroups (document w) →
    ∃ k : nat, (k < clockReads w)%nat ∧ updatedAt group = time_of env k.

(** No two stored fonts carry the same identifier. *)
Definition fonts_unique (data : DatabaseData) : Prop := NoDup (font_ids data).

(** Every stored group holds at least two snapshots. *)
Definition groups_full (data : DatabaseData) : Prop :=
  Forall (λ group, (2 ≤ length (group_fonts group))%nat) (fontGroups data).

(** [group'] is [group] with some snapshots removed and nothing else changed. *)
Definition pruned (group group' : FontGroup) : Prop :=
  group_id group' = group_id group ∧
  group_name group' = group_name group ∧
  createdAt group' = createdAt group ∧
  updatedAt group' = updatedAt group ∧
  sublist (group_fonts group') (group_fonts group).

(** [call] is not addressed to the group [id]: it is neither the deletion nor
    an update of that group (nor damage to the file from outside). *)
Definition spares (call : Call) (id : string) : Prop :=
  match call with
  | DeleteFontGroup target => target ≠ id
  | UpdateFontGroup request => update_id request ≠ id
  | Corrupt _ => False
  | _ => True
  end.

(** ** Sample data *)

(** Identifiers [0], [1], [2], ... and a clock that advances by one
    millisecond between two readings. *)
Definition sample_env : Environment := mkEnv (λ n, pretty n) (λ n, Z.of_nat n).

Definition arial_file : File :=
  mkFile (Some [Byte.x00; Byte.x01; Byte.x00; Byte.x00]) None.

Definition georgia_file : File :=
  mkFile None (Some [[Byte.x00; Byte.x01]; []; [Byte.x4f; Byte.x54; Byte.x54; Byte.x4f]]).

Definition arial : Font := mkFont "0" "Arial" "0.ttf" "Arial.ttf" "/uploads/0.ttf" 0%Z.

Definition georgia : Font := mkFont "1" "Georgia" "1.ttf" "Georgia.TTF" "/uploads/1.ttf" 1%Z.

(** Two uploads: the fonts get the identifiers [0] and [1]. *)
Definition two_fonts : World :=
  run sample_env [SaveFont arial_file "Arial.ttf"; SaveFont georgia_file "Georgia.TTF"] fresh.

Definition body_text : CreateFontGroupRequest := mkCreateRequest "Body Text" ["0"; "1"].

(** The two fonts and the group "Body Text" of both; the group gets the
    identifier [2]. *)
Definition with_group : World := exec sample_env (CreateFontGroup body_text) two_fonts.

Definition body_text_group : FontGroup :=
  mkFontGroup "2" "Body Text" [arial; georgia] 2%Z 3%Z.

(** Requests that name one font twice. *)
Definition arial_twice : CreateFontGroupRequest := mkCreateRequest "Pair" ["0"; "0"].

Definition georgia_twice : UpdateFontGroupRequest :=
  mkUpdateRequest "2" "Body Text" ["1"; "1"].

Definition headings : UpdateFontGroupRequest := mkUpdateRequest "2" "Headings" ["1"; "0"].

(** ** Steps of the store and what they keep *)

(** The files of [uploads/]; none when the directory is missing. *)
Definition files (w : World) : gmap string (list byte) := default ∅ (uploadsDir w).

Definition snapshot_ids (data : DatabaseData) : list string :=
  group ← fontGroups data; font_id <$> group_fonts group.

(** What a call can do to the document, the uploads and the two counters. *)
Inductive Step (env : Environment) (w w' : World) : Prop :=
  | step_idle :
      document w' = document w →
      files w' = files w →
      uuidsDrawn w ≤ uuidsDrawn w' →
      clockReads w ≤ clockReads w' →
      Step env w w'
  | step_lost :
      document w' = mkData [] [] →
      files w' = files w →
      uuidsDrawn w' = uuidsDrawn w →
      clockReads w' = clockReads w →
      Step env w w'
  | step_font_saved font content :
      font_id font = uuid_of env (uuidsDrawn w) →
      filename font = font_id font +:+ ".ttf" →
      path font = "/uploads/" +:+ filename font →
      document w' = mkData (fonts (document w) ++ [font]) (fontGroups (document w)) →
      files w' = <[filename font := content]> (files w) →
      uuidsDrawn w' = S (uuidsDrawn w) →
      clockReads w ≤ clockReads w' →
      Step env w w'
  | step_font_deleted id before font after :
      fonts (document w) = before ++ font :: after →
      font_id font = id →
      Forall (λ other, font_id other ≠ id) before →
      document w' =
        mkData (before ++ after) (JsonDatabase.removeFrom id <$> fontGroups (document w)) →
      files w' = delete (filename font) (files w) →
      uuidsDrawn w' = uuidsDrawn w →
      clockReads w' = clockReads w →
      Step env w w'
  | step_group_created group ids :
      group_id group = uuid_of env (uuidsDrawn w) →
      group_fonts group = snapshots ids (document w) →
      document w' = mkData (fonts (document w)) (fontGroups (document w) ++ [group]) →
      files w' = files w →
      uuidsDrawn w' = S (uuidsDrawn w) →
      clockReads w ≤ clockReads w' →
      Step env w w'
  | step_group_updated before existing after updated ids :
      fontGroups (document w) = before ++ existing :: after →
      group_id updated = group_id existing →
      group_fonts updated = snapshots ids (document w) →
      document w' = mkData (fonts (document w)) (before ++ updated :: after) →
      files w' = files w →
      uuidsDrawn w' = uuidsDrawn w →
      clockReads w ≤ clockReads w' →
      Step env w w'
  | step_group_deleted before group after :
      fontGroups (document w) = before ++ group :: after →
      document w' = mkData (fonts (document w)) (before ++ after) →
      files w' = files w →
      uuidsDrawn w' = uuidsDrawn w →
      clockReads w' = clockReads w →
      Step env w w'.

(** What the stores a fresh installation gets into have in common, with a
    generator that never repeats itself: identifiers and file names were
    drawn, no identifier is used twice, every font has its binary under the
    name [<id>.ttf], where its path points. *)
Record Consistent (env : Environment) (w : World) : Prop := mkConsistent {
  fonts_drawn : ids_drawn env w;
  groups_drawn :
    ∀ group, group ∈ fontGroups (document w) →
      ∃ k : nat, k < uuidsDrawn w ∧ group_id group = uuid_of env k;
  names_drawn :
    ∀ name, is_Some (files w !! name) →
      ∃ k : nat, k < uuidsDrawn w ∧ name = uuid_of env k +:+ ".ttf";
  ids_distinct : NoDup (font_ids (document w) ++ group_ids (document w));
  fonts_named :
    ∀ font, font ∈ fonts (document w) →
      filename font = font_id font +:+ ".ttf" ∧ path font = "/uploads/" +:+ filename font;
  binaries_present :
    ∀ font, font ∈ fonts (document w) → is_Some (files w !! filename font)
}.

(** Every snapshot a group holds is a font of the store. *)
Definition snapshots_stored (data : DatabaseData) : Prop :=
  ∀ group font, group ∈ fontGroups data → font ∈ group_fonts group → font ∈ fonts data.

(** ** Backups *)

(** The world and, by path below the working directory, the other text
    files on the disk (those that are neither [data/database.json] nor an
    upload), each up to [JSON.parse]. *)
Definition Disk : Type := World * gmap string FileText.

Definition Task (A : Type) := Disk → Result A * Disk.

(** A computation on the world, run on the disk. *)
Definition lift {A} (p : Promise A) : Task A :=
  λ disk, let (r, w') := p (fst disk) in (r, (w', snd disk)).

Definition await_task {A B} (t : Task A) (k : A → Task B) : Task B :=
  λ disk, match t disk with
          | (Resolved a, disk') => k a disk'
          | (Rejected e, disk') => (Rejected e, disk')
          end.

Notation "'let+' x := t 'in' k" := (await_task t (λ x, k))
  (at level 10, x name, t at level 100, k at level 200, only parsing).

(** [path.join(process.cwd(), 'data', 'database.json')], below the working
    directory. *)
Definition dbPath : string := "data/database.json".

(** [fs.readFile(path, 'utf-8')]. *)
Definition readFile (path : string) : Task FileText :=
  if decide (path = dbPath) then lift fs.readFile_dbPath
  else λ disk, match snd disk !! path with
               | Some text => (Resolved text, disk)
               | None => (Rejected "ENOENT", disk)
               end.

(** [fs.writeFile(path.join(dataDir, name), text)]. *)
Definition writeFile_data (name : string) (text : FileText) : Task unit :=
  if decide ("data/" +:+ name = dbPath) then lift (fs.writeFile_dbPath text)
  else λ disk, match dataDir (fst disk) with
               | Some _ => (Resolved (), (fst disk, <["data/" +:+ name := text]> (snd disk)))
               | None => (Rejected "ENOENT", disk)
               end.

(** [s.replace(/[:.]/g, '-')]. *)
Fixpoint dashed (s : string) : string :=
  match s with
  | EmptyString => EmptyString
  | String c rest =>
      String (if Ascii.eqb c ":"%char || Ascii.eqb c "."%char then "-"%char else c)
        (dashed rest)
  end.

(** [JsonDatabase.backup], given [Date.prototype.toISOString]. *)
Definition backup (toISOString : Date → string) (env : Environment) : Task unit :=
  let+ data := lift JsonDatabase.read in
  let+ now := lift (FontService.newDate env) in
  let timestamp := dashed (toISOString now) in
  writeFile_data ("database-backup-" +:+ timestamp +:+ ".json") (JSON.stringify data).

(** [JsonDatabase.restore]. *)
Definition restore (backupFilePath : string) : Task unit :=
  let+ backupData := readFile backupFilePath in
  let+ data := lift (JSON.parse backupData) in
  lift (JsonDatabase.write data).

(** The path of the backup taken at the instant [now]. *)
Definition backupPath (toISOString : Date → string) (now : Date) : string :=
  "data/" +:+ "database-backup-" +:+ dashed (toISOString now) +:+ ".json".

(** A rendering of instants for the samples: the number of milliseconds,
    followed by [.000Z]. *)
Definition sample_iso (now : Date) : string := pretty now +:+ ".000Z".

(** ** The database file, whatever JSON it holds

    [read], [write] and [restore] pass on the value that [JSON.parse] yields
    without looking into it, so they are stated here over any JSON value.
    The store above is their restriction to files that hold a document when
    they parse. *)

(** A JSON value as [JSON.parse] yields it: a number by its literal, the
    members of an object in the order of the text. *)
#[warnings="-register-all"] Inductive JsonValue :=
  | JNull
  | JBool (b : bool)
  | JNumber (literal : string)
  | JString (s : string)
  | JArray (items : list JsonValue)
  | JObject (members : list (string * JsonValue)).

(** [value[key]] for an object; of several members of that name the last
    one counts. *)
Definition member (key : string) (value : JsonValue) : option JsonValue :=
  match value with
  | JObject members => snd <$> find (λ m, fst m = key) (reverse members)
  | _ => None
  end.

(** A full [{fonts, fontGroups}] document: an object whose [fonts] and
    [fontGroups] are arrays. *)
Definition full_document (value : JsonValue) : bool :=
  match member "fonts" value, member "fontGroups" value with
  | Some (JArray _), Some (JArray _) => true
  | _, _ => false
  end.

(** A text file up to [JSON.parse]: the parse throws, or yields a value. *)
Inductive Text :=
  | NoJson (raw : string)
  | Json (value : JsonValue).

(** The directory [data/] with its database file (as [dataDir] of the
    world), and the other text files by their path below the working
    directory. *)
Record Folder := mkFolder {
  database : option (option Text);
  elsewhere : gmap string Text
}.

Module Untyped.

Definition Task (A : Type) := Folder → Result A * Folder.

Definition resolve {A} (a : A) : Task A := λ folder, (Resolved a, folder).

Definition throw {A} (reason : string) : Task A := λ folder, (Rejected reason, folder).

Definition await {A B} (t : Task A) (k : A → Task B) : Task B :=
  λ folder, match t folder with
            | (Resolved a, folder') => k a folder'
            | (Rejected e, folder') => (Rejected e, folder')
            end.

Definition try_catch {A} (body handler : Task A) : Task A :=
  λ folder, match body folder with
            | (Resolved a, folder') => (Resolved a, folder')
            | (Rejected _, folder') => handler folder'
            end.

Definition access_dataDir : Task unit :=
  λ folder, match database folder with
            | Some _ => (Resolved (), folder)
            | None => (Rejected "ENOENT", folder)
            end.

Definition mkdir_dataDir : Task unit :=
  λ folder, match database folder with
            | Some _ => (Resolved (), folder)
            | None => (Resolved (), mkFolder (Some None) (elsewhere folder))
            end.

Definition access_dbPath : Task unit :=
  λ folder, match database folder with
            | Some (Some _) => (Resolved (), folder)
            | _ => (Rejected "ENOENT", folder)
            end.

Definition writeFile_dbPath (text : Text) : Task unit :=
  λ folder, match database folder with
            | Some _ => (Resolved (), mkFolder (Some (Some text)) (elsewhere folder))
            | None => (Rejected "ENOENT", folder)
            end.

(** [fs.readFile(path, 'utf-8')]. *)
Definition readFile (path : string) : Task Text :=
  λ folder,
    if decide (path = dbPath) then
      match database folder with
      | Some (Some text) => (Resolved text, folder)
      | _ => (Rejected "ENOENT", folder)
      end
    else
      match elsewhere folder !! path with
      | Some text => (Resolved text, folder)
      | None => (Rejected "ENOENT", folder)
      end.

Definition stringify (value : JsonValue) : Text := Json value.

Definition parse (text : Text) : Task JsonValue :=
  match text with
  | Json value => resolve value
  | NoJson _ => throw "SyntaxError"
  end.

(** [{ fonts: [], fontGroups: [] }]. *)
Definition emptyDocument : JsonValue :=
  JObject [("fonts", JArray []); ("fontGroups", JArray [])].

Definition ensureDataDirectory : Task unit :=
  try_catch access_dataDir mkdir_dataDir.

Definition ensureDatabase : Task unit :=
  await ensureDataDirectory (λ _,
  try_catch access_dbPath (writeFile_dbPath (stringify emptyDocument))).

Definition read : Task JsonValue :=
  await ensureDatabase (λ _,
  try_catch
    (await (readFile dbPath) (λ data,
     await (parse data) (λ parsed,
     resolve parsed)))
    (resolve emptyDocument)).

Definition write (data : JsonValue) : Task unit :=
  await ensureDatabase (λ _,
  try_catch
    (writeFile_dbPath (stringify data))
    (throw "Failed to save data to database")).

Definition restore (backupFilePath : string) : Task unit :=
  await (readFile backupFilePath) (λ backupData,
  await (parse backupData) (λ data,
  write data)).

End Untyped.

(** What [JSON.stringify] makes of the typed values, given
    [Date.prototype.toISOString]: the members in the order in which the
    source builds the objects. *)
Section encoding.
Variable toISOString : Date → string.

Definition encode_font (font : Font) : JsonValue :=
  JObject [("id", JString (font_id font)); ("name", JString (font_name font));
           ("filename", JString (filename font));
           ("originalName", JString (originalName font));
           ("path", JString (path font));
           ("uploadedAt", JString (toISOString (uploadedAt font)))].

Definition encode_group (group : FontGroup) : JsonValue :=
  JObject [("id", JString (group_id group)); ("name", JString (group_name group));
           ("fonts", JArray (encode_font <$> group_fonts group));
           ("createdAt", JString (toISOString (createdAt group)));
           ("updatedAt", JString (toISOString (updatedAt group)))].

Definition encode (data : DatabaseData) : JsonValue :=
  JObject [("fonts", JArray (encode_font <$> fonts data));
           ("fontGroups", JArray (encode_group <$> fontGroups data))].

Definition encode_text (text : FileText) : Text :=
  match text with
  | Unparseable raw => NoJson raw
  | JsonText data => Json (encode data)
  end.

(** The files of a typed disk. *)
Definition folder_of (disk : Disk) : Folder :=
  mkFolder (option_map (option_map encode_text) (dataDir (fst disk)))
    (encode_text <$> snd disk).

Definition encode_result {A B} (f : A → B) (result : Result A) : Result B :=
  match result with
  | Resolved a => Resolved (f a)
  | Rejected reason => Rejected reason
  end.

End encoding.

(** ** File names *)

(** A file name that is a single path segment, for which
    [path.join(process.cwd(), 'uploads', name)] is the file [name] of
    [uploads/]. *)
Definition plain_name (name : string) : Prop :=
  name ≠ "" ∧ name ≠ "." ∧ name ≠ ".." ∧
  String.index 0 "/" name = None ∧ String.index 0 "\" name = None.

(** ** The HTTP handlers *)

(** The [data] of a response. *)
Inductive Payload :=
  | NoData
  | FontData (font : Font)
  | FontsData (stored : list Font)
  | GroupData (group : FontGroup)
  | GroupsData (stored : list FontGroup).

(** [type ApiResponse] of the [shared] package. *)
Record ApiResponse := mkApiResponse {
  api_message : string;
  api_success : bool;
  api_data : Payload
}.

(** What [c.json(body, status)] answers. *)
Record Response := mkResponse {
  status : nat;
  body : ApiResponse
}.

(** [c.json(body)]: the status is 200. *)
Definition json (answer : ApiResponse) : Response := mkResponse 200 answer.

(** [try { ... } catch (error) { ... }] with the message of the error. *)
Definition try_catch_error {A} (attempt : Promise A) (handler : string → Promise A)
    : Promise A :=
  λ w, match attempt w with
       | (Resolved a, w') => (Resolved a, w')
       | (Rejected reason, w') => handler reason w'
       end.

(** The field [font] of the parsed body ([body['font']]): missing, a text,
    or a file with its name. *)
Inductive FormValue :=
  | NoField
  | TextField (text : string)
  | FileField (name : string) (file : File).

(** What [await c.req.json()] yields, by what the service meets in it; the
    source types it as a request, which JavaScript does not check.
    [Typed]: an object with a string [name] and an array of strings
    [fontIds].  [NoFontIds]: [null], or a value whose [fontIds] is
    [undefined] or [null], such as [{}], an array, a number or a string.
    [TextFontIds]: an object whose [fontIds] is a string.  Values of other
    shapes are not covered. *)
Inductive Parsed (A : Type) :=
  | Typed (request : A)
  | NoFontIds
  | TextFontIds (fontIds : string).
Arguments Typed {A} request.
Arguments NoFontIds {A}.
Arguments TextFontIds {A} fontIds.

(** [await c.req.json()]: [None] stands for a body that is not JSON. *)
Definition req_json {A} (sent : option (Parsed A)) : Promise (Parsed A) :=
  match sent with
  | Some body => resolve body
  | None => throw "SyntaxError"
  end.

(** [FontService.createFontGroup(body)] as JavaScript runs it on the parsed
    body: [request.fontIds.length] throws without [fontIds], and a string
    has a [length] but no [map]. *)
Definition createFontGroup_body (env : Environment) (body : Parsed CreateFontGroupRequest)
    : Promise (option FontGroup) :=
  match body with
  | Typed request => FontService.createFontGroup env request
  | NoFontIds => throw "TypeError"
  | TextFontIds fontIds =>
      if decide (String.length fontIds < 2) then resolve None else
      do JsonDatabase.getAllFonts then
      throw "TypeError"
  end.

(** [FontService.updateFontGroup({ ...body, id })] as JavaScript runs it on
    the parsed body; [{ ...body, id }] is the body with the identifier of
    the path in place of its own. *)
Definition updateFontGroup_body (env : Environment) (id : string)
    (body : Parsed UpdateFontGroupRequest) : Promise (option FontGroup) :=
  match body with
  | Typed request =>
      FontService.updateFontGroup env
        (mkUpdateRequest id (update_name request) (update_fontIds request))
  | NoFontIds =>
      let* existingGroup := JsonDatabase.getFontGroupById id in
      match existingGroup with
      | None => resolve None
      | Some _ => throw "TypeError"
      end
  | TextFontIds fontIds =>
      let* existingGroup := JsonDatabase.getFontGroupById id in
      match existingGroup with
      | None => resolve None
      | Some _ =>
          if decide (String.length fontIds < 2) then resolve None else
          do JsonDatabase.getAllFonts then
          throw "TypeError"
      end
  end.

(** [app.post('/api/fonts/upload', ...)]; [font] is the field [font] of the
    parsed body.  An empty text is falsy; any other text has no [name], so
    that [file.name.toLowerCase()] throws. *)
Definition post_fonts_upload (env : Environment) (font : FormValue)
    : Promise Response :=
  try_catch_error
    (match font with
     | NoField =>
         resolve (mkResponse 400 (mkApiResponse "No file uploaded" false NoData))
     | TextField text =>
         if decide (text = "")
         then resolve (mkResponse 400 (mkApiResponse "No file uploaded" false NoData))
         else throw "TypeError"
     | FileField name file =>
         if negb (is_ttf_name name)
         then resolve (mkResponse 400 (mkApiResponse "Only TTF files are allowed" false NoData))
         else
           let* font := FontService.saveFont env file name in
           resolve (mkResponse 201
                      (mkApiResponse "Font uploaded successfully" true (FontData font)))
     end)
    (λ error,
       resolve (mkResponse 500
                  (mkApiResponse ("Failed to upload font: " +:+ error) false NoData))).

(** [app.get('/api/fonts', ...)]. *)
Definition get_fonts : Promise Response :=
  try_catch
    (let* stored := FontService.getAllFonts in
     resolve (json (mkApiResponse "Fonts retrieved successfully" true (FontsData stored))))
    (resolve (mkResponse 500 (mkApiResponse "Failed to retrieve fonts" false NoData))).

(** [app.delete('/api/fonts/:id', ...)]. *)
Definition delete_font (id : string) : Promise Response :=
  try_catch
    (let* deleted := FontService.deleteFont id in
     if negb deleted
     then resolve (mkResponse 404 (mkApiResponse "Font not found" false NoData))
     else resolve (json (mkApiResponse "Font deleted successfully" true NoData)))
    (resolve (mkResponse 500 (mkApiResponse "Failed to delete font" false NoData))).

(** [app.post('/api/font-groups', ...)]. *)
Definition post_font_groups (env : Environment)
    (sent : option (Parsed CreateFontGroupRequest)) : Promise Response :=
  try_catch
    (let* body := req_json sent in
     let* fontGroup := createFontGroup_body env body in
     match fontGroup with
     | None =>
         resolve (mkResponse 400
                    (mkApiResponse "Font group must have at least 2 fonts" false NoData))
     | Some fontGroup =>
         resolve (mkResponse 201
                    (mkApiResponse "Font group created successfully" true
                       (GroupData fontGroup)))
     end)
    (resolve (mkResponse 500 (mkApiResponse "Failed to create font group" false NoData))).

(** [app.get('/api/font-groups', ...)]. *)
Definition get_font_groups : Promise Response :=
  try_catch
    (let* stored := FontService.getAllFontGroups in
     resolve (json (mkApiResponse "Font groups retrieved successfully" true
                      (GroupsData stored))))
    (resolve (mkResponse 500 (mkApiResponse "Failed to retrieve font groups" false NoData))).

(** [app.put('/api/font-groups/:id', ...)]. *)
Definition put_font_group (env : Environment) (id : string)
    (sent : option (Parsed UpdateFontGroupRequest)) : Promise Response :=
  try_catch
    (let* body := req_json sent in
     let* fontGroup := updateFontGroup_body env id body in
     match fontGroup with
     | None =>
         resolve (mkResponse 400
                    (mkApiResponse "Font group not found or invalid data" false NoData))
     | Some fontGroup =>
         resolve (json (mkApiResponse "Font group updated successfully" true
                          (GroupData fontGroup)))
     end)
    (resolve (mkResponse 500 (mkApiResponse "Failed to update font group" false NoData))).

(** [app.delete('/api/font-groups/:id', ...)]. *)
Definition delete_font_group (id : string) : Promise Response :=
  try_catch
    (let* deleted := FontService.deleteFontGroup id in
     if negb deleted
     then resolve (mkResponse 404 (mkApiResponse "Font group not found" false NoData))
     else resolve (json (mkApiResponse "Font group deleted successfully" true NoData)))
    (resolve (mkResponse 500 (mkApiResponse "Failed to delete font group" false NoData))).

(** The requests of the API, and how [app] routes them. *)
Inductive Request :=
  | PostFontsUpload (font : FormValue)
  | GetFonts
  | DeleteFontAt (id : string)
  | PostFontGroups (sent : option (Parsed CreateFontGroupRequest))
  | GetFontGroups
  | PutFontGroupAt (id : string) (sent : option (Parsed UpdateFontGroupRequest))
  | DeleteFontGroupAt (id : string).

Definition serve (env : Environment) (request : Request) : Promise Response :=
  match request with
  | PostFontsUpload font => post_fonts_upload env font
  | GetFonts => get_fonts
  | DeleteFontAt id => delete_font id
  | PostFontGroups sent => post_font_groups env sent
  | GetFontGroups => get_font_groups
  | PutFontGroupAt id sent => put_font_group env id sent
  | DeleteFontGroupAt id => delete_font_group id
  end.

(** ** The client: the form of a group and the lists of the page *)

(** [interface FontRow] of the form. *)
Record FontRow := mkFontRow {
  row_id : string;
  fontName : string;
  selectedFontId : string;
  specificSize : string;
  priceChange : string
}.

(** The row a form starts with and [addRow] adds. *)
Definition emptyRow (id : string) : FontRow := mkFontRow id "" "" "1.00" "0".

(** [addRow]: the new row is named after the number of rows. *)
Definition addRow (fontRows : list FontRow) : list FontRow :=
  let newId := pretty (length fontRows + 1) in
  fontRows ++ [emptyRow newId].

(** [removeRow]. *)
Definition removeRow (id : string) (fontRows : list FontRow) : list FontRow :=
  if decide (1 < length fontRows) then filter (λ row, row_id row ≠ id) fontRows
  else fontRows.

(** The keys of a row that the form updates. *)
Inductive RowField := FontNameField | SelectedFontIdField | SpecificSizeField | PriceChangeField.

(** [{ ...row, [field]: value }]. *)
Definition with_field (row : FontRow) (field : RowField) (value : string) : FontRow :=
  match field with
  | FontNameField =>
      mkFontRow (row_id row) value (selectedFontId row) (specificSize row) (priceChange row)
  | SelectedFontIdField =>
      mkFontRow (row_id row) (fontName row) value (specificSize row) (priceChange row)
  | SpecificSizeField =>
      mkFontRow (row_id row) (fontName row) (selectedFontId row) value (priceChange row)
  | PriceChangeField =>
      mkFontRow (row_id row) (fontName row) (selectedFontId row) (specificSize row) value
  end.

(** [updateRow]. *)
Definition updateRow (id : string) (field : RowField) (value : string)
    (prevRows : list FontRow) : list FontRow :=
  (λ row, if decide (row_id row = id) then with_field row field value else row) <$> prevRows.

(** [handleFontSelection], over the fonts the page has loaded. *)
Definition handleFontSelection (loaded : list Font) (id fontId : string)
    (fontRows : list FontRow) : list FontRow :=
  match find (λ f, font_id f = fontId) loaded with
  | Some selectedFont =>
      updateRow id FontNameField (font_name selectedFont)
        (updateRow id SelectedFontIdField fontId fontRows)
  | None =>
      if decide (fontId = "")
      then updateRow id FontNameField "" (updateRow id SelectedFontIdField "" fontRows)
      else fontRows
  end.

(** The rows the form shows for a group that is being edited. *)
Definition rowsOf (editing : FontGroup) : list FontRow :=
  imap (λ index font, mkFontRow (pretty (index + 1)) (font_name font) (font_id font) "1.00" "0")
    (group_fonts editing).

(** [[...new Set(ids)]]: the identifiers in the order of their first
    occurrence. *)
Fixpoint spread_Set (seen ids : list string) : list string :=
  match ids with
  | [] => []
  | id :: rest =>
      if decide (id ∈ seen) then spread_Set seen rest else id :: spread_Set (id :: seen) rest
  end.

(** What submitting the form does: a message, or a request to the API. *)
Inductive Submission :=
  | ShowMessage (message : string)
  | Fetch (request : Request).

(** [handleSubmit], up to the request it sends, given [String.prototype.trim]. *)
Definition handleSubmit (trim : string → string) (groupName : string)
    (fontRows : list FontRow) (editing : option FontGroup) : Submission :=
  if decide (trim groupName = "") then ShowMessage "Please enter a group name" else
  let validRows := filter (λ row, selectedFontId row ≠ "") fontRows in
  if decide (length validRows < 2) then ShowMessage "Please select at least 2 fonts" else
  let selectedFontIds := selectedFontId <$> validRows in
  let uniqueFontIds := spread_Set [] selectedFontIds in
  if decide (length uniqueFontIds ≠ length selectedFontIds)
  then ShowMessage "Please select different fonts (no duplicates allowed)" else
  match editing with
  | Some editingGroup =>
      Fetch (PutFontGroupAt (group_id editingGroup)
               (Some (Typed (mkUpdateRequest (group_id editingGroup) (trim groupName)
                               uniqueFontIds))))
  | None =>
      Fetch (PostFontGroups (Some (Typed (mkCreateRequest (trim groupName) uniqueFontIds))))
  end.

(** The state of [App]: the fonts and groups it shows. *)
Record Page := mkPage {
  page_fonts : list Font;
  page_groups : list FontGroup;
  page_editing : option FontGroup
}.

Definition handleFontUploaded (font : Font) (page : Page) : Page :=
  mkPage (page_fonts page ++ [font]) (page_groups page) (page_editing page).

Definition handleFontDeleted (fontId : string) (page : Page) : Page :=
  mkPage (filter (λ f, font_id f ≠ fontId) (page_fonts page)) (page_groups page)
    (page_editing page).

Definition handleFontGroupCreated (fontGroup : FontGroup) (page : Page) : Page :=
  mkPage (page_fonts page) (page_groups page ++ [fontGroup]) (page_editing page).

Definition handleFontGroupUpdated (fontGroup : FontGroup) (page : Page) : Page :=
  mkPage (page_fonts page)
    ((λ fg, if decide (group_id fg = group_id fontGroup) then fontGroup else fg)
       <$> page_groups page)
    None.

Definition handleFontGroupDeleted (groupId : string) (page : Page) : Page :=
  mkPage (page_fonts page) (filter (λ fg, group_id fg ≠ groupId) (page_groups page))
    (page_editing page).

(** What the page does with the answer to a request: on success the
    handler of the component that sent it, otherwise nothing. *)
Definition receive (request : Request) (response : Response) (page : Page) : Page :=
  if negb (api_success (body response)) then page else
  match request, api_data (body response) with
  | PostFontsUpload _, FontData font => handleFontUploaded font page
  | GetFonts, FontsData stored => mkPage stored (page_groups page) (page_editing page)
  | DeleteFontAt id, _ => handleFontDeleted id page
  | PostFontGroups _, GroupData group => handleFontGroupCreated group page
  | GetFontGroups, GroupsData stored => mkPage (page_fonts page) stored (page_editing page)
  | PutFontGroupAt _ _, GroupData group => handleFontGroupUpdated group page
  | DeleteFontGroupAt id, _ => handleFontGroupDeleted id page
  | _, _ => page
  end.

(** [FontGroupList]: under a group the list adds "Updated" and the date of
    the update when [group.updatedAt !== group.createdAt]. *)
Definition showsUpdated (group : FontGroup) : bool :=
  bool_decide (updatedAt group ≠ createdAt group).

(** A [trim] for the samples: it strips the blanks at both ends. *)
Fixpoint trim_start (s : string) : string :=
  match s with
  | String " " rest => trim_start rest
  | _ => s
  end.

Definition sample_trim (s : string) : string :=
  String.rev (trim_start (String.rev (trim_start s))).

Definition sample_rows : list FontRow :=
  [mkFontRow "1" "Arial" "0" "1.00" "0"; emptyRow "2"; mkFontRow "3" "Georgia" "1" "1.00" "0"].

(** * Properties *)

(** ** Arrays *)

Section array_facts.
Context {A : Type} (P : A → Prop) `{!∀ x, Decision (P x)}.

Lemma list_find_split (l : list A) i x :
  list_find P l = Some (i, x) →
  ∃ l1 l2, l = l1 ++ x :: l2 ∧ length l1 = i ∧ P x ∧ Forall (λ y, ¬ P y) l1.
Proof.
  intros (Hx & HP & Hmin)%list_find_Some.
  exists (take i l), (drop (S i) l). split_and!.
  - by rewrite take_drop_middle.
  - apply length_take_le. apply lookup_lt_Some in Hx. lia.
  - done.
  - apply Forall_lookup. intros j y Hy.
    assert (j < i) by (apply lookup_lt_Some in Hy; rewrite length_take in Hy; lia).
    rewrite lookup_take_lt in Hy by done. eauto.
Qed.

Lemma find_None (l : list A) : find P l = None ↔ Forall (λ y, ¬ P y) l.
Proof.
  unfold find. rewrite fmap_None. apply list_find_None.
Qed.

Lemma findIndex_None (l : list A) : findIndex P l = (-1)%Z ↔ find P l = None.
Proof.
  unfold findIndex, find. destruct (list_find P l) as [[i x]|]; simpl.
  - split; [lia | done].
  - done.
Qed.

Lemma find_Some_split (l : list A) x :
  find P l = Some x →
  ∃ l1 l2, l = l1 ++ x :: l2 ∧ P x ∧ Forall (λ y, ¬ P y) l1 ∧
           findIndex P l = Z.of_nat (length l1).
Proof.
  unfold find, findIndex. destruct (list_find P l) as [[i y]|] eqn:E; [|done].
  simpl. intros [= ->]. apply list_find_split in E as (l1 & l2 & -> & <- & ? & ?).
  by exists l1, l2.
Qed.

Lemma find_app_first (l1 l2 : list A) x :
  P x → Forall (λ y, ¬ P y) l1 → find P (l1 ++ x :: l2) = Some x.
Proof.
  intros HP Hl1. unfold find.
  induction Hl1 as [|y l1 Hy _ IH]; simpl.
  - by rewrite decide_True.
  - rewrite decide_False by done. by destruct (list_find P (l1 ++ x :: l2)) as [[??]|].
Qed.

Lemma findIndex_app_first (l1 l2 : list A) x :
  P x → Forall (λ y, ¬ P y) l1 → findIndex P (l1 ++ x :: l2) = Z.of_nat (length l1).
Proof.
  intros HP Hl1. unfold findIndex.
  induction Hl1 as [|y l1 Hy _ IH]; simpl.
  - by rewrite decide_True.
  - rewrite decide_False by done.
    destruct (list_find P (l1 ++ x :: l2)) as [[??]|]; simpl in *; lia.
Qed.

End array_facts.

Lemma splice1_middle {A} (l1 l2 : list A) x :
  splice1 (Z.of_nat (length l1)) (l1 ++ x :: l2) = l1 ++ l2.
Proof.
  unfold splice1. rewrite Nat2Z.id.
  induction l1 as [|y l1 IH]; simpl; [done|]. by f_equal.
Qed.

Lemma assign_middle {A} (l1 l2 : list A) x y :
  assign (Z.of_nat (length l1)) y (l1 ++ x :: l2) = l1 ++ y :: l2.
Proof.
  unfold assign. rewrite Nat2Z.id.
  induction l1 as [|z l1 IH]; simpl; [done|]. by f_equal.
Qed.

(** ** The store, read and written whole *)

Lemma ensureDatabase_run w : JsonDatabase.ensureDatabase w = (Resolved (), ensured w).
Proof.
  unfold JsonDatabase.ensureDatabase, JsonDatabase.ensureDataDirectory, await, try_catch,
    ensured, fs.access_dataDir, fs.mkdir_dataDir, fs.access_dbPath, fs.writeFile_dbPath.
  destruct w as [[[t|]|] u n c]; reflexivity.
Qed.

Lemma read_run w : JsonDatabase.read w = (Resolved (document w), ensured w).
Proof.
  unfold JsonDatabase.read, await. rewrite ensureDatabase_run.
  unfold try_catch, await, fs.readFile_dbPath, document, ensured.
  destruct w as [[[[raw|data]|]|] u n c]; reflexivity.
Qed.

Lemma write_run data w : JsonDatabase.write data w = (Resolved (), holding data w).
Proof.
  unfold JsonDatabase.write, await. rewrite ensureDatabase_run.
  unfold try_catch, fs.writeFile_dbPath, ensured, holding.
  destruct w as [[[t|]|] u n c]; reflexivity.
Qed.

Lemma document_ensured w : document (ensured w) = document w.
Proof. destruct w as [[[[raw|data]|]|] u n c]; reflexivity. Qed.

Lemma document_holding data w : document (holding data w) = data.
Proof. reflexivity. Qed.

Lemma holding_ensured data w : holding data (ensured w) = holding data w.
Proof. destruct w as [[[t|]|] u n c]; reflexivity. Qed.

Lemma ensured_ensured w : ensured (ensured w) = ensured w.
Proof. destruct w as [[[t|]|] u n c]; reflexivity. Qed.

Create Rewrite HintDb store.
#[local] Hint Rewrite read_run write_run document_ensured document_holding
  holding_ensured ensured_ensured : store.

(** Runs one [await] of a store operation. *)
Ltac store_step :=
  unfold await at 1; autorewrite with store; cbv beta iota.

Lemma getAllFonts_run w :
  JsonDatabase.getAllFonts w = (Resolved (fonts (document w)), ensured w).
Proof. unfold JsonDatabase.getAllFonts. by store_step. Qed.

Lemma getFontById_run id w :
  JsonDatabase.getFontById id w =
    (Resolved (find (λ font, font_id font = id) (fonts (document w))), ensured w).
Proof. unfold JsonDatabase.getFontById. by store_step. Qed.

Lemma addFont_run font w :
  JsonDatabase.addFont font w =
    (Resolved (), holding (mkData (fonts (document w) ++ [font]) (fontGroups (document w))) w).
Proof. unfold JsonDatabase.addFont, push. by store_step. Qed.

Lemma getAllFontGroups_run w :
  JsonDatabase.getAllFontGroups w = (Resolved (fontGroups (document w)), ensured w).
Proof. unfold JsonDatabase.getAllFontGroups. by store_step. Qed.

Lemma getFontGroupById_run id w :
  JsonDatabase.getFontGroupById id w =
    (Resolved (find (λ group, group_id group = id) (fontGroups (document w))), ensured w).
Proof. unfold JsonDatabase.getFontGroupById. by store_step. Qed.

Lemma addFontGroup_run group w :
  JsonDatabase.addFontGroup group w =
    (Resolved (), holding (mkData (fonts (document w)) (fontGroups (document w) ++ [group])) w).
Proof. unfold JsonDatabase.addFontGroup, push. by store_step. Qed.

Lemma find_font_None id (l : list Font) :
  find (λ font, font_id font = id) l = None ↔ id ∉ font_id <$> l.
Proof.
  rewrite find_None, Forall_forall, list_elem_of_fmap. split.
  - intros Hl (x & -> & Hx). by apply (Hl x).
  - intros Hl x Hx <-. apply Hl. by exists x.
Qed.

Lemma find_group_None id (l : list FontGroup) :
  find (λ group, group_id group = id) l = None ↔ id ∉ group_id <$> l.
Proof.
  rewrite find_None, Forall_forall, list_elem_of_fmap. split.
  - intros Hl (x & -> & Hx). by apply (Hl x).
  - intros Hl x Hx <-. apply Hl. by exists x.
Qed.

Lemma deleteFont_absent id w :
  id ∉ font_ids (document w) →
  JsonDatabase.deleteFont id w = (Resolved false, ensured w).
Proof.
  intros Hid%find_font_None%findIndex_None.
  unfold JsonDatabase.deleteFont. store_step. by rewrite decide_True.
Qed.

Lemma deleteFont_present id w before font after :
  fonts (document w) = before ++ font :: after →
  font_id font = id →
  Forall (λ other, font_id other ≠ id) before →
  JsonDatabase.deleteFont id w =
    (Resolved true,
     holding (mkData (before ++ after) (JsonDatabase.removeFrom id <$> fontGroups (document w))) w).
Proof.
  intros Hfonts Hfont Hbefore.
  unfold JsonDatabase.deleteFont. store_step.
  rewrite Hfonts, (findIndex_app_first (λ other, font_id other = id)) by done.
  rewrite decide_False by lia. rewrite splice1_middle. by store_step.
Qed.

Lemma deleteFontGroup_absent id w :
  id ∉ group_ids (document w) →
  JsonDatabase.deleteFontGroup id w = (Resolved false, ensured w).
Proof.
  intros Hid%find_group_None%findIndex_None.
  unfold JsonDatabase.deleteFontGroup. store_step. by rewrite decide_True.
Qed.

Lemma deleteFontGroup_present id w before group after :
  fontGroups (document w) = before ++ group :: after →
  group_id group = id →
  Forall (λ other, group_id other ≠ id) before →
  JsonDatabase.deleteFontGroup id w =
    (Resolved true, holding (mkData (fonts (document w)) (before ++ after)) w).
Proof.
  intros Hgroups Hgroup Hbefore.
  unfold JsonDatabase.deleteFontGroup. store_step.
  rewrite Hgroups, (findIndex_app_first (λ other, group_id other = id)) by done.
  rewrite decide_False by lia. rewrite splice1_middle. by store_step.
Qed.

Lemma updateFontGroup_absent updated w :
  group_id updated ∉ group_ids (document w) →
  JsonDatabase.updateFontGroup updated w = (Resolved false, ensured w).
Proof.
  intros Hid%find_group_None%findIndex_None.
  unfold JsonDatabase.updateFontGroup. store_step. by rewrite decide_True.
Qed.

Lemma updateFontGroup_present updated w before group after :
  fontGroups (document w) = before ++ group :: after →
  group_id group = group_id updated →
  Forall (λ other, group_id other ≠ group_id updated) before →
  JsonDatabase.updateFontGroup updated w =
    (Resolved true, holding (mkData (fonts (document w)) (before ++ updated :: after)) w).
Proof.
  intros Hgroups Hgroup Hbefore.
  unfold JsonDatabase.updateFontGroup. store_step.
  rewrite Hgroups, (findIndex_app_first (λ other, group_id other = group_id updated)) by done.
  rewrite decide_False by lia. rewrite assign_middle. by store_step.
Qed.

(** The first font with a given identifier splits the list of fonts. *)
Lemma font_ids_split id (l : list Font) :
  id ∈ font_id <$> l →
  ∃ before font after,
    l = before ++ font :: after ∧ font_id font = id ∧
    Forall (λ other, font_id other ≠ id) before.
Proof.
  intros Hid. destruct (find (λ font, font_id font = id) l) as [font|] eqn:E.
  - apply find_Some_split in E as (before & after & -> & ? & ? & _). by exists before, font, after.
  - by apply find_font_None in E.
Qed.

Lemma group_ids_split id (l : list FontGroup) :
  id ∈ group_id <$> l →
  ∃ before group after,
    l = before ++ group :: after ∧ group_id group = id ∧
    Forall (λ other, group_id other ≠ id) before.
Proof.
  intros Hid. destruct (find (λ group, group_id group = id) l) as [group|] eqn:E.
  - apply find_Some_split in E as (before & after & -> & ? & ? & _). by exists before, group, after.
  - by apply find_group_None in E.
Qed.

Lemma untyped_read_run folder :
  Untyped.read folder =
    match database folder with
    | Some (Some (Json value)) => (Resolved value, folder)
    | Some (Some (NoJson _)) => (Resolved Untyped.emptyDocument, folder)
    | _ =>
        (Resolved Untyped.emptyDocument,
         mkFolder (Some (Some (Json Untyped.emptyDocument))) (elsewhere folder))
    end.
Proof. by destruct folder as [[[[raw|value]|]|] others]. Qed.

Lemma untyped_write_run data folder :
  Untyped.write data folder =
    (Resolved (), mkFolder (Some (Some (Json data))) (elsewhere folder)).
Proof. by destruct folder as [[[[raw|value]|]|] others]. Qed.

(** C7.  [read()] never fails, but what it returns is not always a full
    document.  On a missing file (with or without the directory [data/])
    the file is first initialised to [{fonts: [], fontGroups: []}], which is
    what is returned; on a file that cannot be parsed the empty document is
    returned and the file is left as it is.  A file that parses is returned
    as parsed, whatever the value: from a file that holds [{}], which
    [restore] writes when the backup file holds it, [read()] returns [{}],
    an object without [fonts] and [fontGroups]. *)
Theorem read_returns_what_parses :
  (∀ folder, ∃ value folder', Untyped.read folder = (Resolved value, folder')) ∧
  (∀ others,
     Untyped.read (mkFolder None others) =
       (Resolved Untyped.emptyDocument,
        mkFolder (Some (Some (Json Untyped.emptyDocument))) others)) ∧
  (∀ others,
     Untyped.read (mkFolder (Some None) others) =
       (Resolved Untyped.emptyDocument,
        mkFolder (Some (Some (Json Untyped.emptyDocument))) others)) ∧
  (∀ raw others,
     Untyped.read (mkFolder (Some (Some (NoJson raw))) others) =
       (Resolved Untyped.emptyDocument, mkFolder (Some (Some (NoJson raw))) others)) ∧
  full_document Untyped.emptyDocument = true ∧
  (∀ value others,
     Untyped.read (mkFolder (Some (Some (Json value))) others) =
       (Resolved value, mkFolder (Some (Some (Json value))) others)) ∧
  full_document (JObject []) = false ∧
  (∀ data others,
     others !! "backup.json" = Some (Json (JObject [])) →
     ∃ folder,
       Untyped.restore "backup.json" (mkFolder data others) = (Resolved (), folder) ∧
       Untyped.read folder = (Resolved (JObject []), folder)).
Proof.
  split_and!; try done.
  - intros folder. rewrite untyped_read_run. repeat case_match; eauto.
  - intros data others Hbackup. eexists. split.
    + unfold Untyped.restore, Untyped.await, Untyped.readFile. simpl.
      rewrite Hbackup. simpl. apply untyped_write_run.
    + done.
Qed.

(** C9.  [write(read())] is a no-op on the content of the document: a file
    that holds a document is written back unchanged, and in every world the
    document that [read()] reports afterwards is the one it reported before
    (for a missing or unparseable file that is the empty document, which is
    what the file then holds). *)
Theorem write_read_noop :
  (∀ data u n c,
     write_read (mkWorld (Some (Some (JsonText data))) u n c) =
       (Resolved (), mkWorld (Some (Some (JsonText data))) u n c)) ∧
  (∀ w, ∃ w',
     write_read w = (Resolved (), w') ∧
     fst (JsonDatabase.read w') = fst (JsonDatabase.read w) ∧
     dataDir w' = Some (Some (JsonText (document w))) ∧
     uploadsDir w' = uploadsDir w).
Proof.
  split.
  - intros. unfold write_read. by store_step.
  - intros w. exists (holding (document w) w). split_and!; [|by rewrite !read_run|done..].
    unfold write_read. by store_step.
Qed.

(** C3.  When the store holds a font with identifier [id],
    [JsonDatabase.deleteFont id] returns [true], removes that font (the first
    one with this identifier) from [fonts] and keeps every other font in
    place, so that no font carries [id] any more when identifiers are unique;
    every group stays, with the same identifier, name and dates, and its
    [fonts] are the former ones without the snapshots whose identifier is
    [id]; the uploaded files are not touched. *)
Theorem deleteFont_removes_exactly id w :
  id ∈ font_ids (document w) →
  ∃ before font after w',
    fonts (document w) = before ++ font :: after ∧
    font_id font = id ∧
    (id ∉ font_id <$> before) ∧
    JsonDatabase.deleteFont id w = (Resolved true, w') ∧
    fonts (document w') = before ++ after ∧
    (fonts_unique (document w) → id ∉ font_ids (document w')) ∧
    Forall2
      (λ group group',
         group_id group' = group_id group ∧
         group_name group' = group_name group ∧
         createdAt group' = createdAt group ∧
         updatedAt group' = updatedAt group ∧
         group_fonts group' = filter (λ font, font_id font ≠ id) (group_fonts group))
      (fontGroups (document w)) (fontGroups (document w')) ∧
    uploadsDir w' = uploadsDir w.
Proof.
  intros (before & font & after & Hfonts & Hfont & Hbefore)%font_ids_split.
  assert (id ∉ font_id <$> before) as Hnotin.
  { rewrite list_elem_of_fmap. intros (other & -> & Hother).
    rewrite Forall_forall in Hbefore. by apply (Hbefore other). }
  eexists before, font, after, _.
  split_and!; [done..|by eapply deleteFont_present| | | |]; try done.
  - unfold fonts_unique, font_ids. rewrite document_holding, Hfonts. simpl.
    rewrite !fmap_app, fmap_cons, Hfont.
    intros (_ & _ & [Hafter _]%NoDup_cons)%NoDup_app.
    rewrite elem_of_app. by intros [?|?].
  - rewrite document_holding. simpl. apply Forall2_fmap_r, Forall_Forall2_diag, Forall_true.
    by intros group.
Qed.

(** ** Uploads *)

Lemma totalLength_cons chunk chunks :
  FontService.totalLength (chunk :: chunks) = length chunk + FontService.totalLength chunks.
Proof.
  unfold FontService.totalLength. simpl.
  assert (∀ a, foldl (λ acc c, acc + length c) a chunks
               = a + foldl (λ acc (c : list byte), acc + length c) 0 chunks) as Hshift.
  { induction chunks as [|c chunks IH]; intros a; simpl; [lia|].
    rewrite (IH (a + length c)), (IH (length c)). lia. }
  apply Hshift.
Qed.

Lemma assemble_from (written : list byte) chunks :
  fst (foldl (λ '(result, offset) chunk,
                (list_inserts offset chunk result, offset + length chunk))
             (written ++ replicate (FontService.totalLength chunks) Byte.x00, length written)
             chunks)
  = written ++ concat chunks.
Proof.
  revert written. induction chunks as [|chunk chunks IH]; intros written; simpl.
  - by rewrite !app_nil_r.
  - rewrite totalLength_cons, replicate_add.
    rewrite <-(Nat.add_0_r (length written)) at 1.
    rewrite list_inserts_app_r, list_inserts_0_r by by rewrite length_replicate.
    rewrite <-length_app, !(assoc (++)). apply IH.
Qed.

(** The chunks of a stream are stored one after the other, nothing added. *)
Lemma assemble_concat chunks : FontService.assemble chunks = concat chunks.
Proof. apply (assemble_from []). Qed.

Lemma unlink_run filename w :
  try_catch (fs.unlink_upload filename) (resolve ()) w =
    (Resolved (), set_uploadsDir (delete filename <$> uploadsDir w) w).
Proof.
  unfold try_catch, fs.unlink_upload, resolve.
  destruct w as [d [files|] n c]; simpl; [|done].
  destruct (files !! filename) eqn:E; simpl; [done|].
  by rewrite delete_id.
Qed.

Lemma ensure_uploads_run w :
  try_catch fs.access_uploadsDir fs.mkdir_uploadsDir w =
    (Resolved (), set_uploadsDir (Some (default ∅ (uploadsDir w))) w).
Proof. destruct w as [d [files|] n c]; reflexivity. Qed.

(** ** The service, operation by operation *)

Lemma service_deleteFont_run id w :
  FontService.deleteFont id w =
    match find (λ font, font_id font = id) (fonts (document w)) with
    | None => (Resolved false, ensured w)
    | Some font =>
        JsonDatabase.deleteFont id
          (set_uploadsDir (delete (filename font) <$> uploadsDir w) (ensured w))
    end.
Proof.
  unfold FontService.deleteFont, await. rewrite getFontById_run.
  destruct (find _ _) as [font|]; [|done].
  rewrite unlink_run. by destruct w as [[[t|]|] u n c].
Qed.

Lemma createFontGroup_run env request w :
  FontService.createFontGroup env request w =
    let ids := create_fontIds request in
    let group :=
      mkFontGroup (uuid_of env (uuidsDrawn w)) (create_name request)
        (snapshots ids (document w))
        (time_of env (clockReads w)) (time_of env (S (clockReads w))) in
    if decide (length ids < 2) then (Resolved None, w)
    else if decide (length (snapshots ids (document w)) ≠ length ids)
    then (Resolved None, ensured w)
    else (Resolved (Some group),
          mkWorld
            (Some (Some (JsonText
               (mkData (fonts (document w)) (fontGroups (document w) ++ [group])))))
            (uploadsDir w) (S (uuidsDrawn w)) (S (S (clockReads w)))).
Proof.
  unfold FontService.createFontGroup, snapshots. cbv zeta.
  case_decide; [done|]. unfold await at 1. rewrite getAllFonts_run.
  case_decide; [done|].
  unfold await, FontService.uuidv4, FontService.newDate. rewrite addFontGroup_run.
  by destruct w as [[[[raw|data]|]|] u n c].
Qed.

Lemma updateFontGroup_run env request w :
  FontService.updateFontGroup env request w =
    let ids := update_fontIds request in
    match find (λ group, group_id group = update_id request) (fontGroups (document w)) with
    | None => (Resolved None, ensured w)
    | Some existing =>
        let updated :=
          mkFontGroup (group_id existing) (update_name request)
            (snapshots ids (document w)) (createdAt existing)
            (time_of env (clockReads w)) in
        if decide (length ids < 2) then (Resolved None, ensured w)
        else if decide (length (snapshots ids (document w)) ≠ length ids)
        then (Resolved None, ensured w)
        else (Resolved (Some updated),
              mkWorld
                (Some (Some (JsonText
                   (mkData (fonts (document w))
                      (assign
                         (findIndex (λ group, group_id group = update_id request)
                            (fontGroups (document w)))
                         updated (fontGroups (document w)))))))
                (uploadsDir w) (uuidsDrawn w) (S (clockReads w)))
    end.
Proof.
  unfold FontService.updateFontGroup, snapshots. cbv zeta.
  unfold await at 1. rewrite getFontGroupById_run.
  destruct (find _ (fontGroups (document w))) as [existing|] eqn:Hfind; [|done].
  destruct w as [[[[raw|data]|]|] u n c]; try done.
  simpl in Hfind. change (ensured ?w) with w. change (document ?w) with data.
  case_decide; [done|]. unfold await at 1. rewrite getAllFonts_run.
  change (ensured ?w) with w. change (document ?w) with data.
  case_decide; [done|].
  apply find_Some_split in Hfind as (before & after & Hgroups & Hid & Hbefore & Hindex).
  unfold await, FontService.newDate.
  erewrite updateFontGroup_present; [|exact Hgroups|by rewrite Hid..].
  unfold document, holding, set_dataDir in *. simpl in *. by rewrite Hindex, Hgroups, assign_middle.
Qed.

Lemma saveFont_run env file originalName w :
  FontService.saveFont env file originalName w =
    let id := uuid_of env (uuidsDrawn w) in
    let font :=
      mkFont id (replace_ttf originalName) (id +:+ ".ttf") originalName
        ("/uploads/" +:+ id +:+ ".ttf") (time_of env (clockReads w)) in
    match uploaded_content file with
    | None =>
        (Rejected "Invalid file type",
         mkWorld (dataDir w) (Some (default ∅ (uploadsDir w))) (S (uuidsDrawn w)) (clockReads w))
    | Some content =>
        (Resolved font,
         mkWorld
           (Some (Some (JsonText
              (mkData (fonts (document w) ++ [font]) (fontGroups (document w))))))
           (Some (<[id +:+ ".ttf" := content]> (default ∅ (uploadsDir w))))
           (S (uuidsDrawn w)) (S (clockReads w)))
    end.
Proof.
  unfold FontService.saveFont, uploaded_content. cbv zeta.
  unfold await at 1. unfold FontService.uuidv4.
  unfold await at 1. rewrite ensure_uploads_run.
  unfold await at 1.
  destruct file as [[content|] [chunks|]]; simpl; try rewrite assemble_concat.
  4: done.
  all: unfold await, FontService.newDate; simpl; rewrite addFont_run.
  all: by destruct w as [[[[raw|data]|]|] [files|] n c].
Qed.

Lemma same_store_ensured w : same_store w (ensured w).
Proof. destruct w as [[[t|]|] u n c]; [by left|right; eauto..]. Qed.

Lemma same_store_document w w' : same_store w w' → document w' = document w.
Proof. by intros [->|[[H|H] ->]]; unfold document; simpl; try rewrite H. Qed.

Lemma service_deleteFont_absent id w :
  id ∉ font_ids (document w) →
  FontService.deleteFont id w = (Resolved false, ensured w).
Proof.
  intros Hid%find_font_None. by rewrite service_deleteFont_run, Hid.
Qed.

Lemma service_deleteFont_present id w before font after :
  fonts (document w) = before ++ font :: after →
  font_id font = id →
  Forall (λ other, font_id other ≠ id) before →
  FontService.deleteFont id w =
    (Resolved true,
     mkWorld
       (Some (Some (JsonText
          (mkData (before ++ after) (JsonDatabase.removeFrom id <$> fontGroups (document w))))))
       (delete (filename font) <$> uploadsDir w) (uuidsDrawn w) (clockReads w)).
Proof.
  intros Hfonts Hfont Hbefore. rewrite service_deleteFont_run, Hfonts.
  rewrite (find_app_first (λ other, font_id other = id)) by done.
  destruct w as [[[[raw|data]|]|] u n c]; simpl in Hfonts; try by destruct before.
  by erewrite deleteFont_present.
Qed.

(** C8.  Deleting what the store does not hold reports not-found and changes
    nothing: for an identifier that no stored font carries, [deleteFont] of
    the store and of the service return [false]; for one that no stored group
    carries, so does [deleteFontGroup].  The world after the call is the one
    before it (a missing database file apart, which the read initialises to
    the empty document), it holds the same document and the same uploads,
    and repeating the call gives the same answer and the same world. *)
Theorem delete_missing_not_found id w :
  (id ∉ font_ids (document w) →
   ∃ w',
     JsonDatabase.deleteFont id w = (Resolved false, w') ∧
     FontService.deleteFont id w = (Resolved false, w') ∧
     same_store w w' ∧ document w' = document w ∧ uploadsDir w' = uploadsDir w ∧
     JsonDatabase.deleteFont id w' = (Resolved false, w') ∧
     FontService.deleteFont id w' = (Resolved false, w')) ∧
  (id ∉ group_ids (document w) →
   ∃ w',
     JsonDatabase.deleteFontGroup id w = (Resolved false, w') ∧
     FontService.deleteFontGroup id w = (Resolved false, w') ∧
     same_store w w' ∧ document w' = document w ∧ uploadsDir w' = uploadsDir w ∧
     JsonDatabase.deleteFontGroup id w' = (Resolved false, w') ∧
     FontService.deleteFontGroup id w' = (Resolved false, w')).
Proof.
  split; intros Hid; exists (ensured w).
  - rewrite !deleteFont_absent, !service_deleteFont_absent, ?ensured_ensured
      by by rewrite ?document_ensured.
    split_and!; try done.
    + apply same_store_ensured.
    + apply document_ensured.
    + by destruct w as [[[t|]|] u n c].
  - unfold FontService.deleteFontGroup.
    rewrite !deleteFontGroup_absent, ?ensured_ensured by by rewrite ?document_ensured.
    split_and!; try done.
    + apply same_store_ensured.
    + apply document_ensured.
    + by destruct w as [[[t|]|] u n c].
Qed.

(** ** Selecting the fonts of a group *)

Lemma omap_length_le {A B} (f : A → option B) l : length (omap f l) ≤ length l.
Proof. induction l as [|x l IH]; csimpl; [done|]. destruct (f x); simpl; lia. Qed.

Lemma omap_length_lt {A B} (f : A → option B) l x :
  x ∈ l → f x = None → length (omap f l) < length l.
Proof.
  induction 1 as [x l|x y l _ IH]; intros Hx; csimpl.
  - rewrite Hx. pose proof (omap_length_le f l). lia.
  - specialize (IH Hx). destruct (f y); simpl; lia.
Qed.

Lemma omap_length_full {A B} (f : A → option B) l :
  length (omap f l) = length l → Forall2 (λ x y, f x = Some y) l (omap f l).
Proof.
  induction l as [|x l IH]; csimpl; [constructor|].
  destruct (f x) eqn:E; simpl.
  - intros [= Hl]. constructor; auto.
  - pose proof (omap_length_le f l). lia.
Qed.

Lemma snapshots_unresolved ids data missing :
  missing ∈ ids → missing ∉ font_ids data →
  length (snapshots ids data) ≠ length ids.
Proof.
  intros Hin Hmissing%find_font_None.
  unfold snapshots.
  pose proof (omap_length_lt (λ id, find (λ font, font_id font = id) (fonts data))
                ids missing Hin Hmissing).
  lia.
Qed.

Lemma snapshots_resolved ids data :
  length (snapshots ids data) = length ids →
  Forall2 (λ id font, find (λ other, font_id other = id) (fonts data) = Some font)
    ids (snapshots ids data).
Proof. apply omap_length_full. Qed.

(** C2.  A request that names an identifier no stored font carries is
    rejected with [null], by [createFontGroup] and by [updateFontGroup]
    alike, and nothing is written: the world after the call is the one
    before it (a missing database file apart, which a read initialises to the
    empty document), with the same document and the same uploads. *)
Theorem unresolved_id_rejected env w ids missing :
  missing ∈ ids →
  missing ∉ font_ids (document w) →
  (∀ name, ∃ w',
     FontService.createFontGroup env (mkCreateRequest name ids) w = (Resolved None, w') ∧
     same_store w w' ∧ document w' = document w ∧ uploadsDir w' = uploadsDir w) ∧
  (∀ id name, ∃ w',
     FontService.updateFontGroup env (mkUpdateRequest id name ids) w = (Resolved None, w') ∧
     same_store w w' ∧ document w' = document w ∧ uploadsDir w' = uploadsDir w).
Proof.
  intros Hin Hmissing. pose proof (snapshots_unresolved ids _ _ Hin Hmissing) as Hne.
  assert (uploadsDir (ensured w) = uploadsDir w) as Hup by by destruct w as [[[t|]|] u n c].
  split.
  - intros name. rewrite createFontGroup_run. cbv zeta. simpl.
    case_decide.
    + exists w. split_and!; try done. by left.
    + rewrite decide_True by done. exists (ensured w).
      split_and!; auto using same_store_ensured, document_ensured.
  - intros id name. rewrite updateFontGroup_run. cbv zeta. simpl.
    exists (ensured w).
    split_and!; auto using same_store_ensured, document_ensured.
    destruct (find _ _); [|done]. case_decide; [done|]. by rewrite decide_True.
Qed.

(** ** Every outcome of an operation *)

Lemma createFontGroup_cases env request w :
  (∃ w', FontService.createFontGroup env request w = (Resolved None, w') ∧
         same_store w w' ∧
         (length (create_fontIds request) < 2 ∨
          length (snapshots (create_fontIds request) (document w))
            ≠ length (create_fontIds request))) ∨
  (2 ≤ length (create_fontIds request) ∧
   length (snapshots (create_fontIds request) (document w)) = length (create_fontIds request) ∧
   let group :=
     mkFontGroup (uuid_of env (uuidsDrawn w)) (create_name request)
       (snapshots (create_fontIds request) (document w))
       (time_of env (clockReads w)) (time_of env (S (clockReads w))) in
   FontService.createFontGroup env request w =
     (Resolved (Some group),
      mkWorld
        (Some (Some (JsonText
           (mkData (fonts (document w)) (fontGroups (document w) ++ [group])))))
        (uploadsDir w) (S (uuidsDrawn w)) (S (S (clockReads w))))).
Proof.
  rewrite createFontGroup_run. cbv zeta. repeat case_decide.
  - left. exists w. split_and!; [done|by left|by left].
  - left. exists (ensured w). split_and!; [done|apply same_store_ensured|by right].
  - right. split_and!; [lia..|done].
Qed.

Lemma updateFontGroup_cases env request w :
  (∃ w', FontService.updateFontGroup env request w = (Resolved None, w') ∧
         same_store w w' ∧
         (update_id request ∉ group_ids (document w) ∨
          length (update_fontIds request) < 2 ∨
          length (snapshots (update_fontIds request) (document w))
            ≠ length (update_fontIds request))) ∨
  (∃ before existing after,
     fontGroups (document w) = before ++ existing :: after ∧
     group_id existing = update_id request ∧
     Forall (λ other, group_id other ≠ update_id request) before ∧
     2 ≤ length (update_fontIds request) ∧
     length (snapshots (update_fontIds request) (document w))
       = length (update_fontIds request) ∧
     let updated :=
       mkFontGroup (group_id existing) (update_name request)
         (snapshots (update_fontIds request) (document w)) (createdAt existing)
         (time_of env (clockReads w)) in
     FontService.updateFontGroup env request w =
       (Resolved (Some updated),
        mkWorld
          (Some (Some (JsonText
             (mkData (fonts (document w)) (before ++ updated :: after)))))
          (uploadsDir w) (uuidsDrawn w) (S (clockReads w)))).
Proof.
  rewrite updateFontGroup_run. cbv zeta.
  destruct (find _ (fontGroups (document w))) as [existing|] eqn:Hfind.
  - apply find_Some_split in Hfind as (before & after & Hgroups & Hid & Hbefore & Hindex).
    repeat case_decide.
    + left. exists (ensured w). split_and!; [done|apply same_store_ensured|auto].
    + left. exists (ensured w). split_and!; [done|apply same_store_ensured|auto].
    + right. exists before, existing, after.
      split_and!; [done..|lia|lia|]. by rewrite Hindex, Hgroups, assign_middle.
  - left. exists (ensured w). apply find_group_None in Hfind.
    split_and!; [done|apply same_store_ensured|auto].
Qed.

Lemma service_deleteFont_cases id w :
  ((id ∉ font_ids (document w)) ∧
   FontService.deleteFont id w = (Resolved false, ensured w)) ∨
  (∃ before font after,
     fonts (document w) = before ++ font :: after ∧
     font_id font = id ∧
     Forall (λ other, font_id other ≠ id) before ∧
     FontService.deleteFont id w =
       (Resolved true,
        mkWorld
          (Some (Some (JsonText
             (mkData (before ++ after)
                (JsonDatabase.removeFrom id <$> fontGroups (document w))))))
          (delete (filename font) <$> uploadsDir w) (uuidsDrawn w) (clockReads w))).
Proof.
  destruct (decide (id ∈ font_ids (document w))) as [Hid|Hid].
  - right. apply font_ids_split in Hid as (before & font & after & ? & ? & ?).
    exists before, font, after. split_and!; [done..|]. by apply service_deleteFont_present.
  - left. split; [done|]. by apply service_deleteFont_absent.
Qed.

Lemma deleteFontGroup_cases id w :
  ((id ∉ group_ids (document w)) ∧
   FontService.deleteFontGroup id w = (Resolved false, ensured w)) ∨
  (∃ before group after,
     fontGroups (document w) = before ++ group :: after ∧
     group_id group = id ∧
     Forall (λ other, group_id other ≠ id) before ∧
     FontService.deleteFontGroup id w =
       (Resolved true, holding (mkData (fonts (document w)) (before ++ after)) w)).
Proof.
  unfold FontService.deleteFontGroup.
  destruct (decide (id ∈ group_ids (document w))) as [Hid|Hid].
  - right. apply group_ids_split in Hid as (before & group & after & ? & ? & ?).
    exists before, group, after. split_and!; [done..|]. by eapply deleteFontGroup_present.
  - left. split; [done|]. by apply deleteFontGroup_absent.
Qed.

(** ** What a run preserves *)

Lemma run_snoc env calls call w :
  run env (calls ++ [call]) w = exec env call (run env calls w).
Proof. unfold run. by rewrite foldl_app. Qed.

Lemma removeFrom_pruned id group : pruned group (JsonDatabase.removeFrom id group).
Proof. split_and!; try done. apply sublist_filter. Qed.

Lemma pruned_refl group : pruned group group.
Proof. by split_and!. Qed.

(** A call never takes a draw or a reading back; a font of the document after
    the call was there before or carries an identifier drawn by the call; a
    group of the document after the call was last updated when a group
    before the call was, or at a reading taken by the call. *)
Lemma exec_effect env call w :
  let w' := exec env call w in
  uuidsDrawn w ≤ uuidsDrawn w' ∧
  clockReads w ≤ clockReads w' ∧
  (∀ font, font ∈ fonts (document w') →
     font ∈ fonts (document w) ∨
     ∃ k, uuidsDrawn w ≤ k < uuidsDrawn w' ∧ font_id font = uuid_of env k) ∧
  (∀ group, group ∈ fontGroups (document w') →
     (∃ former, former ∈ fontGroups (document w) ∧ updatedAt group = updatedAt former) ∨
     ∃ k, clockReads w ≤ k < clockReads w' ∧ updatedAt group = time_of env k).
Proof.
  assert (∀ w0 : World,
    uuidsDrawn w0 ≤ uuidsDrawn (ensured w0) ∧ clockReads w0 ≤ clockReads (ensured w0) ∧
    (∀ font, font ∈ fonts (document (ensured w0)) →
       font ∈ fonts (document w0) ∨
       ∃ k, uuidsDrawn w0 ≤ k < uuidsDrawn (ensured w0) ∧ font_id font = uuid_of env k) ∧
    (∀ group, group ∈ fontGroups (document (ensured w0)) →
       (∃ former, former ∈ fontGroups (document w0) ∧ updatedAt group = updatedAt former) ∨
       ∃ k, clockReads w0 ≤ k < clockReads (ensured w0) ∧ updatedAt group = time_of env k))
    as Hensured.
  { intros w0. rewrite document_ensured.
    split_and!; [by destruct w0 as [[[t|]|] u n c]..|by left|left; eauto]. }
  destruct call as [file originalName| |id|request| |request|id|raw]; simpl.
  - rewrite saveFont_run. cbv zeta. destruct (uploaded_content file) as [content|]; simpl.
    + split_and!; [lia..| |left; eauto].
      intros font [Hfont|Hfont%list_elem_of_singleton]%elem_of_app; [by left|].
      subst font. right. exists (uuidsDrawn w). simpl. split; [lia|done].
    + split_and!; [lia..|by left|left; eauto].
  - unfold FontService.getAllFonts. rewrite getAllFonts_run. apply Hensured.
  - destruct (service_deleteFont_cases id w)
      as [[_ ->]|(before & font & after & Hfonts & _ & _ & ->)]; [apply Hensured|].
    simpl. split_and!; [lia..| |].
    + intros other. rewrite Hfonts, !elem_of_app, elem_of_cons. intros [?|?]; left; auto.
    + intros group (former & -> & Hformer)%list_elem_of_fmap. left. by exists former.
  - destruct (createFontGroup_cases env request w) as [(w' & -> & Hsame & _)|(_ & _ & ->)].
    + simpl. destruct Hsame as [->|[_ ->]].
      * split_and!; [lia..|by left|left; eauto].
      * split_and!; [simpl; lia..| |]; unfold document; simpl; intros ? []%elem_of_nil.
    + simpl. split_and!; [lia..|by left|].
      intros group [Hgroup|Hgroup%list_elem_of_singleton]%elem_of_app; [left; eauto|].
      subst group. right. exists (S (clockReads w)). simpl. split; [lia|done].
  - unfold FontService.getAllFontGroups. rewrite getAllFontGroups_run. apply Hensured.
  - destruct (updateFontGroup_cases env request w)
      as [(w' & -> & Hsame & _)|(before & existing & after & Hgroups & _ & _ & _ & _ & ->)].
    + simpl. destruct Hsame as [->|[_ ->]].
      * split_and!; [lia..|by left|left; eauto].
      * split_and!; [simpl; lia..| |]; unfold document; simpl; intros ? []%elem_of_nil.
    + simpl. split_and!; [lia..|by left|].
      intros group. rewrite Hgroups, !elem_of_app, !elem_of_cons.
      intros [?|[->|?]]; [left; exists group; rewrite !elem_of_app, !elem_of_cons; auto| |
                          left; exists group; rewrite !elem_of_app, !elem_of_cons; auto].
      right. exists (clockReads w). simpl. split; [lia|done].
  - destruct (deleteFontGroup_cases id w)
      as [[_ ->]|(before & group & after & Hgroups & _ & _ & ->)]; [apply Hensured|].
    simpl. split_and!; [lia..|by left|].
    intros other. rewrite Hgroups, !elem_of_app. intros Hother. left. exists other.
    rewrite !elem_of_app, !elem_of_cons. destruct Hother; auto.
  - destruct w as [[[t|]|] u n c]; simpl.
    + split_and!; [lia..| |]; unfold document; simpl; intros ? []%elem_of_nil.
    + split_and!; [lia..|by left|left; eauto].
    + split_and!; [lia..|by left|left; eauto].
Qed.

Lemma reachable_ids_drawn env w : reachable env w → ids_drawn env w.
Proof.
  intros [calls ->]. induction calls as [|call calls IH] using rev_ind.
  - intros font []%elem_of_nil.
  - rewrite run_snoc. intros font Hfont.
    destruct (exec_effect env call (run env calls fresh)) as (Hdrawn & _ & Hfonts & _).
    destruct (Hfonts font Hfont) as [Hformer|(k & ? & ?)].
    + destruct (IH font Hformer) as (k & ? & ?). exists k. split; [lia|done].
    + exists k. split; [lia|done].
Qed.

Lemma reachable_times_read env w : reachable env w → times_read env w.
Proof.
  intros [calls ->]. induction calls as [|call calls IH] using rev_ind.
  - intros group []%elem_of_nil.
  - rewrite run_snoc. intros group Hgroup.
    destruct (exec_effect env call (run env calls fresh)) as (_ & Hread & _ & Hgroups).
    destruct (Hgroups group Hgroup) as [(former & Hformer & ->)|(k & ? & ?)].
    + destruct (IH former Hformer) as (k & ? & ?). exists k. split; [lia|done].
    + exists k. split; [lia|done].
Qed.

(** The fonts after a call are fonts from before it, in their order, or
    those and one more, which carries the identifier the call has drawn. *)
Lemma exec_fonts env call w :
  let w' := exec env call w in
  fonts (document w') `sublist_of` fonts (document w) ∨
  ∃ font,
    font_id font = uuid_of env (uuidsDrawn w) ∧
    fonts (document w') = fonts (document w) ++ [font].
Proof.
  assert (∀ w', same_store w w' →
    fonts (document w') `sublist_of` fonts (document w)) as Hsame.
  { by intros w' ->%same_store_document. }
  destruct call as [file name| |id|request| |request|id|raw]; simpl.
  - rewrite saveFont_run. cbv zeta. destruct (uploaded_content file) as [content|]; simpl.
    + right. eexists. split; [|reflexivity]. done.
    + by left.
  - left. unfold FontService.getAllFonts. rewrite getAllFonts_run.
    apply Hsame, same_store_ensured.
  - left. destruct (service_deleteFont_cases id w)
      as [[_ ->]|(before & font & after & Hfonts & _ & _ & ->)].
    + apply Hsame, same_store_ensured.
    + simpl. rewrite Hfonts. unfold document. simpl.
      apply sublist_app; [done|]. by apply sublist_cons.
  - left. destruct (createFontGroup_cases env request w) as [(w' & -> & Hw' & _)|(_ & _ & ->)].
    + by apply Hsame.
    + done.
  - left. unfold FontService.getAllFontGroups. rewrite getAllFontGroups_run.
    apply Hsame, same_store_ensured.
  - left. destruct (updateFontGroup_cases env request w)
      as [(w' & -> & Hw' & _)|(before & existing & after & _ & _ & _ & _ & _ & ->)].
    + by apply Hsame.
    + done.
  - left. destruct (deleteFontGroup_cases id w)
      as [[_ ->]|(before & group & after & _ & _ & _ & ->)].
    + apply Hsame, same_store_ensured.
    + done.
  - left. destruct w as [[[t|]|] u n c]; [apply sublist_nil_l|done..].
Qed.

(** With a generator that never repeats itself, the fonts of a store the
    service has brought about carry pairwise distinct identifiers. *)
Lemma reachable_fonts_unique env w :
  uuid_unique env → reachable env w → fonts_unique (document w).
Proof.
  intros Hunique [calls ->]. induction calls as [|call calls IH] using rev_ind.
  - constructor.
  - rewrite run_snoc. set (w := run env calls fresh) in *.
    destruct (exec_fonts env call w) as [Hsub|(font & Hid & Hfonts)].
    + eapply sublist_NoDup; [exact IH|]. by apply fmap_sublist.
    + unfold fonts_unique, font_ids. rewrite Hfonts, fmap_app. simpl.
      apply NoDup_app. split_and!; [exact IH| |apply NoDup_singleton].
      intros id (other & -> & Hother)%list_elem_of_fmap Hsame%list_elem_of_singleton.
      destruct (reachable_ids_drawn env w) with (font := other) as (k & Hk & Heq);
        [by exists calls|done|].
      rewrite Hsame, Hid in Heq. apply Hunique in Heq. lia.
Qed.

(** ** The name of a font *)

Lemma toLower_dot c : Ascii.eqb (toLower c) "."%char = Ascii.eqb c "."%char.
Proof. destruct c as [[] [] [] [] [] [] [] []]; reflexivity. Qed.

Lemma toLower_t c :
  Ascii.eqb (toLower c) "t"%char = Ascii.eqb c "t"%char || Ascii.eqb c "T"%char.
Proof. destruct c as [[] [] [] [] [] [] [] []]; reflexivity. Qed.

Lemma toLower_f c :
  Ascii.eqb (toLower c) "f"%char = Ascii.eqb c "f"%char || Ascii.eqb c "F"%char.
Proof. destruct c as [[] [] [] [] [] [] [] []]; reflexivity. Qed.

Lemma matches_ttf_end_lower s :
  String.eqb (toLowerCase s) ".ttf" = matches_ttf_end s.
Proof.
  destruct s as [|c0 [|c1 [|c2 [|c3 [|c4 s]]]]];
    cbn [toLowerCase String.eqb matches_ttf_end];
    rewrite ?toLower_dot, ?toLower_t, ?toLower_f; try reflexivity;
    repeat (destruct (Ascii.eqb _ _); cbn [orb andb]; try reflexivity).
Qed.

(** A name the upload handler lets through ends in an extension that reads
    [.ttf] in lower case, and the name of the font is what comes before it. *)
Lemma replace_ttf_strips originalName :
  is_ttf_name originalName = true →
  ∃ ext, toLowerCase ext = ".ttf" ∧ originalName = replace_ttf originalName +:+ ext.
Proof.
  unfold is_ttf_name. induction originalName as [|c rest IH].
  - done.
  - cbn [toLowerCase endsWith replace_ttf].
    change (String (toLower c) (toLowerCase rest)) with (toLowerCase (String c rest)).
    rewrite matches_ttf_end_lower.
    destruct (matches_ttf_end (String c rest)) eqn:E.
    + intros _. exists (String c rest). split; [|done].
      rewrite <-matches_ttf_end_lower in E. by apply String.eqb_eq in E.
    + intros (ext & ? & Hrest)%IH. exists ext. split; [done|].
      change (String c rest = String c (replace_ttf rest +:+ ext)). by f_equal.
Qed.

(** ** Uploading a font *)

Lemma sample_env_unique : uuid_unique sample_env.
Proof. intros m n Heq. simpl in Heq. by apply (inj pretty) in Heq. Qed.

Lemma sample_env_monotone : clock_monotone sample_env.
Proof. intros m n Hle. simpl. lia. Qed.

(** C4.  For a valid upload (a name the handler accepts, a file whose content
    can be read) in a world the service has brought about, with a generator
    that never repeats itself, [saveFont] returns a font whose identifier no
    stored font carries, whose file name is [<id>.ttf], whose path is
    [/uploads/<id>.ttf] and whose name is the original name without its
    [.ttf] extension; the file of that name in [uploads/] holds exactly the
    uploaded bytes, the other uploads are as before, and the font is appended
    to the fonts of the store. *)
Theorem saveFont_stores_upload env w file name content :
  uuid_unique env →
  reachable env w →
  uploaded_content file = Some content →
  is_ttf_name name = true →
  ∃ font files,
    let w' := snd (FontService.saveFont env file name w) in
    fst (FontService.saveFont env file name w) = Resolved font ∧
    (font_id font ∉ font_ids (document w)) ∧
    filename font = font_id font +:+ ".ttf" ∧
    path font = "/uploads/" +:+ (font_id font +:+ ".ttf") ∧
    originalName font = name ∧
    (∃ ext, toLowerCase ext = ".ttf" ∧ name = font_name font +:+ ext) ∧
    uploadsDir w' = Some files ∧
    files !! filename font = Some content ∧
    (∀ other, other ≠ filename font → files !! other = default ∅ (uploadsDir w) !! other) ∧
    fonts (document w') = fonts (document w) ++ [font] ∧
    fontGroups (document w') = fontGroups (document w).
Proof.
  intros Hunique Hdrawn%reachable_ids_drawn Hcontent Hname.
  rewrite saveFont_run, Hcontent. cbv zeta. simpl.
  eexists _, _. split_and!; try done.
  - intros (font & Hid & Hfont)%list_elem_of_fmap.
    destruct (Hdrawn font Hfont) as (k & Hk & Heq).
    rewrite <-Hid in Heq. apply Hunique in Heq. lia.
  - by apply replace_ttf_strips.
  - by rewrite lookup_insert_eq.
  - intros other Hother. by rewrite lookup_insert_ne.
Qed.

Lemma saveFont_stores_upload_witness :
  uuid_unique sample_env ∧
  reachable sample_env two_fonts ∧
  uploaded_content georgia_file
    = Some [Byte.x00; Byte.x01; Byte.x4f; Byte.x54; Byte.x54; Byte.x4f] ∧
  is_ttf_name "Georgia Bold.TTF" = true ∧
  ∃ font files,
    let w' := snd (FontService.saveFont sample_env georgia_file "Georgia Bold.TTF" two_fonts) in
    fst (FontService.saveFont sample_env georgia_file "Georgia Bold.TTF" two_fonts)
      = Resolved font ∧
    (font_id font ∉ font_ids (document two_fonts)) ∧
    filename font = font_id font +:+ ".ttf" ∧
    path font = "/uploads/" +:+ (font_id font +:+ ".ttf") ∧
    originalName font = "Georgia Bold.TTF" ∧
    (∃ ext, toLowerCase ext = ".ttf" ∧ "Georgia Bold.TTF" = font_name font +:+ ext) ∧
    uploadsDir w' = Some files ∧
    files !! filename font
      = Some [Byte.x00; Byte.x01; Byte.x4f; Byte.x54; Byte.x54; Byte.x4f] ∧
    (∀ other, other ≠ filename font →
       files !! other = default ∅ (uploadsDir two_fonts) !! other) ∧
    fonts (document w') = fonts (document two_fonts) ++ [font] ∧
    fontGroups (document w') = fontGroups (document two_fonts).
Proof.
  assert (reachable sample_env two_fonts) as Hreach by (eexists; reflexivity).
  split_and!; [exact sample_env_unique|exact Hreach|reflexivity|reflexivity|].
  exact (saveFont_stores_upload sample_env two_fonts georgia_file "Georgia Bold.TTF" _
           sample_env_unique Hreach eq_refl eq_refl).
Defined.

(** ** Creating and updating a group *)

(** Fewer than two identifiers: rejected, before anything is read. *)
Lemma createFontGroup_few env request w :
  length (create_fontIds request) < 2 →
  FontService.createFontGroup env request w = (Resolved None, w).
Proof. intros. rewrite createFontGroup_run. cbv zeta. by rewrite decide_True. Qed.

Lemma updateFontGroup_few env request w :
  length (update_fontIds request) < 2 →
  FontService.updateFontGroup env request w = (Resolved None, ensured w).
Proof.
  intros. rewrite updateFontGroup_run. cbv zeta.
  destruct (find _ _); [|done]. by rewrite decide_True.
Qed.

(** A group that is created holds as many snapshots as the request has
    identifiers, two at least. *)
Lemma createFontGroup_two_snapshots env request w group :
  fst (FontService.createFontGroup env request w) = Resolved (Some group) →
  length (group_fonts group) = length (create_fontIds request) ∧
  2 ≤ length (group_fonts group).
Proof.
  destruct (createFontGroup_cases env request w) as [(w' & -> & _)|(? & Hlen & ->)]; [done|].
  intros [= <-]. simpl. lia.
Qed.

(** C1.  The service counts the identifiers of a request, not the distinct
    ones: with the fonts [0] and [1] stored, the request for a group of [0]
    and [0] is accepted and a group of two snapshots of the one font is
    stored; the update of group [2] to [1] and [1] is accepted alike. *)
Theorem repeated_id_accepted :
  remove_dups (create_fontIds arial_twice) = ["0"] ∧
  fst (FontService.createFontGroup sample_env arial_twice two_fonts)
    = Resolved (Some (mkFontGroup "2" "Pair" [arial; arial] 2%Z 3%Z)) ∧
  fontGroups (document (snd (FontService.createFontGroup sample_env arial_twice two_fonts)))
    = [mkFontGroup "2" "Pair" [arial; arial] 2%Z 3%Z] ∧
  remove_dups (update_fontIds georgia_twice) = ["1"] ∧
  fst (FontService.updateFontGroup sample_env georgia_twice with_group)
    = Resolved (Some (mkFontGroup "2" "Body Text" [georgia; georgia] 2%Z 4%Z)) ∧
  fontGroups (document (snd (FontService.updateFontGroup sample_env georgia_twice with_group)))
    = [mkFontGroup "2" "Body Text" [georgia; georgia] 2%Z 4%Z].
Proof. split_and!; by vm_compute. Qed.

(** C5.  With a clock that never goes back and in a world the service has
    brought about, a successful [updateFontGroup] returns a group with the
    identifier and [createdAt] of the group stored before, and an [updatedAt]
    that is not earlier than the former one; that group is what the store
    then holds under the identifier. *)
Theorem updateFontGroup_keeps_identity env w request updated :
  clock_monotone env →
  reachable env w →
  fst (FontService.updateFontGroup env request w) = Resolved (Some updated) →
  ∃ existing,
    let w' := snd (FontService.updateFontGroup env request w) in
    fst (JsonDatabase.getFontGroupById (update_id request) w) = Resolved (Some existing) ∧
    group_id updated = update_id request ∧
    group_id updated = group_id existing ∧
    createdAt updated = createdAt existing ∧
    (updatedAt existing ≤ updatedAt updated)%Z ∧
    fst (JsonDatabase.getFontGroupById (update_id request) w') = Resolved (Some updated).
Proof.
  intros Hclock Hread%reachable_times_read.
  destruct (updateFontGroup_cases env request w)
    as [(w' & -> & _)|(before & existing & after & Hgroups & Hid & Hbefore & _ & _ & ->)];
    [done|].
  intros [= <-]. exists existing. cbv zeta. rewrite !getFontGroupById_run. simpl.
  split_and!; try done.
  - rewrite Hgroups. by rewrite (find_app_first (λ group, group_id group = update_id request)).
  - destruct (Hread existing) as (k & Hk & ->).
    { rewrite Hgroups, elem_of_app, elem_of_cons. auto. }
    apply Hclock. lia.
  - unfold document. simpl.
    by rewrite (find_app_first (λ group, group_id group = update_id request)).
Qed.

Lemma updateFontGroup_keeps_identity_witness :
  clock_monotone sample_env ∧
  reachable sample_env with_group ∧
  fst (FontService.updateFontGroup sample_env headings with_group)
    = Resolved (Some (mkFontGroup "2" "Headings" [georgia; arial] 2%Z 4%Z)) ∧
  ∃ existing,
    let w' := snd (FontService.updateFontGroup sample_env headings with_group) in
    fst (JsonDatabase.getFontGroupById "2" with_group) = Resolved (Some existing) ∧
    "2" = update_id headings ∧
    "2" = group_id existing ∧
    2%Z = createdAt existing ∧
    (updatedAt existing ≤ 4)%Z ∧
    fst (JsonDatabase.getFontGroupById "2" w')
      = Resolved (Some (mkFontGroup "2" "Headings" [georgia; arial] 2%Z 4%Z)).
Proof.
  assert (reachable sample_env with_group) as Hreach.
  { exists [SaveFont arial_file "Arial.ttf"; SaveFont georgia_file "Georgia.TTF";
            CreateFontGroup body_text]. reflexivity. }
  split_and!; [exact sample_env_monotone|exact Hreach|reflexivity|].
  exact (updateFontGroup_keeps_identity sample_env with_group headings _
           sample_env_monotone Hreach eq_refl).
Defined.

(** A successful [createFontGroup] takes two
    readings of the clock, one after the other: [createdAt] is the first and
    [updatedAt] the second, so they are equal when the clock has not advanced
    in between, and [createdAt] is not later than [updatedAt] on a clock that
    never goes back.  The [fonts] of the group are, in the order of the
    request, the stored fonts that [getFontById] finds for its identifiers;
    the group is appended to the groups of the store. *)
Theorem createFontGroup_result env w request group :
  fst (FontService.createFontGroup env request w) = Resolved (Some group) →
  let w' := snd (FontService.createFontGroup env request w) in
  createdAt group = time_of env (clockReads w) ∧
  updatedAt group = time_of env (S (clockReads w)) ∧
  (time_of env (clockReads w) = time_of env (S (clockReads w)) →
   createdAt group = updatedAt group) ∧
  (clock_monotone env → (createdAt group ≤ updatedAt group)%Z) ∧
  group_name group = create_name request ∧
  Forall2 (λ id font, fst (JsonDatabase.getFontById id w) = Resolved (Some font))
    (create_fontIds request) (group_fonts group) ∧
  fontGroups (document w') = fontGroups (document w) ++ [group] ∧
  fonts (document w') = fonts (document w).
Proof.
  destruct (createFontGroup_cases env request w) as [(w' & -> & _)|(_ & Hlen & ->)]; [done|].
  intros [= <-]. simpl. split_and!; try done.
  - intros Hclock. apply Hclock. lia.
  - apply snapshots_resolved in Hlen.
    eapply Forall2_impl; [exact Hlen|]. intros id font Hfind.
    rewrite getFontById_run. simpl. by rewrite Hfind.
Qed.

Lemma createFontGroup_result_witness :
  fst (FontService.createFontGroup sample_env body_text two_fonts)
    = Resolved (Some body_text_group) ∧
  let w' := snd (FontService.createFontGroup sample_env body_text two_fonts) in
  createdAt body_text_group = time_of sample_env (clockReads two_fonts) ∧
  updatedAt body_text_group = time_of sample_env (S (clockReads two_fonts)) ∧
  (time_of sample_env (clockReads two_fonts) = time_of sample_env (S (clockReads two_fonts)) →
   createdAt body_text_group = updatedAt body_text_group) ∧
  (clock_monotone sample_env → (createdAt body_text_group ≤ updatedAt body_text_group)%Z) ∧
  group_name body_text_group = create_name body_text ∧
  Forall2 (λ id font, fst (JsonDatabase.getFontById id two_fonts) = Resolved (Some font))
    (create_fontIds body_text) (group_fonts body_text_group) ∧
  fontGroups (document w') = fontGroups (document two_fonts) ++ [body_text_group] ∧
  fonts (document w') = fonts (document two_fonts).
Proof.
  split; [reflexivity|].
  exact (createFontGroup_result sample_env two_fonts body_text body_text_group eq_refl).
Defined.

(** C6.  [createFontGroup] reads the clock twice, first for [createdAt] and
    then for [updatedAt], so the two dates of a new group differ whenever the
    clock advances between the two readings, and the list of the groups,
    which marks a group as updated when its two dates differ, then marks a
    group that was never updated.  With the fonts [0] and [1] stored and a
    clock that advances by a millisecond per reading, the group of both is
    created with [createdAt = 2] and [updatedAt = 3] and is shown as
    updated.  Its [fonts] are the snapshots of the requested fonts in the
    order of the request, as they are for every successful call. *)
Theorem created_group_shows_updated :
  fst (FontService.createFontGroup sample_env body_text two_fonts)
    = Resolved (Some body_text_group) ∧
  createdAt body_text_group = 2%Z ∧
  updatedAt body_text_group = 3%Z ∧
  group_fonts body_text_group = [arial; georgia] ∧
  showsUpdated body_text_group = true ∧
  (∀ env request w group,
     fst (FontService.createFontGroup env request w) = Resolved (Some group) →
     createdAt group = time_of env (clockReads w) ∧
     updatedAt group = time_of env (S (clockReads w)) ∧
     (showsUpdated group = true ↔
      time_of env (S (clockReads w)) ≠ time_of env (clockReads w)) ∧
     group_fonts group = snapshots (create_fontIds request) (document w)).
Proof.
  split_and!; try done.
  intros env request w group.
  destruct (createFontGroup_cases env request w) as [(w' & -> & _)|(_ & _ & ->)]; [done|].
  intros [= <-]. unfold showsUpdated. simpl. split_and!; try done.
  apply bool_decide_eq_true.
Qed.

(** ** Groups after the deletion of a font *)

(** Whatever it returns, [deleteFont] keeps every group, pruned at most. *)
Lemma service_deleteFont_keeps_groups id w :
  Forall2 pruned (fontGroups (document w))
    (fontGroups (document (snd (FontService.deleteFont id w)))).
Proof.
  destruct (service_deleteFont_cases id w)
    as [[_ ->]|(before & font & after & _ & _ & _ & ->)]; simpl.
  - rewrite document_ensured. apply Forall_Forall2_diag, Forall_true, pruned_refl.
  - unfold document at 2. simpl.
    apply Forall2_fmap_r, Forall_Forall2_diag, Forall_true, removeFrom_pruned.
Qed.

Lemma store_deleteFont_keeps_groups id w :
  Forall2 pruned (fontGroups (document w))
    (fontGroups (document (snd (JsonDatabase.deleteFont id w)))).
Proof.
  destruct (decide (id ∈ font_ids (document w))) as [Hid|Hid].
  - apply font_ids_split in Hid as (before & font & after & Hfonts & Hfont & Hbefore).
    erewrite deleteFont_present by done. simpl.
    apply Forall2_fmap_r, Forall_Forall2_diag, Forall_true, removeFrom_pruned.
  - rewrite deleteFont_absent by done. simpl. rewrite document_ensured.
    apply Forall_Forall2_diag, Forall_true, pruned_refl.
Qed.

(** A call that is not addressed to a group leaves it in the store, pruned at
    most: no call removes it or completes it on its own. *)
Lemma exec_spares_group env call w group :
  group ∈ fontGroups (document w) →
  spares call (group_id group) →
  ∃ group', group' ∈ fontGroups (document (exec env call w)) ∧ pruned group group'.
Proof.
  intros Hgroup Hspares.
  assert (∀ w', same_store w w' →
    ∃ group', group' ∈ fontGroups (document w') ∧ pruned group group') as Hsame.
  { intros w' ->%same_store_document. exists group. split; [done|apply pruned_refl]. }
  destruct call as [file name| |id|request| |request|id|raw]; simpl in *.
  - exists group. split; [|apply pruned_refl].
    rewrite saveFont_run. cbv zeta. by destruct (uploaded_content file).
  - unfold FontService.getAllFonts. rewrite getAllFonts_run. apply Hsame, same_store_ensured.
  - pose proof (service_deleteFont_keeps_groups id w) as Hkept.
    apply list_elem_of_lookup in Hgroup as [i Hi].
    destruct (Forall2_lookup_l _ _ _ _ _ Hkept Hi) as (group' & Hi' & Hpruned).
    exists group'. split; [|done]. by eapply list_elem_of_lookup_2.
  - destruct (createFontGroup_cases env request w) as [(w' & -> & Hw' & _)|(_ & _ & ->)].
    + by apply Hsame.
    + exists group. split; [|apply pruned_refl]. unfold document. simpl.
      apply elem_of_app. by left.
  - unfold FontService.getAllFontGroups. rewrite getAllFontGroups_run.
    apply Hsame, same_store_ensured.
  - destruct (updateFontGroup_cases env request w)
      as [(w' & -> & Hw' & _)|(before & existing & after & Hgroups & Hid & _ & _ & _ & ->)].
    + by apply Hsame.
    + exists group. split; [|apply pruned_refl]. unfold document at 1. simpl.
      rewrite Hgroups in Hgroup. revert Hgroup. rewrite !elem_of_app, !elem_of_cons.
      intros [?|[->|?]]; [by left| |by right; right]. by destruct Hspares.
  - destruct (deleteFontGroup_cases id w)
      as [[_ ->]|(before & removed & after & Hgroups & Hid & _ & ->)].
    + apply Hsame, same_store_ensured.
    + exists group. split; [|apply pruned_refl]. simpl.
      rewrite Hgroups in Hgroup. revert Hgroup. rewrite !elem_of_app, !elem_of_cons.
      intros [?|[->|?]]; [by left| |by right]. by destruct Hspares.
  - done.
Qed.

(** C10.  "Every stored group holds at least two snapshots" is not an
    invariant.  It holds of the store with the group "Body Text" of the
    fonts [0] and [1]; after [deleteFont] of [0] the group is still stored,
    with one snapshot, and after [deleteFont] of [1] with none.  In general
    [deleteFont], of the service and of the store, keeps every group in
    place with its identifier, name and dates, pruned at most; and every
    call that is not the deletion or an update of a given group leaves that
    group in the store, pruned at most. *)
Theorem deleteFont_leaves_undersized_groups :
  (groups_full (document with_group) ∧
   fontGroups (document (exec sample_env (DeleteFont "0") with_group))
     = [mkFontGroup "2" "Body Text" [georgia] 2%Z 3%Z] ∧
   ¬ groups_full (document (exec sample_env (DeleteFont "0") with_group)) ∧
   fontGroups (document (run sample_env [DeleteFont "0"; DeleteFont "1"] with_group))
     = [mkFontGroup "2" "Body Text" [] 2%Z 3%Z]) ∧
  (∀ id w,
     Forall2 pruned (fontGroups (document w))
       (fontGroups (document (snd (FontService.deleteFont id w)))) ∧
     Forall2 pruned (fontGroups (document w))
       (fontGroups (document (snd (JsonDatabase.deleteFont id w))))) ∧
  (∀ env call w group,
     group ∈ fontGroups (document w) →
     spares call (group_id group) →
     ∃ group', group' ∈ fontGroups (document (exec env call w)) ∧ pruned group group').
Proof.
  split_and!.
  - assert (fontGroups (document with_group) = [body_text_group]) as E by by vm_compute.
    unfold groups_full. rewrite E. repeat constructor.
  - by vm_compute.
  - assert (fontGroups (document (exec sample_env (DeleteFont "0") with_group))
            = [mkFontGroup "2" "Body Text" [georgia] 2%Z 3%Z]) as E by by vm_compute.
    unfold groups_full. rewrite E. intros [Hlen _]%Forall_cons. simpl in Hlen. lia.
  - by vm_compute.
  - intros id w. split;
      [apply service_deleteFont_keeps_groups|apply store_deleteFont_keeps_groups].
  - apply exec_spares_group.
Qed.

(** ** The theorems at work *)

Lemma deleteFont_removes_exactly_witness :
  "0" ∈ font_ids (document with_group) ∧
  ∃ before font after w',
    fonts (document with_group) = before ++ font :: after ∧
    font_id font = "0" ∧
    ("0" ∉ font_id <$> before) ∧
    JsonDatabase.deleteFont "0" with_group = (Resolved true, w') ∧
    fonts (document w') = before ++ after ∧
    (fonts_unique (document with_group) → "0" ∉ font_ids (document w')) ∧
    Forall2
      (λ group group',
         group_id group' = group_id group ∧
         group_name group' = group_name group ∧
         createdAt group' = createdAt group ∧
         updatedAt group' = updatedAt group ∧
         group_fonts group' = filter (λ font, font_id font ≠ "0") (group_fonts group))
      (fontGroups (document with_group)) (fontGroups (document w')) ∧
    uploadsDir w' = uploadsDir with_group.
Proof.
  assert ("0" ∈ font_ids (document with_group)) as Hin.
  { apply (bool_decide_unpack _). by vm_compute. }
  split; [exact Hin|].
  exact (deleteFont_removes_exactly "0" with_group Hin).
Defined.

Lemma delete_missing_not_found_witness :
  ("7" ∉ font_ids (document with_group)) ∧
  ("7" ∉ group_ids (document with_group)) ∧
  (∃ w',
     JsonDatabase.deleteFont "7" with_group = (Resolved false, w') ∧
     FontService.deleteFont "7" with_group = (Resolved false, w') ∧
     same_store with_group w' ∧ document w' = document with_group ∧
     uploadsDir w' = uploadsDir with_group ∧
     JsonDatabase.deleteFont "7" w' = (Resolved false, w') ∧
     FontService.deleteFont "7" w' = (Resolved false, w')) ∧
  (∃ w',
     JsonDatabase.deleteFontGroup "7" with_group = (Resolved false, w') ∧
     FontService.deleteFontGroup "7" with_group = (Resolved false, w') ∧
     same_store with_group w' ∧ document w' = document with_group ∧
     uploadsDir w' = uploadsDir with_group ∧
     JsonDatabase.deleteFontGroup "7" w' = (Resolved false, w') ∧
     FontService.deleteFontGroup "7" w' = (Resolved false, w')).
Proof.
  assert ("7" ∉ font_ids (document with_group)) as Hfont.
  { apply (bool_decide_unpack _). by vm_compute. }
  assert ("7" ∉ group_ids (document with_group)) as Hgroup.
  { apply (bool_decide_unpack _). by vm_compute. }
  split_and!; [exact Hfont|exact Hgroup|..].
  - exact (proj1 (delete_missing_not_found "7" with_group) Hfont).
  - exact (proj2 (delete_missing_not_found "7" with_group) Hgroup).
Defined.

Lemma unresolved_id_rejected_witness :
  "9" ∈ ["0"; "9"] ∧
  ("9" ∉ font_ids (document two_fonts)) ∧
  (∀ name, ∃ w',
     FontService.createFontGroup sample_env (mkCreateRequest name ["0"; "9"]) two_fonts
       = (Resolved None, w') ∧
     same_store two_fonts w' ∧ document w' = document two_fonts ∧
     uploadsDir w' = uploadsDir two_fonts) ∧
  (∀ id name, ∃ w',
     FontService.updateFontGroup sample_env (mkUpdateRequest id name ["0"; "9"]) two_fonts
       = (Resolved None, w') ∧
     same_store two_fonts w' ∧ document w' = document two_fonts ∧
     uploadsDir w' = uploadsDir two_fonts).
Proof.
  assert ("9" ∈ ["0"; "9"]) as Hin by (apply (bool_decide_unpack _); by vm_compute).
  assert ("9" ∉ font_ids (document two_fonts)) as Hmissing.
  { apply (bool_decide_unpack _). by vm_compute. }
  split_and!; [exact Hin|exact Hmissing|..].
  - exact (proj1 (unresolved_id_rejected sample_env two_fonts ["0"; "9"] "9" Hin Hmissing)).
  - exact (proj2 (unresolved_id_rejected sample_env two_fonts ["0"; "9"] "9" Hin Hmissing)).
Defined.

(** * Further properties of the store and the service *)

(** ** Every call is a step *)

Lemma files_ensured w : files (ensured w) = files w.
Proof. by destruct w as [[[t|]|] u n c]. Qed.

Lemma same_store_step env w w' : same_store w w' → Step env w w'.
Proof.
  intros Hsame. apply step_idle; [by apply same_store_document|..];
    destruct Hsame as [->|[_ ->]]; done.
Qed.

Lemma exec_step env call w : Step env w (exec env call w).
Proof.
  destruct call as [file name| |id|request| |request|id|raw]; simpl.
  - rewrite saveFont_run. cbv zeta. destruct (uploaded_content file) as [content|]; simpl.
    + eapply step_font_saved; cycle 3;
        [reflexivity|reflexivity|reflexivity|simpl; lia|reflexivity..].
    + apply step_idle; simpl; try done. lia.
  - unfold FontService.getAllFonts. rewrite getAllFonts_run.
    apply same_store_step, same_store_ensured.
  - destruct (service_deleteFont_cases id w)
      as [[_ ->]|(before & font & after & Hfonts & Hid & Hbefore & ->)].
    + apply same_store_step, same_store_ensured.
    + eapply step_font_deleted;
        [exact Hfonts|exact Hid|exact Hbefore|reflexivity| |reflexivity|reflexivity].
      unfold files. simpl. destruct (uploadsDir w); simpl; [done|].
      by rewrite delete_empty.
  - destruct (createFontGroup_cases env request w) as [(w' & -> & Hw' & _)|(_ & _ & ->)].
    + by apply same_store_step.
    + eapply (step_group_created _ _ _ _ (create_fontIds request)); cycle 2;
        [reflexivity|reflexivity|reflexivity|simpl; lia|reflexivity|reflexivity].
  - unfold FontService.getAllFontGroups. rewrite getAllFontGroups_run.
    apply same_store_step, same_store_ensured.
  - destruct (updateFontGroup_cases env request w)
      as [(w' & -> & Hw' & _)|(before & existing & after & Hgroups & _ & _ & _ & _ & ->)].
    + by apply same_store_step.
    + eapply (step_group_updated _ _ _ _ _ _ _ (update_fontIds request));
        [exact Hgroups| | |reflexivity|reflexivity|reflexivity|simpl; lia];
        reflexivity.
  - destruct (deleteFontGroup_cases id w)
      as [[_ ->]|(before & group & after & Hgroups & _ & _ & ->)].
    + apply same_store_step, same_store_ensured.
    + eapply step_group_deleted;
        [exact Hgroups|simpl; by rewrite document_holding|by destruct w|by destruct w..].
  - destruct w as [[[t|]|] u n c]; simpl.
    + by apply step_lost.
    + by apply step_idle.
    + by apply step_idle.
Qed.

Lemma run_steps env calls w (P : World → Prop) :
  (∀ w1 w2, Step env w1 w2 → P w1 → P w2) → P w → P (run env calls w).
Proof.
  intros Hstep Hw. induction calls as [|call calls IH] using rev_ind; [done|].
  rewrite run_snoc. eapply Hstep; [apply exec_step|done].
Qed.

(** ** Snapshots are stored fonts *)

Lemma snapshots_are_fonts ids data font : font ∈ snapshots ids data → font ∈ fonts data.
Proof.
  unfold snapshots. intros (id & _ & Hfind)%list_elem_of_omap.
  apply find_Some_split in Hfind as (before & after & -> & _).
  apply elem_of_app. right. left.
Qed.

Lemma step_snapshots_stored env w w' :
  Step env w w' → snapshots_stored (document w) → snapshots_stored (document w').
Proof.
  intros Hstep Hstored.
  destruct Hstep as
    [Hdoc _ _ _|Hdoc _ _ _|saved content _ _ _ Hdoc _ _ _
    |id before removed after Hfonts Hid _ Hdoc _ _ _
    |created ids _ Hsnap Hdoc _ _ _
    |before existing after updated ids Hgroups _ Hsnap Hdoc _ _ _
    |before removed after Hgroups Hdoc _ _ _];
    rewrite Hdoc; clear Hdoc; intros group font; simpl.
  - apply Hstored.
  - by intros ?%elem_of_nil.
  - intros Hgroup Hfont. apply elem_of_app. left. by eapply Hstored.
  - intros (former & -> & Hformer)%list_elem_of_fmap. simpl.
    intros [Hne Hfont]%list_elem_of_filter.
    pose proof (Hstored former font Hformer Hfont) as Hin.
    rewrite Hfonts in Hin. revert Hin. rewrite !elem_of_app, elem_of_cons.
    intros [?|[->|?]]; [by left|done|by right].
  - intros [Hgroup|Hgroup%list_elem_of_singleton]%elem_of_app Hfont.
    + by eapply Hstored.
    + subst group. rewrite Hsnap in Hfont. by eapply snapshots_are_fonts.
  - rewrite !elem_of_app, elem_of_cons. intros [Hgroup|[->|Hgroup]] Hfont.
    + eapply Hstored; [|done]. rewrite Hgroups, elem_of_app. by left.
    + rewrite Hsnap in Hfont. by eapply snapshots_are_fonts.
    + eapply Hstored; [|done]. rewrite Hgroups, elem_of_app, elem_of_cons. auto.
  - rewrite !elem_of_app. intros Hgroup Hfont.
    eapply Hstored; [|done]. rewrite Hgroups, elem_of_app, elem_of_cons.
    destruct Hgroup; auto.
Qed.

Lemma run_snapshots_stored env calls :
  snapshots_stored (document (run env calls fresh)).
Proof.
  apply (run_steps env calls fresh (λ w, snapshots_stored (document w))).
  - apply step_snapshots_stored.
  - by intros group font ?%elem_of_nil.
Qed.

(** X1.  Whatever the calls and whatever the generator and the clock, every
    snapshot that a stored group holds is one of the stored fonts: creating
    and updating a group copy stored fonts, and deleting a font removes its
    snapshots from every group. *)
Theorem reachable_snapshots_stored env w :
  reachable env w → snapshots_stored (document w).
Proof. intros [calls ->]. apply run_snapshots_stored. Qed.

Lemma reachable_snapshots_stored_witness :
  reachable sample_env with_group ∧ snapshots_stored (document with_group).
Proof.
  assert (reachable sample_env with_group) as Hreach.
  { exists [SaveFont arial_file "Arial.ttf"; SaveFont georgia_file "Georgia.TTF";
            CreateFontGroup body_text]. reflexivity. }
  split; [exact Hreach|]. exact (reachable_snapshots_stored sample_env with_group Hreach).
Defined.

(** ** Identifiers, file names and binaries *)

Lemma append_length s t : String.length (s +:+ t) = String.length s + String.length t.
Proof.
  induction s as [|c s IH]; [done|].
  change (String c s +:+ t) with (String c (s +:+ t)).
  change (S (String.length (s +:+ t)) = S (String.length s + String.length t)).
  by rewrite IH.
Qed.

(** Two names with the same extension are the same name. *)
Lemma append_inj_l s1 s2 t : s1 +:+ t = s2 +:+ t → s1 = s2.
Proof.
  revert s2. induction s1 as [|c1 s1 IH]; intros [|c2 s2] Heq.
  - done.
  - apply (f_equal String.length) in Heq.
    rewrite (append_length (String c2 s2)) in Heq.
    change (String.length t = S (String.length s2) + String.length t) in Heq. lia.
  - apply (f_equal String.length) in Heq.
    rewrite (append_length (String c1 s1)) in Heq.
    change (S (String.length s1) + String.length t = String.length t) in Heq. lia.
  - change (String c1 (s1 +:+ t) = String c2 (s2 +:+ t)) in Heq.
    injection Heq as -> Heq. f_equal. by apply IH.
Qed.

Lemma fresh_consistent env : Consistent env fresh.
Proof.
  split; simpl.
  - by intros font ?%elem_of_nil.
  - by intros group ?%elem_of_nil.
  - intros name. unfold files. simpl. rewrite lookup_empty. by intros [? ?].
  - constructor.
  - by intros font ?%elem_of_nil.
  - by intros font ?%elem_of_nil.
Qed.

Lemma drawn_fresh env w :
  uuid_unique env → Consistent env w →
  uuid_of env (uuidsDrawn w) ∉ font_ids (document w) ++ group_ids (document w).
Proof.
  intros Hunique [Hfd Hgd _ _ _ _]. unfold font_ids, group_ids.
  rewrite elem_of_app, !list_elem_of_fmap.
  intros [(font & Heq & Hfont)|(group & Heq & Hgroup)].
  - destruct (Hfd font Hfont) as (k & Hk & Hid).
    rewrite Hid in Heq. apply Hunique in Heq. lia.
  - destruct (Hgd group Hgroup) as (k & Hk & Hid).
    rewrite Hid in Heq. apply Hunique in Heq. lia.
Qed.

Lemma step_consistent env w w' :
  uuid_unique env → Step env w w' → Consistent env w → Consistent env w'.
Proof.
  intros Hunique Hstep Hw. pose proof (drawn_fresh env w Hunique Hw) as Hfresh.
  destruct Hw as [Hfd Hgd Hnd Hdist Hnamed Hbin].
  destruct Hstep as
    [Hdoc Hfiles Hu Hc|Hdoc Hfiles Hu Hc|saved content Hid Hname Hpath Hdoc Hfiles Hu Hc
    |id before removed after Hfonts Hid Hbefore Hdoc Hfiles Hu Hc
    |created ids Hid Hsnap Hdoc Hfiles Hu Hc
    |before existing after updated ids Hgroups Hid Hsnap Hdoc Hfiles Hu Hc
    |before removed after Hgroups Hdoc Hfiles Hu Hc];
    split; unfold ids_drawn, font_ids, group_ids; rewrite ?Hdoc, ?Hfiles, ?Hu; simpl.
  (* nothing written *)
  - intros font (k & ? & ?)%Hfd. exists k. split; [lia|done].
  - intros group (k & ? & ?)%Hgd. exists k. split; [lia|done].
  - intros name (k & ? & ?)%Hnd. exists k. split; [lia|done].
  - done.
  - done.
  - done.
  (* the file can no longer be parsed *)
  - by intros font ?%elem_of_nil.
  - by intros group ?%elem_of_nil.
  - done.
  - constructor.
  - by intros font ?%elem_of_nil.
  - by intros font ?%elem_of_nil.
  (* a font is saved *)
  - intros font [(k & ? & ?)%Hfd|Heq%list_elem_of_singleton]%elem_of_app.
    + exists k. split; [lia|done].
    + subst font. exists (uuidsDrawn w). split; [lia|done].
  - intros group (k & ? & ?)%Hgd. exists k. split; [lia|done].
  - intros name [<-|(k & ? & ?)%Hnd]%lookup_insert_is_Some'.
    + exists (uuidsDrawn w). split; [lia|]. by rewrite Hname, Hid.
    + exists k. split; [lia|done].
  - rewrite fmap_app, <-(assoc_L (++)). simpl. rewrite <-Permutation_middle.
    apply NoDup_cons. by rewrite Hid.
  - intros font [?|Heq%list_elem_of_singleton]%elem_of_app; [by apply Hnamed|by subst].
  - intros font [?%Hbin|Heq%list_elem_of_singleton]%elem_of_app.
    + apply lookup_insert_is_Some'. by right.
    + subst font. apply lookup_insert_is_Some'. by left.
  (* a font is deleted *)
  - intros font Hfont. apply Hfd. rewrite Hfonts. revert Hfont.
    rewrite !elem_of_app, elem_of_cons. intros [?|?]; auto.
  - intros group (former & -> & Hformer)%list_elem_of_fmap. simpl. by apply Hgd.
  - intros name [_ ?]%lookup_delete_is_Some. by apply Hnd.
  - eapply sublist_NoDup; [exact Hdist|]. unfold font_ids, group_ids. rewrite Hfonts.
    apply sublist_app.
    + apply fmap_sublist, sublist_app; [done|]. by apply sublist_cons.
    + rewrite <-list_fmap_compose. by apply reflexive_eq, list_fmap_ext.
  - intros font Hfont. apply Hnamed. rewrite Hfonts. revert Hfont.
    rewrite !elem_of_app, elem_of_cons. intros [?|?]; auto.
  - intros font Hfont.
    assert (font ∈ fonts (document w)) as Hin.
    { rewrite Hfonts. revert Hfont. rewrite !elem_of_app, elem_of_cons. intros [?|?]; auto. }
    apply lookup_delete_is_Some. split; [|by apply Hbin].
    assert (removed ∈ fonts (document w)) as Hremoved
      by (rewrite Hfonts, elem_of_app, elem_of_cons; auto).
    rewrite (proj1 (Hnamed font Hin)), (proj1 (Hnamed removed Hremoved)).
    intros Heq%append_inj_l.
    apply NoDup_app in Hdist as (Hdist & _ & _). unfold font_ids in Hdist.
    rewrite Hfonts, fmap_app, fmap_cons in Hdist.
    apply NoDup_app in Hdist as (_ & Hba & [Ha _]%NoDup_cons).
    revert Hfont. rewrite elem_of_app. intros [Hfont|Hfont].
    + apply (Hba (font_id font)); [by apply list_elem_of_fmap_2|]. rewrite <-Heq. left.
    + apply Ha. rewrite Heq. by apply list_elem_of_fmap_2.
  (* a group is created *)
  - intros font (k & ? & ?)%Hfd. exists k. split; [lia|done].
  - intros group [(k & ? & ?)%Hgd|Heq%list_elem_of_singleton]%elem_of_app.
    + exists k. split; [lia|done].
    + subst group. exists (uuidsDrawn w). split; [lia|done].
  - intros name (k & ? & ?)%Hnd. exists k. split; [lia|done].
  - rewrite fmap_app, (assoc_L (++)). simpl. rewrite <-Permutation_cons_append.
    apply NoDup_cons. by rewrite Hid.
  - done.
  - done.
  (* a group is updated *)
  - done.
  - intros group Hgroup.
    assert (∃ former, former ∈ fontGroups (document w) ∧ group_id group = group_id former)
      as (former & Hformer & ->).
    { revert Hgroup. rewrite Hgroups, !elem_of_app, !elem_of_cons.
      intros [?|[->|?]]; [exists group|exists existing|exists group];
        rewrite !elem_of_app, !elem_of_cons; auto. }
    by apply Hgd.
  - done.
  - unfold group_ids in Hdist. rewrite Hgroups in Hdist.
    by rewrite !fmap_app, !fmap_cons, Hid in *.
  - done.
  - done.
  (* a group is deleted *)
  - done.
  - intros group Hgroup. apply Hgd. rewrite Hgroups. revert Hgroup.
    rewrite !elem_of_app, elem_of_cons. intros [?|?]; auto.
  - done.
  - eapply sublist_NoDup; [exact Hdist|]. unfold font_ids, group_ids. rewrite Hgroups.
    apply sublist_app; [done|].
    apply fmap_sublist, sublist_app; [done|]. by apply sublist_cons.
  - done.
  - done.
Qed.

Lemma reachable_consistent env w : uuid_unique env → reachable env w → Consistent env w.
Proof.
  intros Hunique [calls ->]. apply (run_steps env calls fresh (Consistent env)).
  - intros w1 w2. by apply step_consistent.
  - apply fresh_consistent.
Qed.

(** X2.  With a generator that never repeats itself, no identifier is used
    twice in a store the service has brought about: the stored fonts carry
    pairwise distinct identifiers, so do the stored groups, and no font
    shares its identifier with a group. *)
Theorem reachable_ids_distinct env w :
  uuid_unique env →
  reachable env w →
  NoDup (font_ids (document w)) ∧
  NoDup (group_ids (document w)) ∧
  (∀ id, id ∈ font_ids (document w) → id ∉ group_ids (document w)).
Proof.
  intros Hunique Hreach.
  destruct (reachable_consistent env w Hunique Hreach) as [_ _ _ Hdist _ _].
  by apply NoDup_app in Hdist as (? & ? & ?).
Qed.

Lemma with_group_reachable : reachable sample_env with_group.
Proof.
  exists [SaveFont arial_file "Arial.ttf"; SaveFont georgia_file "Georgia.TTF";
          CreateFontGroup body_text]. reflexivity.
Qed.

Lemma two_fonts_reachable : reachable sample_env two_fonts.
Proof. eexists. reflexivity. Qed.

Lemma reachable_ids_distinct_witness :
  uuid_unique sample_env ∧
  reachable sample_env with_group ∧
  NoDup (font_ids (document with_group)) ∧
  NoDup (group_ids (document with_group)) ∧
  (∀ id, id ∈ font_ids (document with_group) → id ∉ group_ids (document with_group)).
Proof.
  split_and!; [exact sample_env_unique|exact with_group_reachable|..];
    apply (reachable_ids_distinct sample_env with_group
             sample_env_unique with_group_reachable).
Defined.

(** X3.  With a generator that never repeats itself, every font of a store
    the service has brought about has its binary: its file name is
    [<id>.ttf], its path is [/uploads/<id>.ttf], and [uploads/] holds a file
    of that name. *)
Theorem reachable_binaries_present env w font :
  uuid_unique env →
  reachable env w →
  font ∈ fonts (document w) →
  filename font = font_id font +:+ ".ttf" ∧
  path font = "/uploads/" +:+ (font_id font +:+ ".ttf") ∧
  ∃ files content, uploadsDir w = Some files ∧ files !! filename font = Some content.
Proof.
  intros Hunique Hreach Hfont.
  destruct (reachable_consistent env w Hunique Hreach) as [_ _ _ _ Hnamed Hbin].
  destruct (Hnamed font Hfont) as [Hname Hpath]. split_and!; [done|by rewrite Hpath, Hname|].
  destruct (Hbin font Hfont) as [content Hcontent]. unfold files in Hcontent.
  destruct (uploadsDir w) as [stored|]; simpl in Hcontent; [by exists stored, content|].
  by rewrite lookup_empty in Hcontent.
Qed.

Lemma reachable_binaries_present_witness :
  uuid_unique sample_env ∧
  reachable sample_env with_group ∧
  georgia ∈ fonts (document with_group) ∧
  filename georgia = font_id georgia +:+ ".ttf" ∧
  path georgia = "/uploads/" +:+ (font_id georgia +:+ ".ttf") ∧
  ∃ files content,
    uploadsDir with_group = Some files ∧ files !! filename georgia = Some content.
Proof.
  assert (georgia ∈ fonts (document with_group)) as Hin.
  { apply (bool_decide_unpack _). by vm_compute. }
  split_and!; [exact sample_env_unique|exact with_group_reachable|exact Hin|..];
    apply (reachable_binaries_present sample_env with_group georgia
             sample_env_unique with_group_reachable Hin).
Defined.

(** ** Undoing *)

Lemma filter_all {A} (P : A → Prop) `{!∀ x, Decision (P x)} (l : list A) :
  Forall P l → filter P l = l.
Proof.
  induction 1 as [|x l Hx _ IH]; [done|]. by rewrite filter_cons_True, IH.
Qed.

Lemma removeFrom_untouched id group :
  Forall (λ font, font_id font ≠ id) (group_fonts group) →
  JsonDatabase.removeFrom id group = group.
Proof.
  intros Hfonts. unfold JsonDatabase.removeFrom, with_fonts.
  rewrite filter_all by done. by destruct group.
Qed.

Lemma fmap_fixed {A} (f : A → A) (l : list A) :
  (∀ x, x ∈ l → f x = x) → f <$> l = l.
Proof.
  induction l as [|x l IH]; intros Hf; csimpl; [done|].
  rewrite Hf by left. f_equal. apply IH. intros y Hy. apply Hf. by right.
Qed.

Lemma document_eta data : mkData (fonts data) (fontGroups data) = data.
Proof. by destruct data. Qed.

(** No snapshot carries the identifier that is drawn next. *)
Lemma removeFrom_fresh env w :
  uuid_unique env → reachable env w →
  JsonDatabase.removeFrom (uuid_of env (uuidsDrawn w)) <$> fontGroups (document w)
    = fontGroups (document w).
Proof.
  intros Hunique Hreach.
  assert (snapshots_stored (document w)) as Hstored.
  { destruct Hreach as [calls ->]. apply run_snapshots_stored. }
  pose proof (drawn_fresh env w Hunique (reachable_consistent env w Hunique Hreach)) as Hfresh.
  apply fmap_fixed. intros group Hgroup.
  apply removeFrom_untouched, Forall_forall. intros font Hfont Heq.
  apply Hfresh, elem_of_app. left. rewrite <-Heq.
  apply list_elem_of_fmap_2. by eapply Hstored.
Qed.

(** X4.  With a generator that never repeats itself and in a world the
    service has brought about, a font that has just been saved is what
    [getFontById] finds under its identifier, and deleting it undoes the
    upload: [deleteFont] returns [true] and the document and the files of
    [uploads/] are what they were before [saveFont]. *)
Theorem saveFont_then_deleteFont env w file name content :
  uuid_unique env →
  reachable env w →
  uploaded_content file = Some content →
  let w1 := snd (FontService.saveFont env file name w) in
  let w2 := snd (FontService.deleteFont (uuid_of env (uuidsDrawn w)) w1) in
  (∃ font,
     fst (FontService.saveFont env file name w) = Resolved font ∧
     font_id font = uuid_of env (uuidsDrawn w) ∧
     fst (FontService.getFontById (font_id font) w1) = Resolved (Some font)) ∧
  fst (FontService.deleteFont (uuid_of env (uuidsDrawn w)) w1) = Resolved true ∧
  document w2 = document w ∧
  files w2 = files w.
Proof.
  intros Hunique Hreach Hcontent.
  pose proof (reachable_consistent env w Hunique Hreach) as Hw.
  pose proof (drawn_fresh env w Hunique Hw) as Hfresh.
  assert (Forall (λ other, font_id other ≠ uuid_of env (uuidsDrawn w)) (fonts (document w)))
    as Hothers.
  { apply Forall_forall. intros other Hother Heq. apply Hfresh, elem_of_app. left.
    rewrite <-Heq. by apply list_elem_of_fmap_2. }
  rewrite saveFont_run, Hcontent. cbv zeta. simpl.
  set (font := mkFont _ _ _ _ _ _).
  set (w1 := mkWorld _ _ _ _).
  assert (fonts (document w1) = fonts (document w) ++ font :: []) as Hfonts by done.
  rewrite (service_deleteFont_present (uuid_of env (uuidsDrawn w)) w1 _ font []
             Hfonts eq_refl Hothers). simpl.
  split_and!.
  - exists font. split_and!; [done..|].
    by rewrite (find_app_first (λ other, font_id other = font_id font)).
  - done.
  - unfold document at 1. simpl.
    rewrite app_nil_r, removeFrom_fresh by done. apply document_eta.
  - unfold files at 1. simpl. apply delete_insert_id.
    destruct (files w !! (uuid_of env (uuidsDrawn w) +:+ ".ttf")) eqn:E; [|done].
    destruct (names_drawn env w Hw (uuid_of env (uuidsDrawn w) +:+ ".ttf")) as (k & Hk & Heq);
      [by rewrite E|].
    apply append_inj_l, Hunique in Heq. lia.
Qed.

Lemma saveFont_then_deleteFont_witness :
  uuid_unique sample_env ∧
  reachable sample_env with_group ∧
  uploaded_content arial_file = Some [Byte.x00; Byte.x01; Byte.x00; Byte.x00] ∧
  let w1 := snd (FontService.saveFont sample_env arial_file "Arial Black.ttf" with_group) in
  let w2 := snd (FontService.deleteFont (uuid_of sample_env (uuidsDrawn with_group)) w1) in
  (∃ font,
     fst (FontService.saveFont sample_env arial_file "Arial Black.ttf" with_group)
       = Resolved font ∧
     font_id font = uuid_of sample_env (uuidsDrawn with_group) ∧
     fst (FontService.getFontById (font_id font) w1) = Resolved (Some font)) ∧
  fst (FontService.deleteFont (uuid_of sample_env (uuidsDrawn with_group)) w1)
    = Resolved true ∧
  document w2 = document with_group ∧
  files w2 = files with_group.
Proof.
  split_and!; [exact sample_env_unique|exact with_group_reachable|reflexivity|..];
    apply (saveFont_then_deleteFont sample_env with_group arial_file "Arial Black.ttf" _
             sample_env_unique with_group_reachable eq_refl).
Defined.

(** X5.  With a generator that never repeats itself and in a world the
    service has brought about, a group that has just been created is what
    [getFontGroupById] finds under its identifier, and deleting it undoes the
    creation: [deleteFontGroup] returns [true] and the document and the
    files of [uploads/] are what they were before [createFontGroup]. *)
Theorem createFontGroup_then_deleteFontGroup env w request group :
  uuid_unique env →
  reachable env w →
  fst (FontService.createFontGroup env request w) = Resolved (Some group) →
  let w1 := snd (FontService.createFontGroup env request w) in
  let w2 := snd (FontService.deleteFontGroup (group_id group) w1) in
  fst (FontService.getFontGroupById (group_id group) w1) = Resolved (Some group) ∧
  fst (FontService.deleteFontGroup (group_id group) w1) = Resolved true ∧
  document w2 = document w ∧
  files w2 = files w.
Proof.
  intros Hunique Hreach.
  pose proof (reachable_consistent env w Hunique Hreach) as Hw.
  pose proof (drawn_fresh env w Hunique Hw) as Hfresh.
  assert (Forall (λ other, group_id other ≠ uuid_of env (uuidsDrawn w))
            (fontGroups (document w))) as Hothers.
  { apply Forall_forall. intros other Hother Heq. apply Hfresh, elem_of_app. right.
    rewrite <-Heq. by apply list_elem_of_fmap_2. }
  destruct (createFontGroup_cases env request w) as [(w' & -> & _)|(_ & _ & ->)]; [done|].
  intros [= <-]. simpl.
  set (group := mkFontGroup _ _ _ _ _).
  set (w1 := mkWorld _ _ _ _).
  assert (fontGroups (document w1) = fontGroups (document w) ++ group :: []) as Hgroups by done.
  unfold FontService.deleteFontGroup, FontService.getFontGroupById.
  rewrite (deleteFontGroup_present (uuid_of env (uuidsDrawn w)) w1 _ group []
             Hgroups eq_refl Hothers).
  simpl. split_and!.
  - by rewrite (find_app_first (λ other, group_id other = group_id group)).
  - done.
  - rewrite app_nil_r. apply document_eta.
  - done.
Qed.

Lemma createFontGroup_then_deleteFontGroup_witness :
  uuid_unique sample_env ∧
  reachable sample_env two_fonts ∧
  fst (FontService.createFontGroup sample_env body_text two_fonts)
    = Resolved (Some body_text_group) ∧
  let w1 := snd (FontService.createFontGroup sample_env body_text two_fonts) in
  let w2 := snd (FontService.deleteFontGroup (group_id body_text_group) w1) in
  fst (FontService.getFontGroupById (group_id body_text_group) w1)
    = Resolved (Some body_text_group) ∧
  fst (FontService.deleteFontGroup (group_id body_text_group) w1) = Resolved true ∧
  document w2 = document two_fonts ∧
  files w2 = files two_fonts.
Proof.
  split_and!; [exact sample_env_unique|exact two_fonts_reachable|reflexivity|..];
    apply (createFontGroup_then_deleteFontGroup sample_env two_fonts body_text
             body_text_group sample_env_unique two_fonts_reachable eq_refl).
Defined.

(** ** The store, function by function *)

(** X6.  What [write] has written is what [read] returns, whatever the
    database file was before (missing with or without its directory,
    unparseable, or holding another document): [write] resolves, [read],
    [getAllFonts] and [getAllFontGroups] then return the written document and
    its parts without changing anything, and the uploads are not touched. *)
Theorem write_then_read data w :
  ∃ w',
    JsonDatabase.write data w = (Resolved (), w') ∧
    JsonDatabase.read w' = (Resolved data, w') ∧
    JsonDatabase.getAllFonts w' = (Resolved (fonts data), w') ∧
    JsonDatabase.getAllFontGroups w' = (Resolved (fontGroups data), w') ∧
    dataDir w' = Some (Some (JsonText data)) ∧
    uploadsDir w' = uploadsDir w.
Proof.
  exists (holding data w).
  rewrite write_run, read_run, getAllFonts_run, getAllFontGroups_run. done.
Qed.

(** X7.  [ensureDatabase] never touches a database file that exists, whether
    it can be parsed or not; without one it creates the directory if needed
    and a file that holds the empty document.  It never fails, it leaves the
    uploads alone, and a second run changes nothing. *)
Theorem ensureDatabase_creates_once :
  (∀ text u n c,
     JsonDatabase.ensureDatabase (mkWorld (Some (Some text)) u n c)
       = (Resolved (), mkWorld (Some (Some text)) u n c)) ∧
  (∀ u n c,
     JsonDatabase.ensureDatabase (mkWorld (Some None) u n c)
       = (Resolved (), mkWorld (Some (Some (JsonText (mkData [] [])))) u n c)) ∧
  (∀ u n c,
     JsonDatabase.ensureDataDirectory (mkWorld None u n c)
       = (Resolved (), mkWorld (Some None) u n c) ∧
     JsonDatabase.ensureDatabase (mkWorld None u n c)
       = (Resolved (), mkWorld (Some (Some (JsonText (mkData [] [])))) u n c)) ∧
  (∀ w, ∃ w',
     JsonDatabase.ensureDatabase w = (Resolved (), w') ∧
     JsonDatabase.ensureDatabase w' = (Resolved (), w') ∧
     JsonDatabase.ensureDataDirectory w' = (Resolved (), w')).
Proof.
  split_and!; try done.
  intros w. exists (ensured w). rewrite !ensureDatabase_run, ensured_ensured.
  by destruct w as [[[t|]|] u n c].
Qed.

Lemma find_snoc {A} (P : A → Prop) `{!∀ x, Decision (P x)} (l : list A) x :
  P x → find P (l ++ [x]) = Some (default x (find P l)).
Proof.
  intros HP. unfold find. induction l as [|y l IH]; simpl.
  - by rewrite decide_True.
  - destruct (decide (P y)); [done|].
    destruct (list_find P (l ++ [x])) as [[i z]|], (list_find P l) as [[j z']|];
      simpl in *; congruence.
Qed.

(** X8.  Adding appends and looking up returns the first match.  After
    [addFont font] the fonts are the former ones followed by [font], the
    groups are untouched, and [getFontById] under the identifier of [font]
    finds the first stored font that carries it: an older font with the same
    identifier if there was one, [font] otherwise.  [addFontGroup] and
    [getFontGroupById] behave alike on the groups. *)
Theorem add_then_get_by_id w :
  (∀ font,
     let w' := snd (JsonDatabase.addFont font w) in
     fst (JsonDatabase.addFont font w) = Resolved () ∧
     document w' = mkData (fonts (document w) ++ [font]) (fontGroups (document w)) ∧
     fst (JsonDatabase.getFontById (font_id font) w') =
       Resolved (Some (default font
          (find (λ other, font_id other = font_id font) (fonts (document w)))))) ∧
  (∀ group,
     let w' := snd (JsonDatabase.addFontGroup group w) in
     fst (JsonDatabase.addFontGroup group w) = Resolved () ∧
     document w' = mkData (fonts (document w)) (fontGroups (document w) ++ [group]) ∧
     fst (JsonDatabase.getFontGroupById (group_id group) w') =
       Resolved (Some (default group
          (find (λ other, group_id other = group_id group) (fontGroups (document w)))))).
Proof.
  split.
  - intros font. cbv zeta. rewrite addFont_run, getFontById_run. simpl.
    split_and!; [done..|]. f_equal.
    by apply (find_snoc (λ other, font_id other = font_id font)).
  - intros group. cbv zeta. rewrite addFontGroup_run, getFontGroupById_run. simpl.
    split_and!; [done..|]. f_equal.
    by apply (find_snoc (λ other, group_id other = group_id group)).
Qed.

(** X9.  When the store holds a group with identifier [id],
    [JsonDatabase.deleteFontGroup id] returns [true] and removes that group
    (the first one with this identifier); the other groups stay as they are,
    in their order, the fonts and the uploads are not touched, and no group
    carries [id] any more when the identifiers of the groups are unique. *)
Theorem deleteFontGroup_removes_exactly id w :
  id ∈ group_ids (document w) →
  ∃ before group after w',
    fontGroups (document w) = before ++ group :: after ∧
    group_id group = id ∧
    (id ∉ group_id <$> before) ∧
    JsonDatabase.deleteFontGroup id w = (Resolved true, w') ∧
    fontGroups (document w') = before ++ after ∧
    (NoDup (group_ids (document w)) → id ∉ group_ids (document w')) ∧
    fonts (document w') = fonts (document w) ∧
    uploadsDir w' = uploadsDir w.
Proof.
  intros (before & group & after & Hgroups & Hgroup & Hbefore)%group_ids_split.
  assert (id ∉ group_id <$> before) as Hnotin.
  { rewrite list_elem_of_fmap. intros (other & -> & Hother).
    rewrite Forall_forall in Hbefore. by apply (Hbefore other). }
  eexists before, group, after, _.
  split_and!; [done..|by eapply deleteFontGroup_present| | | |]; try done.
  unfold group_ids. rewrite document_holding, Hgroups. simpl.
  rewrite !fmap_app, fmap_cons, Hgroup.
  intros (_ & _ & [Hafter _]%NoDup_cons)%NoDup_app.
  rewrite elem_of_app. by intros [?|?].
Qed.

Lemma deleteFontGroup_removes_exactly_witness :
  "2" ∈ group_ids (document with_group) ∧
  ∃ before group after w',
    fontGroups (document with_group) = before ++ group :: after ∧
    group_id group = "2" ∧
    ("2" ∉ group_id <$> before) ∧
    JsonDatabase.deleteFontGroup "2" with_group = (Resolved true, w') ∧
    fontGroups (document w') = before ++ after ∧
    (NoDup (group_ids (document with_group)) → "2" ∉ group_ids (document w')) ∧
    fonts (document w') = fonts (document with_group) ∧
    uploadsDir w' = uploadsDir with_group.
Proof.
  assert ("2" ∈ group_ids (document with_group)) as Hin.
  { apply (bool_decide_unpack _). by vm_compute. }
  split; [exact Hin|]. exact (deleteFontGroup_removes_exactly "2" with_group Hin).
Defined.

(** X10.  [JsonDatabase.updateFontGroup] replaces in place.  It returns
    [true] exactly when a stored group carries the identifier of the given
    group; the group that [getFontGroupById] then finds under that identifier
    is the given one; the identifiers of the groups, in their order, are the
    same after the call as before, every group with another identifier is
    where and what it was, and the fonts and the uploads are not touched. *)
Theorem updateFontGroup_in_place updated w :
  let w' := snd (JsonDatabase.updateFontGroup updated w) in
  (fst (JsonDatabase.updateFontGroup updated w) = Resolved true ∧
   group_id updated ∈ group_ids (document w) ∧
   fst (JsonDatabase.getFontGroupById (group_id updated) w') = Resolved (Some updated)
   ∨
   fst (JsonDatabase.updateFontGroup updated w) = Resolved false ∧
   (group_id updated ∉ group_ids (document w)) ∧
   fontGroups (document w') = fontGroups (document w)) ∧
  group_ids (document w') = group_ids (document w) ∧
  (∀ i group,
     fontGroups (document w) !! i = Some group →
     group_id group ≠ group_id updated →
     fontGroups (document w') !! i = Some group) ∧
  fonts (document w') = fonts (document w) ∧
  uploadsDir w' = uploadsDir w.
Proof.
  cbv zeta. destruct (decide (group_id updated ∈ group_ids (document w))) as [Hin|Hout].
  - apply group_ids_split in Hin as (before & group & after & Hgroups & Hgroup & Hbefore).
    rewrite (updateFontGroup_present updated w before group after Hgroups Hgroup Hbefore).
    rewrite getFontGroupById_run. simpl.
    split_and!; [left; split_and!; [done| |]|..]; try done.
    + unfold group_ids. rewrite Hgroups, fmap_app, fmap_cons, elem_of_app, elem_of_cons. auto.
    + by rewrite (find_app_first (λ other, group_id other = group_id updated)).
    + unfold group_ids. simpl. by rewrite Hgroups, !fmap_app, !fmap_cons, Hgroup.
    + intros i other Hi Hother. rewrite Hgroups in Hi.
      destruct (decide (i = length before)) as [->|Hne].
      * rewrite list_lookup_middle in Hi by done. by simplify_eq.
      * destruct (decide (i < length before)).
        -- rewrite lookup_app_l in Hi |- * by done. done.
        -- rewrite lookup_app_r in Hi |- * by lia.
           destruct (i - length before) as [|j] eqn:E; [lia|done].
  - rewrite updateFontGroup_absent by done. simpl. rewrite document_ensured.
    split_and!; [right|..]; try done. by destruct w as [[[t|]|] u n c].
Qed.

(** ** The service, function by function *)

(** X11.  An upload that offers neither [arrayBuffer()] nor [stream()] is
    refused with "Invalid file type": no font is recorded, the database file
    is not even looked at, and no file is written.  An identifier has been
    drawn by then and the directory [uploads/] made if it was missing. *)
Theorem saveFont_invalid_file env w file name :
  uploaded_content file = None →
  ∃ w',
    FontService.saveFont env file name w = (Rejected "Invalid file type", w') ∧
    dataDir w' = dataDir w ∧
    uploadsDir w' = Some (files w) ∧
    uuidsDrawn w' = S (uuidsDrawn w) ∧
    clockReads w' = clockReads w.
Proof.
  intros Hcontent. rewrite saveFont_run, Hcontent. cbv zeta. by eexists.
Qed.

Lemma saveFont_invalid_file_witness :
  uploaded_content (mkFile None None) = None ∧
  ∃ w',
    FontService.saveFont sample_env (mkFile None None) "Arial.ttf" two_fonts
      = (Rejected "Invalid file type", w') ∧
    dataDir w' = dataDir two_fonts ∧
    uploadsDir w' = Some (files two_fonts) ∧
    uuidsDrawn w' = S (uuidsDrawn two_fonts) ∧
    clockReads w' = clockReads two_fonts.
Proof.
  split; [reflexivity|].
  exact (saveFont_invalid_file sample_env two_fonts (mkFile None None) "Arial.ttf" eq_refl).
Defined.

(** X12.  [FontService.deleteFont] of a stored font whose file name is a
    single path segment removes the binary and the record, and a binary
    that is already missing does not stop it: it returns [true], the
    document becomes what [JsonDatabase.deleteFont] makes of it, [uploads/]
    no longer holds a file under the file name of the font that
    [getFontById] found, and every other file is as before. *)
Theorem service_deleteFont_unlinks id w font :
  fst (FontService.getFontById id w) = Resolved (Some font) →
  plain_name (filename font) →
  let w' := snd (FontService.deleteFont id w) in
  fst (FontService.deleteFont id w) = Resolved true ∧
  document w' = document (snd (JsonDatabase.deleteFont id w)) ∧
  files w' !! filename font = None ∧
  (∀ other, other ≠ filename font → files w' !! other = files w !! other).
Proof.
  unfold FontService.getFontById. rewrite getFontById_run. simpl.
  intros [= Hfind] _.
  apply find_Some_split in Hfind as (before & after & Hfonts & Hfont & Hbefore & _).
  cbv zeta.
  rewrite (service_deleteFont_present id w before font after Hfonts Hfont Hbefore).
  rewrite (deleteFont_present id w before font after Hfonts Hfont Hbefore).
  cbn [fst snd].
  assert (files (mkWorld
            (Some (Some (JsonText
               (mkData (before ++ after)
                  (JsonDatabase.removeFrom id <$> fontGroups (document w))))))
            (delete (filename font) <$> uploadsDir w) (uuidsDrawn w) (clockReads w))
          = delete (filename font) (files w)) as ->.
  { unfold files. simpl. destruct (uploadsDir w); simpl; [done|]. by rewrite delete_empty. }
  split_and!; [done..|apply lookup_delete_eq|].
  intros other Hother. by apply lookup_delete_ne.
Qed.

Lemma service_deleteFont_unlinks_witness :
  let w := set_uploadsDir (Some ∅) with_group in
  fst (FontService.getFontById "1" w) = Resolved (Some georgia) ∧
  plain_name (filename georgia) ∧
  files w !! filename georgia = None ∧
  fst (FontService.deleteFont "1" w) = Resolved true ∧
  document (snd (FontService.deleteFont "1" w))
    = document (snd (JsonDatabase.deleteFont "1" w)) ∧
  files (snd (FontService.deleteFont "1" w)) !! filename georgia = None ∧
  (∀ other, other ≠ filename georgia →
     files (snd (FontService.deleteFont "1" w)) !! other = files w !! other).
Proof.
  intros w.
  assert (plain_name (filename georgia)) as Hplain by (by split_and!).
  split; [reflexivity|]. split; [exact Hplain|]. split; [reflexivity|].
  exact (service_deleteFont_unlinks "1" w georgia eq_refl Hplain).
Defined.

(** ** Backup and restore *)

Lemma backupPath_not_dbPath toISOString now : backupPath toISOString now ≠ dbPath.
Proof. unfold backupPath, dbPath. intros Heq. discriminate Heq. Qed.

Lemma backup_run toISOString env w others :
  backup toISOString env (w, others) =
    (Resolved (),
     (mkWorld (dataDir (ensured w)) (uploadsDir w) (uuidsDrawn w) (S (clockReads w)),
      <[backupPath toISOString (time_of env (clockReads w)) := JsonText (document w)]> others)).
Proof.
  unfold backup, await_task, lift. simpl. rewrite read_run.
  unfold FontService.newDate, writeFile_data.
  rewrite decide_False by apply (backupPath_not_dbPath toISOString).
  by destruct w as [[[t|]|] u n c].
Qed.

Lemma restore_run path w others :
  restore path (w, others) =
    match (if decide (path = dbPath) then mjoin (dataDir w) else others !! path) with
    | Some (JsonText data) => (Resolved (), (holding data w, others))
    | Some (Unparseable _) => (Rejected "SyntaxError", (w, others))
    | None => (Rejected "ENOENT", (w, others))
    end.
Proof.
  unfold restore, await_task, readFile, lift. case_decide; simpl.
  - unfold fs.readFile_dbPath.
    destruct w as [[[[raw|data]|]|] u n c]; simpl; try done; by rewrite write_run.
  - destruct (others !! path) as [[raw|data]|]; simpl; try done; by rewrite write_run.
Qed.

(** X13.  A backup of a store that the service has brought about can be
    restored.  [backup] never fails; it writes the document that [read]
    reports (the empty one for a database file that is missing or cannot be
    parsed) to [data/database-backup-<timestamp>.json], the timestamp being
    the instant it reads from the clock in ISO form with [-] for [:] and
    [.], and leaves the document, the uploads and the other files alone.
    Whatever calls the service then serves, [restore] of that path succeeds
    and the store holds the backed-up document again; the uploads, the
    counters and the other files are as the calls left them. *)
Theorem backup_then_restore toISOString env calls w others :
  reachable env w →
  let path := backupPath toISOString (time_of env (clockReads w)) in
  let w1 := fst (snd (backup toISOString env (w, others))) in
  let others1 := snd (snd (backup toISOString env (w, others))) in
  let w2 := run env calls w1 in
  fst (backup toISOString env (w, others)) = Resolved () ∧
  document w1 = document w ∧
  uploadsDir w1 = uploadsDir w ∧
  others1 !! path = Some (JsonText (document w)) ∧
  (∀ other, other ≠ path → others1 !! other = others !! other) ∧
  restore path (w2, others1) = (Resolved (), (holding (document w) w2, others1)) ∧
  document (holding (document w) w2) = document w ∧
  uploadsDir (holding (document w) w2) = uploadsDir w2.
Proof.
  intros _. cbv zeta. rewrite backup_run. simpl.
  split_and!; try done.
  - apply document_ensured.
  - apply lookup_insert_eq.
  - intros other Hother. by apply lookup_insert_ne.
  - rewrite restore_run.
    rewrite decide_False by apply (backupPath_not_dbPath toISOString).
    by rewrite lookup_insert_eq.
Qed.

Lemma backup_then_restore_witness :
  let path := "data/database-backup-4-000Z.json" in
  let w1 := fst (snd (backup sample_iso sample_env (with_group, ∅))) in
  let others1 := snd (snd (backup sample_iso sample_env (with_group, ∅))) in
  let w2 := run sample_env [DeleteFont "0"; DeleteFontGroup "2"] w1 in
  reachable sample_env with_group ∧
  backupPath sample_iso (time_of sample_env (clockReads with_group)) = path ∧
  fontGroups (document w2) = [] ∧
  fst (backup sample_iso sample_env (with_group, ∅)) = Resolved () ∧
  others1 !! path = Some (JsonText (document with_group)) ∧
  restore path (w2, others1) = (Resolved (), (holding (document with_group) w2, others1)) ∧
  document (holding (document with_group) w2) = document with_group.
Proof.
  intros path w1 others1 w2.
  destruct (backup_then_restore sample_iso sample_env [DeleteFont "0"; DeleteFontGroup "2"]
              with_group ∅ with_group_reachable) as (Hbackup & _ & _ & Hfile & _ & Hrestore & Hdoc & _).
  split_and!; [exact with_group_reachable|reflexivity|reflexivity|exact Hbackup|exact Hfile
              |exact Hrestore|exact Hdoc].
Defined.



(** X15.  [restore] brings records back, not binaries.  Save a font, take a
    backup, delete the font through the service and restore the backup: the
    restore succeeds and the store again holds a font with the identifier of
    the upload, but [uploads/] has no file under its file name. *)
Theorem restore_without_binary toISOString env w others file name content :
  uploaded_content file = Some content →
  let id := uuid_of env (uuidsDrawn w) in
  let w1 := snd (FontService.saveFont env file name w) in
  let disk2 := snd (backup toISOString env (w1, others)) in
  let w3 := snd (FontService.deleteFont id (fst disk2)) in
  let path := backupPath toISOString (time_of env (clockReads w1)) in
  fst (FontService.deleteFont id (fst disk2)) = Resolved true ∧
  fst (restore path (w3, snd disk2)) = Resolved () ∧
  ∃ font,
    font ∈ fonts (document (fst (snd (restore path (w3, snd disk2))))) ∧
    font_id font = id ∧
    files (fst (snd (restore path (w3, snd disk2)))) !! filename font = None.
Proof.
  intros Hcontent. cbv zeta. rewrite saveFont_run, Hcontent. cbv zeta. cbn [fst snd].
  set (new := mkFont _ _ _ _ _ _). set (w1 := mkWorld _ _ _ _).
  rewrite backup_run. cbn [fst snd]. set (w2 := mkWorld _ _ _ _).
  assert (document w2 = document w1) as Hdoc by done.
  assert (uuid_of env (uuidsDrawn w) ∈ font_ids (document w2)) as Hin.
  { unfold font_ids. rewrite Hdoc. simpl. rewrite fmap_app, elem_of_app. right. left. }
  apply font_ids_split in Hin as (before & font & after & Hfonts & Hfont & Hbefore).
  rewrite (service_deleteFont_present _ w2 before font after Hfonts Hfont Hbefore).
  cbn [fst snd].
  rewrite restore_run, decide_False by apply (backupPath_not_dbPath toISOString).
  rewrite lookup_insert_eq. cbn [fst snd].
  split_and!; [done..|]. exists font. split_and!; [|done|].
  - change (font ∈ fonts (document w2)). rewrite Hfonts, elem_of_app, elem_of_cons. auto.
  - unfold files. simpl. apply lookup_delete_eq.
Qed.

Lemma restore_without_binary_witness :
  uploaded_content arial_file = Some [Byte.x00; Byte.x01; Byte.x00; Byte.x00] ∧
  let id := uuid_of sample_env (uuidsDrawn fresh) in
  let w1 := snd (FontService.saveFont sample_env arial_file "Arial.ttf" fresh) in
  let disk2 := snd (backup sample_iso sample_env (w1, ∅)) in
  let w3 := snd (FontService.deleteFont id (fst disk2)) in
  let path := backupPath sample_iso (time_of sample_env (clockReads w1)) in
  fst (FontService.deleteFont id (fst disk2)) = Resolved true ∧
  fst (restore path (w3, snd disk2)) = Resolved () ∧
  ∃ font,
    font ∈ fonts (document (fst (snd (restore path (w3, snd disk2))))) ∧
    font_id font = id ∧
    files (fst (snd (restore path (w3, snd disk2)))) !! filename font = None.
Proof.
  split; [reflexivity|].
  exact (restore_without_binary sample_iso sample_env fresh ∅ arial_file "Arial.ttf" _ eq_refl).
Defined.

(** ** The HTTP handlers *)

Lemma snapshots_all_resolved ids data :
  length (snapshots ids data) = length ids ↔ ∀ id, id ∈ ids → id ∈ font_ids data.
Proof.
  split.
  - intros Hlen id Hid. destruct (decide (id ∈ font_ids data)) as [|Hout]; [done|].
    by destruct (snapshots_unresolved ids data id Hid Hout).
  - intros Hall. unfold snapshots. induction ids as [|id ids IH]; csimpl; [done|].
    destruct (find _ _) as [font|] eqn:Hfind.
    + simpl. f_equal. apply IH. intros other Hother. apply Hall. by right.
    + apply find_font_None in Hfind. destruct Hfind. apply Hall. left.
Qed.

Lemma snapshots_some_unresolved ids data :
  length (snapshots ids data) ≠ length ids ↔ ∃ id, id ∈ ids ∧ id ∉ font_ids data.
Proof.
  split.
  - intros Hlen.
    destruct (decide (Exists (λ id, id ∉ font_ids data) ids)) as [Hex|Hall].
    + by apply Exists_exists in Hex.
    + destruct Hlen. apply snapshots_all_resolved. intros id Hid.
      destruct (decide (id ∈ font_ids data)) as [|Hout]; [done|].
      destruct Hall. apply Exists_exists. by exists id.
  - intros (id & Hid & Hout). by eapply snapshots_unresolved.
Qed.

Lemma reachable_exec env call w : reachable env w → reachable env (exec env call w).
Proof. intros [calls ->]. exists (calls ++ [call]). by rewrite run_snoc. Qed.

Lemma reachable_ensured env w : reachable env w → reachable env (ensured w).
Proof.
  intros Hreach. apply (reachable_exec env GetAllFonts) in Hreach. simpl in Hreach.
  unfold FontService.getAllFonts in Hreach. by rewrite getAllFonts_run in Hreach.
Qed.

Lemma post_fonts_upload_run env font w :
  post_fonts_upload env font w =
    match font with
    | NoField => (Resolved (mkResponse 400 (mkApiResponse "No file uploaded" false NoData)), w)
    | TextField text =>
        if decide (text = "")
        then (Resolved (mkResponse 400 (mkApiResponse "No file uploaded" false NoData)), w)
        else (Resolved (mkResponse 500
                (mkApiResponse "Failed to upload font: TypeError" false NoData)), w)
    | FileField name file =>
        if is_ttf_name name then
          match FontService.saveFont env file name w with
          | (Resolved saved, w') =>
              (Resolved (mkResponse 201
                 (mkApiResponse "Font uploaded successfully" true (FontData saved))), w')
          | (Rejected error, w') =>
              (Resolved (mkResponse 500
                 (mkApiResponse ("Failed to upload font: " +:+ error) false NoData)), w')
          end
        else
          (Resolved (mkResponse 400 (mkApiResponse "Only TTF files are allowed" false NoData)),
           w)
    end.
Proof.
  unfold post_fonts_upload, try_catch_error. destruct font as [|text|name file]; [done| |].
  - by case_decide.
  - destruct (is_ttf_name name); [|done]. simpl. unfold await.
    by destruct (FontService.saveFont env file name w) as [[saved|error] w'].
Qed.

(** X16.  The upload endpoint.  It always answers.  Without a field
    [font], with an empty text in it, or with a file whose name does not end
    in [.ttf] whatever the case of the letters, the answer is 400 and
    nothing has changed.  A text that is not empty in the place of the file
    is answered 500 with nothing changed.  With a file of such a name whose
    content can be read the answer is 201 with the font as data: it carries
    the name that was sent, it is the last of the stored fonts, and its file
    in [uploads/] holds the content.  With a file of such a name that cannot
    be read the answer is 500 with the message of the service, and neither
    the document nor the files have changed. *)
Theorem post_fonts_upload_outcome env font w :
  ∃ response w',
    post_fonts_upload env font w = (Resolved response, w') ∧
    match font with
    | NoField => status response = 400 ∧ api_success (body response) = false ∧ w' = w
    | TextField text =>
        (if decide (text = "") then status response = 400 else status response = 500) ∧
        api_success (body response) = false ∧
        api_data (body response) = NoData ∧
        w' = w
    | FileField name file =>
        if is_ttf_name name then
          match uploaded_content file with
          | Some content =>
              status response = 201 ∧
              api_success (body response) = true ∧
              ∃ saved,
                api_data (body response) = FontData saved ∧
                originalName saved = name ∧
                fonts (document w') = fonts (document w) ++ [saved] ∧
                files w' !! filename saved = Some content
          | None =>
              response =
                mkResponse 500
                  (mkApiResponse "Failed to upload font: Invalid file type" false NoData) ∧
              document w' = document w ∧
              files w' = files w
          end
        else status response = 400 ∧ api_success (body response) = false ∧ w' = w
    end.
Proof.
  rewrite post_fonts_upload_run. destruct font as [|text|name file]; [by eexists _, _| |].
  - case_decide; by eexists _, _.
  - destruct (is_ttf_name name); [|by eexists _, _].
    rewrite saveFont_run. cbv zeta.
    destruct (uploaded_content file) as [content|]; eexists _, _; (split; [reflexivity|]).
    + split_and!; [done..|]. eexists. split_and!; [done..|].
      unfold files. simpl. apply lookup_insert_eq.
    + done.
Qed.

Lemma delete_font_run id w :
  delete_font id w =
    match FontService.deleteFont id w with
    | (Resolved true, w') =>
        (Resolved (json (mkApiResponse "Font deleted successfully" true NoData)), w')
    | (Resolved false, w') =>
        (Resolved (mkResponse 404 (mkApiResponse "Font not found" false NoData)), w')
    | (Rejected _, w') =>
        (Resolved (mkResponse 500 (mkApiResponse "Failed to delete font" false NoData)), w')
    end.
Proof.
  unfold delete_font, try_catch, await.
  by destruct (FontService.deleteFont id w) as [[[]|error] w'].
Qed.

(** X17.  The endpoint that deletes a font, on a store that the service has
    brought about with identifiers that never repeat (the database file may
    have been damaged into a text that cannot be parsed).  It answers 200
    exactly when a stored font carries the identifier: then one font less is
    stored, none with that identifier, no group holds a snapshot with that
    identifier, and the binary [<id>.ttf] is gone.  Otherwise it answers 404
    and nothing has changed (a missing database file apart, which is
    initialised).  It does not answer 500, and the store it leaves is again
    one that the service has brought about. *)
Theorem delete_font_outcome env id w :
  uuid_unique env →
  reachable env w →
  ∃ response w',
    delete_font id w = (Resolved response, w') ∧
    reachable env w' ∧
    (id ∈ font_ids (document w) ∧
     response = json (mkApiResponse "Font deleted successfully" true NoData) ∧
     S (length (fonts (document w'))) = length (fonts (document w)) ∧
     (id ∉ font_ids (document w')) ∧
     (id ∉ snapshot_ids (document w')) ∧
     files w' !! (id +:+ ".ttf") = None
     ∨
     (id ∉ font_ids (document w)) ∧
     response = mkResponse 404 (mkApiResponse "Font not found" false NoData) ∧
     same_store w w').
Proof.
  intros Hunique Hreach.
  destruct (reachable_consistent env w Hunique Hreach) as [_ _ _ Hdistinct Hnamed _].
  apply NoDup_app in Hdistinct as (Hnodup & _ & _).
  pose proof (reachable_exec env (DeleteFont id) w Hreach) as Hreach'. simpl in Hreach'.
  rewrite delete_font_run.
  destruct (service_deleteFont_cases id w)
    as [[Hout Hrun]|(before & font & after & Hfonts & Hfont & Hbefore & Hrun)];
    rewrite Hrun in *; eexists _, _; (split; [reflexivity|]); (split; [exact Hreach'|]).
  - right. split_and!; [done..|apply same_store_ensured].
  - left. split_and!; try done.
    + unfold font_ids. rewrite Hfonts, fmap_app, fmap_cons, elem_of_app, elem_of_cons. auto.
    + unfold document at 1. simpl. rewrite Hfonts, !length_app. simpl. lia.
    + revert Hnodup. unfold font_ids. unfold document at 2. simpl. rewrite Hfonts.
      rewrite !fmap_app, fmap_cons, Hfont.
      intros (_ & Hba & [Hafter _]%NoDup_cons)%NoDup_app.
      rewrite elem_of_app. intros [Hin|Hin]; [|done]. apply (Hba id Hin). left.
    + unfold snapshot_ids, document. simpl.
      intros (group & (snapshot & Heq & Hsnapshot)%list_elem_of_fmap & Hgroup)%list_elem_of_bind.
      apply list_elem_of_fmap in Hgroup as (former & -> & _). simpl in Hsnapshot.
      by apply list_elem_of_filter in Hsnapshot as [Hne _].
    + destruct (Hnamed font) as [Hname _].
      { rewrite Hfonts. apply elem_of_app. right. left. }
      rewrite <-Hfont, <-Hname. unfold files. simpl.
      destruct (uploadsDir w); simpl; [apply lookup_delete_eq|done].
Qed.

Lemma delete_font_outcome_witness :
  uuid_unique sample_env ∧
  reachable sample_env with_group ∧
  ∃ response w',
    delete_font "0" with_group = (Resolved response, w') ∧
    status response = 200 ∧
    fonts (document w') = [georgia] ∧
    files w' !! "0.ttf" = None ∧
    delete_font "0" w' =
      (Resolved (mkResponse 404 (mkApiResponse "Font not found" false NoData)), w').
Proof.
  split; [exact sample_env_unique|]. split; [exact with_group_reachable|].
  destruct (delete_font_outcome sample_env "0" with_group
              sample_env_unique with_group_reachable)
    as (response & w' & Hrun & _ & _).
  exists response, w'. split; [exact Hrun|].
  revert Hrun. vm_compute. by intros [= <- <-].
Defined.

Lemma post_font_groups_run env sent w :
  post_font_groups env sent w =
    match sent with
    | None | Some NoFontIds =>
        (Resolved (mkResponse 500 (mkApiResponse "Failed to create font group" false NoData)),
         w)
    | Some (TextFontIds fontIds) =>
        if decide (String.length fontIds < 2)
        then (Resolved (mkResponse 400
                (mkApiResponse "Font group must have at least 2 fonts" false NoData)), w)
        else (Resolved (mkResponse 500
                (mkApiResponse "Failed to create font group" false NoData)), ensured w)
    | Some (Typed request) =>
        match FontService.createFontGroup env request w with
        | (Resolved (Some group), w') =>
            (Resolved (mkResponse 201
               (mkApiResponse "Font group created successfully" true (GroupData group))), w')
        | (Resolved None, w') =>
            (Resolved (mkResponse 400
               (mkApiResponse "Font group must have at least 2 fonts" false NoData)), w')
        | (Rejected _, w') =>
            (Resolved (mkResponse 500
               (mkApiResponse "Failed to create font group" false NoData)), w')
        end
    end.
Proof.
  unfold post_font_groups, try_catch, await, req_json.
  destruct sent as [[request| |fontIds]|]; [|done| |done]; simpl.
  - by destruct (FontService.createFontGroup env request w) as [[[group|]|error] w'].
  - case_decide; [done|]. unfold await. by rewrite getAllFonts_run.
Qed.

(** X18.  The endpoint that creates a group.  A body that is not JSON, and
    JSON without [fontIds] such as [{}], are answered 500 with nothing
    changed.  A body whose [fontIds] is a string is answered 400 when the
    string has fewer than two characters, and 500 otherwise.  For a body
    that is a request, the answer is 201 exactly when it names at least two
    identifiers and every one of them is carried by a stored font: the data
    is the new group, which is the last of the stored groups, with one
    snapshot per identifier.  Every other request is answered 400 with the
    message "Font group must have at least 2 fonts", also when the cause is
    an identifier that no stored font carries.  An answer 400 or 500 has
    changed nothing (a missing database file apart). *)
Theorem post_font_groups_outcome env sent w :
  ∃ response w',
    post_font_groups env sent w = (Resolved response, w') ∧
    match sent with
    | None | Some NoFontIds =>
        response = mkResponse 500 (mkApiResponse "Failed to create font group" false NoData) ∧
        w' = w
    | Some (TextFontIds fontIds) =>
        (if decide (String.length fontIds < 2)
         then response =
                mkResponse 400
                  (mkApiResponse "Font group must have at least 2 fonts" false NoData)
         else response =
                mkResponse 500 (mkApiResponse "Failed to create font group" false NoData)) ∧
        same_store w w'
    | Some (Typed request) =>
        2 ≤ length (create_fontIds request) ∧
        (∀ id, id ∈ create_fontIds request → id ∈ font_ids (document w)) ∧
        status response = 201 ∧
        api_success (body response) = true ∧
        (∃ group,
           api_data (body response) = GroupData group ∧
           group_name group = create_name request ∧
           font_id <$> group_fonts group = create_fontIds request ∧
           fontGroups (document w') = fontGroups (document w) ++ [group] ∧
           fonts (document w') = fonts (document w))
        ∨
        (length (create_fontIds request) < 2 ∨
         ∃ id, id ∈ create_fontIds request ∧ id ∉ font_ids (document w)) ∧
        response =
          mkResponse 400
            (mkApiResponse "Font group must have at least 2 fonts" false NoData) ∧
        same_store w w'
    end.
Proof.
  rewrite post_font_groups_run.
  destruct sent as [[request| |fontIds]|]; [|by eexists _, _| |by eexists _, _].
  - destruct (createFontGroup_cases env request w)
      as [(w' & -> & Hsame & Hwhy)|(Hlen & Hall & ->)];
      eexists _, _; (split; [reflexivity|]).
    + right. split_and!; [|done..].
      destruct Hwhy as [?|?%snapshots_some_unresolved]; auto.
    + left. split_and!; [done|by apply snapshots_all_resolved|done..|].
      eexists. split_and!; [done..| |done|done]. simpl.
      apply snapshots_resolved in Hall. clear Hlen.
      induction Hall as [|id font ids selected Hfind _ IH]; csimpl; [done|].
      f_equal; [|done]. by apply find_Some_split in Hfind as (? & ? & _ & ? & _).
  - case_decide; eexists _, _; (split; [reflexivity|]); (split; [done|]).
    + by left.
    + apply same_store_ensured.
Qed.

Lemma find_group_Some id (l : list FontGroup) group :
  find (λ group, group_id group = id) l = Some group → id ∈ group_id <$> l.
Proof.
  intros Hfind. destruct (decide (id ∈ group_id <$> l)) as [|Hout]; [done|].
  apply find_group_None in Hout. by rewrite Hout in Hfind.
Qed.

Lemma put_font_group_run env id sent w :
  put_font_group env id sent w =
    match sent with
    | None =>
        (Resolved (mkResponse 500 (mkApiResponse "Failed to update font group" false NoData)),
         w)
    | Some NoFontIds =>
        match find (λ group, group_id group = id) (fontGroups (document w)) with
        | Some _ =>
            (Resolved (mkResponse 500
               (mkApiResponse "Failed to update font group" false NoData)), ensured w)
        | None =>
            (Resolved (mkResponse 400
               (mkApiResponse "Font group not found or invalid data" false NoData)), ensured w)
        end
    | Some (TextFontIds fontIds) =>
        match find (λ group, group_id group = id) (fontGroups (document w)) with
        | Some _ =>
            if decide (String.length fontIds < 2)
            then (Resolved (mkResponse 400
                    (mkApiResponse "Font group not found or invalid data" false NoData)),
                  ensured w)
            else (Resolved (mkResponse 500
                    (mkApiResponse "Failed to update font group" false NoData)), ensured w)
        | None =>
            (Resolved (mkResponse 400
               (mkApiResponse "Font group not found or invalid data" false NoData)), ensured w)
        end
    | Some (Typed request) =>
        match FontService.updateFontGroup env
                (mkUpdateRequest id (update_name request) (update_fontIds request)) w with
        | (Resolved (Some group), w') =>
            (Resolved (json
               (mkApiResponse "Font group updated successfully" true (GroupData group))), w')
        | (Resolved None, w') =>
            (Resolved (mkResponse 400
               (mkApiResponse "Font group not found or invalid data" false NoData)), w')
        | (Rejected _, w') =>
            (Resolved (mkResponse 500
               (mkApiResponse "Failed to update font group" false NoData)), w')
        end
    end.
Proof.
  unfold put_font_group, try_catch, await, req_json.
  destruct sent as [[request| |fontIds]|]; [| | |done]; simpl.
  - by destruct (FontService.updateFontGroup env _ w) as [[[group|]|error] w'].
  - unfold await. rewrite getFontGroupById_run. by destruct (find _ _).
  - unfold await. rewrite getFontGroupById_run. destruct (find _ _); [|done].
    case_decide; [done|]. unfold await. by rewrite getAllFonts_run, ensured_ensured.
Qed.

(** X19.  The endpoint that updates a group acts on the group of the path.
    For a body that is a request, whatever identifier it carries, an answer
    200 returns a group with the identifier of the path, which is then what
    the store finds under it, with the name and one snapshot per identifier
    of the body; the groups with another identifier, the one named in the
    body among them, are the same as before, in the same order, and so are
    the fonts.  JSON without [fontIds], such as [{}], is answered 400 when no
    stored group carries the identifier of the path and 500 otherwise; a
    body whose [fontIds] is a string is answered 500 when a stored group
    carries the identifier and the string has two characters at least, and
    400 otherwise.  An answer 400 or 500 has changed nothing (a missing
    database file apart); a body that is not JSON is answered 500 with
    nothing changed. *)
Theorem put_font_group_outcome env id sent w :
  ∃ response w',
    put_font_group env id sent w = (Resolved response, w') ∧
    match sent with
    | None =>
        response = mkResponse 500 (mkApiResponse "Failed to update font group" false NoData) ∧
        w' = w
    | Some NoFontIds =>
        (if decide (id ∈ group_ids (document w))
         then response =
                mkResponse 500 (mkApiResponse "Failed to update font group" false NoData)
         else response =
                mkResponse 400
                  (mkApiResponse "Font group not found or invalid data" false NoData)) ∧
        same_store w w'
    | Some (TextFontIds fontIds) =>
        (if decide (id ∈ group_ids (document w) ∧ 2 ≤ String.length fontIds)
         then response =
                mkResponse 500 (mkApiResponse "Failed to update font group" false NoData)
         else response =
                mkResponse 400
                  (mkApiResponse "Font group not found or invalid data" false NoData)) ∧
        same_store w w'
    | Some (Typed request) =>
        status response = 200 ∧
        api_success (body response) = true ∧
        (∃ group,
           api_data (body response) = GroupData group ∧
           group_id group = id ∧
           group_name group = update_name request ∧
           font_id <$> group_fonts group = update_fontIds request ∧
           fst (JsonDatabase.getFontGroupById id w') = Resolved (Some group) ∧
           filter (λ other, group_id other ≠ id) (fontGroups (document w'))
             = filter (λ other, group_id other ≠ id) (fontGroups (document w)) ∧
           group_ids (document w') = group_ids (document w) ∧
           fonts (document w') = fonts (document w))
        ∨
        response =
          mkResponse 400 (mkApiResponse "Font group not found or invalid data" false NoData) ∧
        same_store w w'
    end.
Proof.
  rewrite put_font_group_run.
  destruct sent as [[request| |fontIds]|]; [| | |by eexists _, _].
  - destruct (updateFontGroup_cases env
                (mkUpdateRequest id (update_name request) (update_fontIds request)) w)
      as [(w' & -> & Hsame & _)
         |(before & existing & after & Hgroups & Hid & Hbefore & Hlen & Hall & ->)];
      eexists _, _; (split; [reflexivity|]); simpl in *.
    + by right.
    + left. split_and!; [done..|]. eexists. split_and!; [done..| | | | |done]; simpl.
      * apply snapshots_resolved in Hall. clear Hlen.
        induction Hall as [|fid font ids selected Hfind _ IH]; csimpl; [done|].
        f_equal; [|done]. by apply find_Some_split in Hfind as (? & ? & _ & ? & _).
      * by rewrite (find_app_first (λ other, group_id other = id)).
      * rewrite Hgroups, !filter_app.
        rewrite !filter_cons_False; [done|by intros []..].
      * unfold group_ids. unfold document at 1. simpl.
        by rewrite Hgroups, !fmap_app, !fmap_cons.
  - destruct (find _ _) as [existing|] eqn:Hfind; eexists _, _;
      (split; [reflexivity|]); (split; [|apply same_store_ensured]).
    + rewrite decide_True; [done|]. by eapply find_group_Some.
    + rewrite decide_False; [done|]. by apply find_group_None.
  - destruct (find _ _) as [existing|] eqn:Hfind; [case_decide|]; eexists _, _;
      (split; [reflexivity|]); (split; [|apply same_store_ensured]).
    + rewrite decide_False; [done|]. lia.
    + rewrite decide_True; [done|]. split; [|lia]. by eapply find_group_Some.
    + rewrite decide_False; [done|]. intros [Hin _]. revert Hin. by apply find_group_None.
Qed.

Lemma delete_font_group_run id w :
  delete_font_group id w =
    match FontService.deleteFontGroup id w with
    | (Resolved true, w') =>
        (Resolved (json (mkApiResponse "Font group deleted successfully" true NoData)), w')
    | (Resolved false, w') =>
        (Resolved (mkResponse 404 (mkApiResponse "Font group not found" false NoData)), w')
    | (Rejected _, w') =>
        (Resolved (mkResponse 500 (mkApiResponse "Failed to delete font group" false NoData)),
         w')
    end.
Proof.
  unfold delete_font_group, try_catch, await.
  by destruct (FontService.deleteFontGroup id w) as [[[]|error] w'].
Qed.

Lemma get_fonts_run w :
  get_fonts w =
    (Resolved (json (mkApiResponse "Fonts retrieved successfully" true
                       (FontsData (fonts (document w))))),
     ensured w).
Proof.
  unfold get_fonts, try_catch, await, FontService.getAllFonts. by rewrite getAllFonts_run.
Qed.

Lemma get_font_groups_run w :
  get_font_groups w =
    (Resolved (json (mkApiResponse "Font groups retrieved successfully" true
                       (GroupsData (fontGroups (document w))))),
     ensured w).
Proof.
  unfold get_font_groups, try_catch, await, FontService.getAllFontGroups.
  by rewrite getAllFontGroups_run.
Qed.

(** Whatever the request, the world it leaves is the one it found or the one
    a call of the service leaves. *)
Lemma serve_world env request w :
  snd (serve env request w) = w ∨ ∃ call, snd (serve env request w) = exec env call w.
Proof.
  assert (∃ call, ensured w = exec env call w) as Hensured.
  { exists GetAllFonts. simpl. unfold FontService.getAllFonts. by rewrite getAllFonts_run. }
  destruct request as [font| |id|sent| |id sent|id]; simpl.
  - rewrite post_fonts_upload_run. destruct font as [|text|name file]; [by left| |].
    + left. by case_decide.
    + destruct (is_ttf_name name); [|by left]. right. exists (SaveFont file name). simpl.
      by destruct (FontService.saveFont env file name w) as [[saved|error] w'].
  - rewrite get_fonts_run. by right.
  - rewrite delete_font_run. right. exists (DeleteFont id). simpl.
    by destruct (FontService.deleteFont id w) as [[[]|error] w'].
  - rewrite post_font_groups_run. destruct sent as [[request| |fontIds]|]; [|by left| |by left].
    + right. exists (CreateFontGroup request). simpl.
      by destruct (FontService.createFontGroup env request w) as [[[group|]|error] w'].
    + case_decide; [by left|by right].
  - rewrite get_font_groups_run. by right.
  - rewrite put_font_group_run. destruct sent as [[request| |fontIds]|]; [| | |by left].
    + right.
      exists (UpdateFontGroup
                (mkUpdateRequest id (update_name request) (update_fontIds request))).
      simpl. by destruct (FontService.updateFontGroup env _ w) as [[[group|]|error] w'].
    + right. by destruct (find _ _).
    + right. destruct (find _ _); [|done]. by case_decide.
  - rewrite delete_font_group_run. right. exists (DeleteFontGroup id). simpl.
    by destruct (FontService.deleteFontGroup id w) as [[[]|error] w'].
Qed.

(** X20.  On a store that the service has brought about with identifiers
    that never repeat, every request of the API is answered, the promise of
    a handler is never rejected, and the store it leaves is again one that
    the service has brought about.  The status is 200, 201, 400, 404 or
    500; [success] is [true] exactly when it is 200 or 201; and an answer
    that reports a failure carries no data and has changed neither the
    stored document nor the files of [uploads/]. *)
Theorem serve_answers env request w :
  uuid_unique env →
  reachable env w →
  ∃ response w',
    serve env request w = (Resolved response, w') ∧
    reachable env w' ∧
    status response ∈ [200; 201; 400; 404; 500] ∧
    (api_success (body response) = true ↔ status response < 300) ∧
    (api_success (body response) = false →
     api_data (body response) = NoData ∧
     document w' = document w ∧
     files w' = files w).
Proof.
  intros _ Hreach.
  assert (reachable env (snd (serve env request w))) as Hreach'.
  { destruct (serve_world env request w) as [->|[call ->]]; [done|].
    by apply reachable_exec. }
  revert Hreach'.
  assert (∀ n, n ∈ [200; 201; 400; 404; 500] ↔
               n = 200 ∨ n = 201 ∨ n = 400 ∨ n = 404 ∨ n = 500) as Hstatus.
  { intros n. rewrite !elem_of_cons, elem_of_nil. tauto. }
  assert (∀ w', same_store w w' → document w' = document w ∧ files w' = files w) as Hsame.
  { intros w' H. split; [by apply same_store_document|]. by destruct H as [->|[_ ->]]. }
  pose proof (Hsame _ (same_store_ensured w)) as Hensured.
  destruct request as [font| |id|sent| |id sent|id]; simpl.
  - rewrite post_fonts_upload_run.
    destruct font as [|text|name file];
      [|case_decide
       |destruct (is_ttf_name name);
          [rewrite saveFont_run; cbv zeta; destruct (uploaded_content file)|]];
      intros Hreach'; eexists _, _; (split; [done|]); (split; [exact Hreach'|]);
      rewrite Hstatus; simpl.
    + split_and!; [auto| |done]. split; [done|lia].
    + split_and!; [auto| |done]. split; [done|lia].
    + split_and!; [auto| |done]. split; [done|lia].
    + split_and!; [auto| |done]. split; [lia|done].
    + split_and!; [auto| |done]. split; [done|lia].
    + split_and!; [auto| |done]. split; [done|lia].
  - rewrite get_fonts_run. intros Hreach'. eexists _, _. split; [done|].
    split; [exact Hreach'|]. rewrite Hstatus. simpl.
    split_and!; [auto| |done]. split; [lia|done].
  - rewrite delete_font_run.
    destruct (service_deleteFont_cases id w)
      as [[_ ->]|(before & font & after & _ & _ & _ & ->)];
      intros Hreach'; eexists _, _; (split; [done|]); (split; [exact Hreach'|]);
      rewrite Hstatus; simpl.
    + split_and!; [auto| |]; [split; [done|lia]|]. by intros _.
    + split_and!; [auto| |done]. split; [lia|done].
  - rewrite post_font_groups_run. destruct sent as [[request| |fontIds]|].
    + destruct (createFontGroup_cases env request w) as [(w' & -> & Hw' & _)|(_ & _ & ->)];
        intros Hreach'; eexists _, _; (split; [done|]); (split; [exact Hreach'|]);
        rewrite Hstatus; simpl.
      * split_and!; [auto| |]; [split; [done|lia]|]. intros _. split; [done|]. by apply Hsame.
      * split_and!; [auto| |done]. split; [lia|done].
    + intros Hreach'. eexists _, _. split; [done|]. split; [exact Hreach'|].
      rewrite Hstatus. simpl. split_and!; [auto| |done]. split; [done|lia].
    + case_decide; intros Hreach'; eexists _, _; (split; [done|]);
        (split; [exact Hreach'|]); rewrite Hstatus; simpl.
      * split_and!; [auto| |done]. split; [done|lia].
      * split_and!; [auto| |]; [split; [done|lia]|]. by intros _.
    + intros Hreach'. eexists _, _. split; [done|]. split; [exact Hreach'|].
      rewrite Hstatus. simpl. split_and!; [auto| |done]. split; [done|lia].
  - rewrite get_font_groups_run. intros Hreach'. eexists _, _. split; [done|].
    split; [exact Hreach'|]. rewrite Hstatus. simpl.
    split_and!; [auto| |done]. split; [lia|done].
  - rewrite put_font_group_run. destruct sent as [[request| |fontIds]|].
    + destruct (updateFontGroup_cases env
                  (mkUpdateRequest id (update_name request) (update_fontIds request)) w)
        as [(w' & -> & Hw' & _)|(before & existing & after & _ & _ & _ & _ & _ & ->)];
        intros Hreach'; eexists _, _; (split; [done|]); (split; [exact Hreach'|]);
        rewrite Hstatus; simpl.
      * split_and!; [auto| |]; [split; [done|lia]|]. intros _. split; [done|]. by apply Hsame.
      * split_and!; [auto| |done]. split; [lia|done].
    + destruct (find _ _); intros Hreach'; eexists _, _; (split; [done|]);
        (split; [exact Hreach'|]); rewrite Hstatus; simpl;
        (split_and!; [auto| |]; [split; [done|lia]|]); by intros _.
    + destruct (find _ _); [case_decide|]; intros Hreach'; eexists _, _; (split; [done|]);
        (split; [exact Hreach'|]); rewrite Hstatus; simpl;
        (split_and!; [auto| |]; [split; [done|lia]|]); by intros _.
    + intros Hreach'. eexists _, _. split; [done|]. split; [exact Hreach'|].
      rewrite Hstatus. simpl. split_and!; [auto| |done]. split; [done|lia].
  - rewrite delete_font_group_run.
    destruct (deleteFontGroup_cases id w)
      as [[_ ->]|(before & group & after & _ & _ & _ & ->)];
      intros Hreach'; eexists _, _; (split; [done|]); (split; [exact Hreach'|]);
      rewrite Hstatus; simpl.
    + split_and!; [auto| |]; [split; [done|lia]|]. by intros _.
    + split_and!; [auto| |done]. split; [lia|done].
Qed.

Lemma serve_answers_witness :
  uuid_unique sample_env ∧
  reachable sample_env with_group ∧
  ∃ response w',
    serve sample_env (PutFontGroupAt "2" (Some NoFontIds)) with_group
      = (Resolved response, w') ∧
    reachable sample_env w' ∧
    status response = 500 ∧
    api_success (body response) = false ∧
    document w' = document with_group ∧
    files w' = files with_group.
Proof.
  split; [exact sample_env_unique|]. split; [exact with_group_reachable|].
  destruct (serve_answers sample_env (PutFontGroupAt "2" (Some NoFontIds)) with_group
              sample_env_unique with_group_reachable)
    as (response & w' & Hrun & Hreach & _ & _ & Hfailure).
  exists response, w'. split; [exact Hrun|]. split; [exact Hreach|].
  revert Hrun Hfailure. vm_compute. intros [= <- <-] Hfailure.
  by destruct (Hfailure eq_refl) as (_ & _ & _).
Defined.

(** ** The form of a group *)

Lemma spread_Set_length seen ids : length (spread_Set seen ids) ≤ length ids.
Proof.
  revert seen. induction ids as [|id ids IH]; intros seen; simpl; [done|].
  case_decide; simpl; [specialize (IH seen)|specialize (IH (id :: seen))]; lia.
Qed.

Lemma spread_Set_full seen ids :
  length (spread_Set seen ids) = length ids ↔
  spread_Set seen ids = ids ∧ NoDup ids ∧ ∀ id, id ∈ ids → id ∉ seen.
Proof.
  split; [|by intros (-> & _)].
  revert seen. induction ids as [|id ids IH]; intros seen; simpl.
  - intros _. split_and!; [done|constructor|]. by intros id ?%elem_of_nil.
  - case_decide as Hseen; simpl.
    + pose proof (spread_Set_length seen ids). lia.
    + intros [= Hlen]. destruct (IH _ Hlen) as (-> & Hnodup & Hfresh).
      split_and!; [done| |].
      * constructor; [|done]. intros Hin. apply (Hfresh id Hin). left.
      * intros other [->|Hother]%elem_of_cons; [done|].
        intros Hin. apply (Hfresh other Hother). by right.
Qed.

Lemma spread_Set_NoDup ids : NoDup ids → spread_Set [] ids = ids.
Proof.
  assert (∀ seen, NoDup ids → (∀ id, id ∈ ids → id ∉ seen) → spread_Set seen ids = ids)
    as Hgen.
  { induction ids as [|id ids IH]; intros seen Hnodup Hfresh; simpl; [done|].
    apply NoDup_cons in Hnodup as [Hid Hnodup].
    rewrite decide_False by (apply Hfresh; left). f_equal. apply IH; [done|].
    intros other Hother [->|Hin]%elem_of_cons; [done|].
    apply (Hfresh other); [by right|done]. }
  intros Hnodup. apply Hgen; [done|]. by intros id _ ?%elem_of_nil.
Qed.

Lemma handleSubmit_fetch trim groupName fontRows editing request :
  handleSubmit trim groupName fontRows editing = Fetch request →
  let ids := selectedFontId <$> filter (λ row, selectedFontId row ≠ "") fontRows in
  trim groupName ≠ "" ∧
  2 ≤ length ids ∧
  NoDup ids ∧
  ("" ∉ ids) ∧
  request =
    match editing with
    | Some editingGroup =>
        PutFontGroupAt (group_id editingGroup)
          (Some (Typed (mkUpdateRequest (group_id editingGroup) (trim groupName) ids)))
    | None => PostFontGroups (Some (Typed (mkCreateRequest (trim groupName) ids)))
    end.
Proof.
  cbv zeta. unfold handleSubmit.
  set (ids := selectedFontId <$> filter (λ row, selectedFontId row ≠ "") fontRows).
  assert ("" ∉ ids) as Hnonempty.
  { intros (row & Heq & [Hrow _]%list_elem_of_filter)%list_elem_of_fmap. done. }
  assert (length (filter (λ row, selectedFontId row ≠ "") fontRows) = length ids) as Hlen
    by (unfold ids; by rewrite length_fmap).
  rewrite Hlen.
  case_decide; [done|]. case_decide; [done|]. case_decide as Hunique; [done|].
  apply spread_Set_full in Hunique as (-> & Hnodup & _).
  intros Hsent. split_and!; [done|lia|done|done|]. destruct editing; by simplify_eq.
Qed.

(** X21.  The form sends a request exactly when the name is not blank and
    the rows with a selection are at least two and select pairwise different
    fonts; otherwise it shows a message and sends nothing.  The request
    carries the trimmed name and the selected identifiers in the order of
    the rows, none of them empty; it is the update of the group that is being
    edited, at the path and with the identifier of that group, or else the
    creation of a group. *)
Theorem handleSubmit_sends trim groupName fontRows editing request :
  handleSubmit trim groupName fontRows editing = Fetch request ↔
  let ids := selectedFontId <$> filter (λ row, selectedFontId row ≠ "") fontRows in
  trim groupName ≠ "" ∧
  2 ≤ length ids ∧
  NoDup ids ∧
  ("" ∉ ids) ∧
  request =
    match editing with
    | Some editingGroup =>
        PutFontGroupAt (group_id editingGroup)
          (Some (Typed (mkUpdateRequest (group_id editingGroup) (trim groupName) ids)))
    | None => PostFontGroups (Some (Typed (mkCreateRequest (trim groupName) ids)))
    end.
Proof.
  split; [apply handleSubmit_fetch|].
  cbv zeta. unfold handleSubmit.
  intros (Hname & Htwo & Hnodup & _ & ->).
  rewrite decide_False by done. rewrite decide_False by (rewrite length_fmap in Htwo; lia).
  rewrite spread_Set_NoDup by done. rewrite decide_False by (intros H; by apply H).
  by destruct editing.
Qed.

Lemma handleSubmit_sends_witness :
  handleSubmit sample_trim "  Body Text " sample_rows None
    = Fetch (PostFontGroups (Some (Typed body_text))) ∧
  sample_trim "  Body Text " ≠ "" ∧
  2 ≤ length (selectedFontId <$> filter (λ row, selectedFontId row ≠ "") sample_rows) ∧
  NoDup (selectedFontId <$> filter (λ row, selectedFontId row ≠ "") sample_rows) ∧
  ("" ∉ selectedFontId <$> filter (λ row, selectedFontId row ≠ "") sample_rows) ∧
  PostFontGroups (Some (Typed body_text)) =
    PostFontGroups
      (Some (Typed (mkCreateRequest (sample_trim "  Body Text ")
                      (selectedFontId <$>
                       filter (λ row, selectedFontId row ≠ "") sample_rows)))).
Proof.
  split; [reflexivity|].
  exact (proj1 (handleSubmit_sends sample_trim "  Body Text " sample_rows None
                  (PostFontGroups (Some (Typed body_text)))) eq_refl).
Defined.

Lemma snapshots_ids ids data :
  length (snapshots ids data) = length ids → font_id <$> snapshots ids data = ids.
Proof.
  intros Hall%snapshots_resolved.
  induction Hall as [|id font ids selected Hfind _ IH]; csimpl; [done|].
  f_equal; [|done]. by apply find_Some_split in Hfind as (? & ? & _ & ? & _).
Qed.

(** X22.  What the form sends, the API accepts, and the group has two
    different fonts at least.  If every selected identifier is carried by a
    stored font and, for an update, the group that is being edited is
    stored, the request the form sends is answered with success; the group
    of the answer is stored, carries the trimmed name, and its snapshots are
    at least two and carry pairwise different identifiers. *)
Theorem form_request_accepted trim groupName fontRows editing request env w :
  handleSubmit trim groupName fontRows editing = Fetch request →
  (∀ row, row ∈ fontRows → selectedFontId row ≠ "" →
     selectedFontId row ∈ font_ids (document w)) →
  (∀ editingGroup, editing = Some editingGroup →
     group_id editingGroup ∈ group_ids (document w)) →
  ∃ response w' group,
    serve env request w = (Resolved response, w') ∧
    api_success (body response) = true ∧
    api_data (body response) = GroupData group ∧
    group ∈ fontGroups (document w') ∧
    group_name group = trim groupName ∧
    2 ≤ length (group_fonts group) ∧
    NoDup (font_id <$> group_fonts group).
Proof.
  intros Hsent Hstored Hediting.
  apply handleSubmit_fetch in Hsent as (_ & Htwo & Hnodup & _ & ->).
  set (ids := selectedFontId <$> filter (λ row, selectedFontId row ≠ "") fontRows) in *.
  assert (length (snapshots ids (document w)) = length ids) as Hall.
  { apply snapshots_all_resolved. intros id (row & -> & [Hsel Hrow]%list_elem_of_filter)
      %list_elem_of_fmap. by apply Hstored. }
  destruct editing as [editingGroup|]; simpl.
  - rewrite put_font_group_run. cbn [update_name update_fontIds].
    destruct (updateFontGroup_cases env
                (mkUpdateRequest (group_id editingGroup) (trim groupName) ids) w)
      as [(w' & _ & _ & [Hout|[Hfew|Hmiss]])
         |(before & existing & after & Hgroups & Hid & _ & _ & _ & ->)]; simpl in *.
    + destruct Hout. by apply Hediting.
    + lia.
    + done.
    + eexists _, _, _. split_and!; [done..| |done| |]; simpl.
      * unfold document. simpl. rewrite elem_of_app, elem_of_cons. auto.
      * lia.
      * by rewrite snapshots_ids.
  - rewrite post_font_groups_run.
    destruct (createFontGroup_cases env (mkCreateRequest (trim groupName) ids) w)
      as [(w' & _ & _ & [Hfew|Hmiss])|(_ & _ & ->)]; simpl in *.
    + lia.
    + done.
    + eexists _, _, _. split_and!; [done..| |done| |]; simpl.
      * unfold document. simpl. rewrite elem_of_app, elem_of_cons, elem_of_nil. auto.
      * lia.
      * by rewrite snapshots_ids.
Qed.

Lemma form_request_accepted_witness :
  handleSubmit sample_trim "  Body Text " sample_rows None
    = Fetch (PostFontGroups (Some (Typed body_text))) ∧
  ∃ response w' group,
    serve sample_env (PostFontGroups (Some (Typed body_text))) two_fonts = (Resolved response, w') ∧
    api_success (body response) = true ∧
    api_data (body response) = GroupData group ∧
    group ∈ fontGroups (document w') ∧
    group_name group = sample_trim "  Body Text " ∧
    2 ≤ length (group_fonts group) ∧
    NoDup (font_id <$> group_fonts group).
Proof.
  split; [reflexivity|].
  refine (form_request_accepted sample_trim "  Body Text " sample_rows None
            (PostFontGroups (Some (Typed body_text))) sample_env two_fonts eq_refl _ _).
  - intros row Hrow Hselected. apply (bool_decide_unpack _).
    unfold sample_rows in Hrow. rewrite !elem_of_cons, elem_of_nil in Hrow.
    destruct Hrow as [->|[->|[->|[]]]]; [by vm_compute|done|by vm_compute].
  - intros editingGroup Hediting. discriminate Hediting.
Defined.

(** ** The rows of the form *)

Lemma filter_out_unique {A} (f : A → string) id (l : list A) :
  NoDup (f <$> l) → id ∈ f <$> l →
  S (length (filter (λ x, f x ≠ id) l)) = length l.
Proof.
  induction l as [|x l IH]; csimpl; [by intros _ ?%elem_of_nil|].
  intros [Hx Hl]%NoDup_cons [->|Hin]%elem_of_cons.
  - rewrite filter_cons_False by (by intros []). f_equal.
    rewrite filter_all; [done|]. apply Forall_forall. intros y Hy Heq.
    apply Hx. rewrite <-Heq. by apply list_elem_of_fmap_2.
  - rewrite filter_cons_True.
    + simpl. f_equal. by apply IH.
    + intros <-. done.
Qed.

(** X23.  "A row must remain" holds as long as the rows are named
    differently: then [removeRow] never empties the form, it takes away the
    one row of the given name when there are several, and it does nothing
    when there is a single row.  [addRow] names the new row after the number
    of rows, so the names need not stay different: from the row the form
    starts with, adding a row, removing the first and adding a row gives two
    rows named [2], and removing [2] then leaves the form without rows. *)
Theorem removeRow_keeps_a_row :
  (∀ id fontRows,
     NoDup (row_id <$> fontRows) → fontRows ≠ [] → removeRow id fontRows ≠ []) ∧
  (∀ id fontRows,
     NoDup (row_id <$> fontRows) → 1 < length fontRows → id ∈ row_id <$> fontRows →
     S (length (removeRow id fontRows)) = length fontRows ∧
     (id ∉ row_id <$> removeRow id fontRows)) ∧
  (∀ id row, removeRow id [row] = [row]) ∧
  (row_id <$> addRow (removeRow "1" (addRow [emptyRow "1"])) = ["2"; "2"] ∧
   removeRow "2" (addRow (removeRow "1" (addRow [emptyRow "1"]))) = []).
Proof.
  split_and!.
  - intros id fontRows Hnodup Hrows. unfold removeRow. case_decide as Hlen; [|done].
    destruct fontRows as [|first [|second rest]]; simpl in Hlen; [lia..|].
    apply NoDup_cons in Hnodup as [Hfirst _].
    destruct (decide (row_id first = id)) as [<-|Hne].
    + rewrite filter_cons_False by (by intros []).
      rewrite filter_cons_True; [done|]. intros Heq. apply Hfirst. rewrite Heq. left.
    + by rewrite filter_cons_True.
  - intros id fontRows Hnodup Hlen Hin. unfold removeRow. rewrite decide_True by done.
    split; [by apply filter_out_unique|].
    intros (row & -> & [Hne _]%list_elem_of_filter)%list_elem_of_fmap. done.
  - done.
  - by vm_compute.
  - by vm_compute.
Qed.

Lemma removeRow_keeps_a_row_witness :
  NoDup (row_id <$> sample_rows) ∧
  sample_rows ≠ [] ∧
  1 < length sample_rows ∧
  "2" ∈ row_id <$> sample_rows ∧
  removeRow "2" sample_rows ≠ [] ∧
  S (length (removeRow "2" sample_rows)) = length sample_rows ∧
  ("2" ∉ row_id <$> removeRow "2" sample_rows).
Proof.
  assert (NoDup (row_id <$> sample_rows)) as Hnodup.
  { apply (bool_decide_unpack _). by vm_compute. }
  assert (sample_rows ≠ []) as Hrows by done.
  assert (1 < length sample_rows) as Hlen by (simpl; lia).
  assert ("2" ∈ row_id <$> sample_rows) as Hin.
  { apply (bool_decide_unpack _). by vm_compute. }
  split_and!; [exact Hnodup|exact Hrows|exact Hlen|exact Hin|..].
  - exact (proj1 removeRow_keeps_a_row "2" sample_rows Hnodup Hrows).
  - exact (proj1 (proj1 (proj2 removeRow_keeps_a_row) "2" sample_rows Hnodup Hlen Hin)).
  - exact (proj2 (proj1 (proj2 removeRow_keeps_a_row) "2" sample_rows Hnodup Hlen Hin)).
Defined.

(** ** The page and the store *)

Lemma filter_unique_split {A} (f : A → string) id before x after :
  NoDup (f <$> (before ++ x :: after)) → f x = id →
  filter (λ y, f y ≠ id) (before ++ x :: after) = before ++ after.
Proof.
  rewrite fmap_app, fmap_cons. intros (Hbefore & Hcross & [Hx Hafter]%NoDup_cons)%NoDup_app <-.
  rewrite filter_app, filter_cons_False by (by intros []).
  rewrite !filter_all; [done|..]; apply Forall_forall; intros y Hy Heq.
  - apply Hx. rewrite <-Heq. by apply list_elem_of_fmap_2.
  - apply (Hcross (f y)); [by apply list_elem_of_fmap_2|]. rewrite Heq. left.
Qed.

Lemma replace_unique_split {A} (f : A → string) id before x y after :
  NoDup (f <$> (before ++ x :: after)) → f x = id →
  (λ z, if decide (f z = id) then y else z) <$> (before ++ x :: after)
    = before ++ y :: after.
Proof.
  rewrite (fmap_app f), (fmap_cons f).
  intros (Hbefore & Hcross & [Hx Hafter]%NoDup_cons)%NoDup_app <-.
  rewrite fmap_app, fmap_cons, decide_True by done.
  rewrite !fmap_fixed; [done|..]; intros z Hz; rewrite decide_False; try done; intros Hzy.
  - apply Hx. rewrite <-Hzy. by apply list_elem_of_fmap_2.
  - apply (Hcross (f z)); [by apply list_elem_of_fmap_2|]. rewrite Hzy. left.
Qed.

(** X24.  The lists the page shows against the store, for a world the
    service reaches with identifiers that never repeat.  A page that shows
    the stored fonts still shows the stored fonts after any request it sent
    and the answer it received.  A page that shows the stored groups still
    shows them after every request but the deletion of a font: that one
    removes the font from the stored groups, while the page keeps the groups
    as they were. *)
Theorem page_follows_store env w request response w' page :
  uuid_unique env → reachable env w →
  serve env request w = (Resolved response, w') →
  (page_fonts page = fonts (document w) →
   page_fonts (receive request response page) = fonts (document w')) ∧
  (page_groups page = fontGroups (document w) →
   match request with
   | DeleteFontAt id =>
       page_groups (receive request response page) = fontGroups (document w) ∧
       (api_success (body response) = true →
        fontGroups (document w') = JsonDatabase.removeFrom id <$> fontGroups (document w))
   | _ => page_groups (receive request response page) = fontGroups (document w')
   end).
Proof.
  intros Hunique Hreach Hserve.
  destruct (reachable_consistent env w Hunique Hreach) as [_ _ _ Hdistinct _ _].
  apply NoDup_app in Hdistinct as (Hfonts & _ & Hgroups).
  unfold font_ids in Hfonts. unfold group_ids in Hgroups.
  destruct request as [font| |id|sent| |id sent|id]; simpl in Hserve.
  - rewrite post_fonts_upload_run in Hserve.
    destruct font as [|text|name file];
      [by inversion Hserve|by case_decide; inversion Hserve|].
    destruct (is_ttf_name name); [|by inversion Hserve].
    rewrite saveFont_run in Hserve. cbv zeta in Hserve.
    destruct (uploaded_content file); inversion Hserve; subst; unfold receive; simpl.
    + split; [by intros ->|done].
    + done.
  - rewrite get_fonts_run in Hserve. inversion Hserve; subst.
    unfold receive; simpl. by rewrite document_ensured.
  - rewrite delete_font_run in Hserve.
    destruct (service_deleteFont_cases id w)
      as [[Habsent Hrun]|(before & font & after & Hsplit & Hid & Hbefore & Hrun)];
      rewrite Hrun in Hserve; inversion Hserve; subst; unfold receive; simpl.
    + by rewrite document_ensured.
    + split; [|done]. intros ->. rewrite Hsplit in *. by apply filter_unique_split.
  - rewrite post_font_groups_run in Hserve.
    destruct sent as [[sent| |fontIds]|];
      [|by inversion Hserve
       |case_decide; inversion Hserve; subst; unfold receive; simpl;
          by rewrite ?document_ensured
       |by inversion Hserve].
    destruct (createFontGroup_cases env sent w) as [(w1 & Hrun & Hsame & _)|(_ & _ & Hrun)].
    + rewrite Hrun in Hserve. inversion Hserve; subst. unfold receive; simpl.
      by rewrite (same_store_document _ _ Hsame).
    + cbv zeta in Hrun. rewrite Hrun in Hserve. inversion Hserve; subst.
      unfold receive; simpl. split; [done|by intros ->].
  - rewrite get_font_groups_run in Hserve. inversion Hserve; subst.
    unfold receive; simpl. by rewrite document_ensured.
  - rewrite put_font_group_run in Hserve.
    destruct sent as [[sent| |fontIds]|];
      [|destruct (find _ _); inversion Hserve; subst; unfold receive; simpl;
          by rewrite document_ensured
       |destruct (find _ _); [case_decide|]; inversion Hserve; subst; unfold receive; simpl;
          by rewrite document_ensured
       |by inversion Hserve].
    destruct (updateFontGroup_cases env
                (mkUpdateRequest id (update_name sent) (update_fontIds sent)) w)
      as [(w1 & Hrun & Hsame & _)
         |(before & existing & after & Hsplit & Hid & _ & _ & _ & Hrun)].
    + rewrite Hrun in Hserve. inversion Hserve; subst. unfold receive; simpl.
      by rewrite (same_store_document _ _ Hsame).
    + cbv zeta in Hrun. rewrite Hrun in Hserve. inversion Hserve; subst.
      unfold receive; simpl. split; [done|]. intros ->. rewrite Hsplit in *.
      by apply (replace_unique_split group_id).
  - rewrite delete_font_group_run in Hserve.
    destruct (deleteFontGroup_cases id w)
      as [[Habsent Hrun]|(before & group & after & Hsplit & Hid & Hbefore & Hrun)];
      rewrite Hrun in Hserve; inversion Hserve; subst; unfold receive; simpl.
    + by rewrite document_ensured.
    + split; [done|]. intros ->. rewrite Hsplit in *. by apply filter_unique_split.
Qed.

Lemma page_follows_store_witness :
  let page := mkPage [arial; georgia] [body_text_group] None in
  uuid_unique sample_env ∧ reachable sample_env with_group ∧
  ∃ response w',
    serve sample_env (DeleteFontAt "0") with_group = (Resolved response, w') ∧
    (page_fonts page = fonts (document with_group) →
     page_fonts (receive (DeleteFontAt "0") response page) = fonts (document w')) ∧
    (page_groups page = fontGroups (document with_group) →
     page_groups (receive (DeleteFontAt "0") response page)
       = fontGroups (document with_group) ∧
     (api_success (body response) = true →
      fontGroups (document w')
        = JsonDatabase.removeFrom "0" <$> fontGroups (document with_group))).
Proof.
  intros page.
  split; [exact sample_env_unique|]. split; [exact with_group_reachable|].
  eexists _, _. split; [by vm_compute|].
  apply (page_follows_store sample_env with_group (DeleteFontAt "0") _ _ page
           sample_env_unique with_group_reachable).
  by vm_compute.
Defined.

(** ** A group opened in the form *)

Lemma rowsOf_selected group : selectedFontId <$> rowsOf group = font_id <$> group_fonts group.
Proof.
  unfold rowsOf. rewrite fmap_imap. rewrite <-(imap_const font_id). by apply imap_ext.
Qed.

Lemma rowsOf_valid group :
  ("" ∉ font_id <$> group_fonts group) →
  filter (λ row, selectedFontId row ≠ "") (rowsOf group) = rowsOf group.
Proof.
  intros Hids. apply filter_all.
  apply (Forall_fmap selectedFontId (λ id, id ≠ "")).
  rewrite rowsOf_selected. apply Forall_forall. by intros id Hid ->.
Qed.

(** X25.  A stored group that is opened in the form and submitted as it
    is: the form sends the update of that group with its own name (trimmed)
    and the identifiers of its fonts in order, provided the group has at
    least two fonts, all different.  A group a font deletion has left with
    fewer than two fonts, or one that holds a font twice, is refused by the
    form with a message, and nothing is sent. *)
Theorem edited_group_resubmits trim group :
  trim (group_name group) ≠ "" →
  ("" ∉ font_id <$> group_fonts group) →
  let ids := font_id <$> group_fonts group in
  let submitted := handleSubmit trim (group_name group) (rowsOf group) (Some group) in
  (2 ≤ length ids → NoDup ids →
   submitted =
     Fetch (PutFontGroupAt (group_id group)
              (Some (Typed (mkUpdateRequest (group_id group) (trim (group_name group)) ids))))) ∧
  (length ids < 2 → submitted = ShowMessage "Please select at least 2 fonts") ∧
  (2 ≤ length ids → ¬ NoDup ids →
   submitted = ShowMessage "Please select different fonts (no duplicates allowed)").
Proof.
  intros Hname Hids ids submitted. subst submitted. unfold handleSubmit.
  rewrite decide_False by done. rewrite rowsOf_valid by done.
  rewrite rowsOf_selected. fold ids.
  assert (length (rowsOf group) = length ids) as ->.
  { unfold ids. by rewrite <-rowsOf_selected, length_fmap. }
  split_and!.
  - intros Htwo Hnodup. rewrite decide_False by lia.
    rewrite spread_Set_NoDup by done. by rewrite decide_False by (intros H; by apply H).
  - intros Hfew. by rewrite decide_True by done.
  - intros Htwo Hdup. rewrite decide_False by lia.
    rewrite decide_True; [done|]. intros Hlen. apply Hdup.
    by apply spread_Set_full in Hlen as (_ & Hnodup & _).
Qed.

Lemma edited_group_resubmits_witness :
  sample_trim (group_name body_text_group) ≠ "" ∧
  ("" ∉ font_id <$> group_fonts body_text_group) ∧
  2 ≤ length (font_id <$> group_fonts body_text_group) ∧
  NoDup (font_id <$> group_fonts body_text_group) ∧
  handleSubmit sample_trim (group_name body_text_group) (rowsOf body_text_group)
    (Some body_text_group) =
  Fetch (PutFontGroupAt "2" (Some (Typed (mkUpdateRequest "2" "Body Text" ["0"; "1"])))).
Proof.
  assert (sample_trim (group_name body_text_group) ≠ "") as Hname by done.
  assert ("" ∉ font_id <$> group_fonts body_text_group) as Hids.
  { apply (bool_decide_unpack _). by vm_compute. }
  assert (2 ≤ length (font_id <$> group_fonts body_text_group)) as Htwo by (simpl; lia).
  assert (NoDup (font_id <$> group_fonts body_text_group)) as Hnodup.
  { apply (bool_decide_unpack _). by vm_compute. }
  split_and!; [exact Hname|exact Hids|exact Htwo|exact Hnodup|].
  exact (proj1 (edited_group_resubmits sample_trim body_text_group Hname Hids) Htwo Hnodup).
Defined.

(** ** The typed store and the files as they are *)

Lemma untyped_restore_run path folder :
  Untyped.restore path folder =
    match (if decide (path = dbPath) then mjoin (database folder)
           else elsewhere folder !! path) with
    | Some (Json value) =>
        (Resolved (), mkFolder (Some (Some (Json value))) (elsewhere folder))
    | Some (NoJson _) => (Rejected "SyntaxError", folder)
    | None => (Rejected "ENOENT", folder)
    end.
Proof.
  unfold Untyped.restore, Untyped.await, Untyped.readFile. case_decide; simpl.
  - destruct folder as [[[[raw|value]|]|] others]; simpl; try done;
      by rewrite untyped_write_run.
  - destruct (elsewhere folder !! path) as [[raw|value]|]; simpl; try done;
      by rewrite untyped_write_run.
Qed.

(** X26.  The store over typed documents is what the code does on files
    that hold a document when they parse.  With the files of a typed disk
    rendered as JSON, [read], [write] and [restore] as the code runs them on
    any JSON give the result of their typed counterparts, rendered as JSON,
    and leave the files of the disk that the typed counterparts leave. *)
Theorem typed_store_agrees toISOString w others :
  Untyped.read (folder_of toISOString (w, others)) =
    (encode_result (encode toISOString) (fst (JsonDatabase.read w)),
     folder_of toISOString (snd (JsonDatabase.read w), others)) ∧
  (∀ data,
     Untyped.write (encode toISOString data) (folder_of toISOString (w, others)) =
       (fst (JsonDatabase.write data w),
        folder_of toISOString (snd (JsonDatabase.write data w), others))) ∧
  (∀ path,
     Untyped.restore path (folder_of toISOString (w, others)) =
       (fst (restore path (w, others)),
        folder_of toISOString (snd (restore path (w, others))))).
Proof.
  split_and!.
  - rewrite untyped_read_run, read_run. by destruct w as [[[[raw|data]|]|] u n c].
  - intros data. by rewrite untyped_write_run, write_run.
  - intros path. rewrite untyped_restore_run, restore_run. unfold folder_of. simpl.
    case_decide.
    + by destruct w as [[[[raw|data]|]|] u n c].
    + rewrite lookup_fmap. by destruct (others !! path) as [[raw|data]|].
Qed.
